(** * SMPP capture decoder: a shallow embedding of [services/parser.ts]

    The development follows the TypeScript sources of the capture
    decoder: the constant tables of [constants.ts], the byte reader
    [BufferReader], the PDU decoder ([parseSmppPdu],
    [parseDeliverSmBody], [decodeMessage]), the boundary scanner
    [parseMultipleSmppPdus] and the capture reader
    [extractAllTcpPayloads].

    Conventions.
    - An [ArrayBuffer] is a [list byte]; a JavaScript number that holds
      an integer is a [Z]; a JavaScript string is the list of its
      UTF-16 code units.
    - A computation that can throw returns an [outcome]: [Ok v],
      [Throw e], or [OutOfFuel] when a loop of the model used up the
      iteration budget it was given (the theorems show that the budgets
      chosen by the entry points are never used up).
    - The platform objects the source relies on ([DataView],
      [Uint8Array], [ArrayBuffer.slice], [TextDecoder], [parseInt],
      [Number.prototype.toString]) are modelled after ECMAScript and
      the WHATWG Encoding standard. *)

From Stdlib Require Import ZArith List Bool Lia String Ascii.
From Stdlib Require Import Strings.Byte.
Import ListNotations.
Local Open Scope Z_scope.

(** ** JavaScript strings *)

Definition jsstring := list Z.

Definition str (s : string) : jsstring :=
  map (fun c => Z.of_nat (nat_of_ascii c)) (list_ascii_of_string s).
Arguments str s%_string.

Fixpoint str_eqb (a b : jsstring) : bool :=
  match a, b with
  | [], [] => true
  | x :: a', y :: b' => (x =? y) && str_eqb a' b'
  | _, _ => false
  end.

(** [separator.join] over a list of strings. *)
Fixpoint join (sep : jsstring) (parts : list jsstring) : jsstring :=
  match parts with
  | [] => []
  | [p] => p
  | p :: rest => p ++ sep ++ join sep rest
  end.

(** [s.split(c)] for a one-code-unit separator [c]: the result always
    has at least one piece, so the empty string splits into one empty
    piece. *)
Fixpoint split (c : Z) (s : jsstring) : list jsstring :=
  match s with
  | [] => [[]]
  | x :: s' =>
      if x =? c then [] :: split c s'
      else match split c s' with
           | [] => [[x]]
           | p :: ps => (x :: p) :: ps
           end
  end.

(** [s.padStart(n, c)] for a one-code-unit filler [c]. *)
Definition padStart (n : nat) (c : Z) (s : jsstring) : jsstring :=
  repeat c (n - List.length s) ++ s.

Definition digit_char (d : Z) : Z := if d <? 10 then 48 + d else 87 + d.

Fixpoint digits (fuel : nat) (radix n : Z) (acc : jsstring) : jsstring :=
  match fuel with
  | O => acc
  | S fuel' =>
      let acc' := digit_char (n mod radix) :: acc in
      if n / radix =? 0 then acc' else digits fuel' radix (n / radix) acc'
  end.

(** [n.toString(radix)] for an integer [n] and [2 <= radix <= 36]. *)
Definition toString (radix n : Z) : jsstring :=
  if n <? 0 then 45 :: digits (S (Z.to_nat (Z.log2 (- n)))) radix (- n) []
  else digits (S (Z.to_nat (Z.log2 n))) radix n [].

Definition hex_digit_value (c : Z) : option Z :=
  if (48 <=? c) && (c <=? 57) then Some (c - 48)
  else if (97 <=? c) && (c <=? 102) then Some (c - 87)
  else if (65 <=? c) && (c <=? 70) then Some (c - 55)
  else None.

Fixpoint parse_hex_digits (s : jsstring) (acc : option Z) : option Z :=
  match s with
  | [] => acc
  | c :: s' =>
      match hex_digit_value c with
      | Some d =>
          parse_hex_digits s' (Some (match acc with
                                     | Some a => 16 * a + d
                                     | None => d
                                     end))
      | None => acc
      end
  end.

(** [parseInt(s, 16)] on the strings the decoder passes to it (pieces
    of a hex dump: no white space, sign or [0x] prefix): the value of
    the longest prefix of hexadecimal digits, [None] (NaN) when that
    prefix is empty. *)
Definition parseInt16 (s : jsstring) : option Z := parse_hex_digits s None.

(** ** Outcomes of computations that may throw *)

Inductive exn : Type :=
| RangeError (message : jsstring)
| Error (message : jsstring).

Definition exn_message (e : exn) : jsstring :=
  match e with RangeError m => m | Error m => m end.

Inductive outcome (A : Type) : Type :=
| Ok (a : A)
| Throw (e : exn)
| OutOfFuel.
Arguments Ok {A} a.
Arguments Throw {A} e.
Arguments OutOfFuel {A}.

Definition bind {A B} (m : outcome A) (k : A -> outcome B) : outcome B :=
  match m with
  | Ok a => k a
  | Throw e => Throw e
  | OutOfFuel => OutOfFuel
  end.

(** [try { m } catch (e) { h e }] *)
Definition try_catch {A} (m : outcome A) (h : exn -> outcome A) : outcome A :=
  match m with
  | Throw e => h e
  | _ => m
  end.

Declare Scope outcome_scope.
Delimit Scope outcome_scope with outcome.
Notation "x <- m ;; k" := (bind m (fun x => k))
  (at level 61, m at next level, right associativity) : outcome_scope.
Notation "' pat <- m ;; k" := (bind m (fun x => match x with pat => k end))
  (at level 61, pat pattern, m at next level, right associativity) : outcome_scope.

(** ** ArrayBuffer, DataView and Uint8Array *)

Definition ArrayBuffer := list byte.

Definition byteLength (b : ArrayBuffer) : Z := Z.of_nat (List.length b).

Definition u8 (b : byte) : Z := Z.of_N (Byte.to_N b).

(** [ToUint8] of an array element handed to [new Uint8Array([...])];
    [None] stands for NaN, which converts to 0. *)
Definition ToUint8 (x : option Z) : byte :=
  match x with
  | Some n => match Byte.of_N (Z.to_N (n mod 256)) with
              | Some b => b
              | None => x00
              end
  | None => x00
  end.

Definition byteAt (v : ArrayBuffer) (i : Z) : Z := u8 (nth (Z.to_nat i) v x00).

Definition in_view (v : ArrayBuffer) (off size : Z) : bool :=
  (0 <=? off) && (off + size <=? byteLength v).

Definition dataview_range_error : exn :=
  RangeError (str "Offset is outside the bounds of the DataView").

Definition getUint8 (v : ArrayBuffer) (off : Z) : outcome Z :=
  if in_view v off 1 then Ok (byteAt v off) else Throw dataview_range_error.

Definition getUint16 (v : ArrayBuffer) (off : Z) (littleEndian : bool)
  : outcome Z :=
  if in_view v off 2 then
    let b0 := byteAt v off in
    let b1 := byteAt v (off + 1) in
    Ok (if littleEndian then b0 + 256 * b1 else 256 * b0 + b1)
  else Throw dataview_range_error.

Definition getUint32 (v : ArrayBuffer) (off : Z) (littleEndian : bool)
  : outcome Z :=
  if in_view v off 4 then
    let b0 := byteAt v off in
    let b1 := byteAt v (off + 1) in
    let b2 := byteAt v (off + 2) in
    let b3 := byteAt v (off + 3) in
    Ok (if littleEndian
        then b0 + 256 * b1 + 65536 * b2 + 16777216 * b3
        else 16777216 * b0 + 65536 * b1 + 256 * b2 + b3)
  else Throw dataview_range_error.

(** [new Uint8Array(buffer, byteOffset, length)]: a window on the
    buffer, a [RangeError] when the window does not fit. *)
Definition Uint8Array_on (buf : ArrayBuffer) (off len : Z)
  : outcome (list byte) :=
  if (0 <=? off) && (0 <=? len) && (off + len <=? byteLength buf)
  then Ok (firstn (Z.to_nat len) (skipn (Z.to_nat off) buf))
  else Throw (RangeError (str "Invalid typed array length")).

Definition clamp_index (len i : Z) : Z :=
  if i <? 0 then Z.max (len + i) 0 else Z.min i len.

(** [buffer.slice(begin, end)]: a copy, with both indices clamped. *)
Definition slice (buf : ArrayBuffer) (first final : Z) : ArrayBuffer :=
  let a := clamp_index (byteLength buf) first in
  let b := clamp_index (byteLength buf) final in
  firstn (Z.to_nat (Z.max (b - a) 0)) (skipn (Z.to_nat a) buf).

Definition bufferToHex (buffer : list byte) : jsstring :=
  join (str " ") (map (fun b => padStart 2 48 (toString 16 (u8 b))) buffer).

(** ** TextDecoder

    The decoders of the WHATWG Encoding standard for the labels the
    source uses, in the default (replacement, BOM-stripping) mode, in
    which [decode] never throws.  ["ascii"] and ["iso-8859-1"] are
    labels of windows-1252. *)

Inductive encoding : Type := UTF_8 | UTF_16BE | Windows_1252.

Definition TextDecoder_new (label : jsstring) : outcome encoding :=
  if str_eqb label (str "utf-8") then Ok UTF_8
  else if str_eqb label (str "utf-16be") then Ok UTF_16BE
  else if str_eqb label (str "iso-8859-1") || str_eqb label (str "ascii")
       then Ok Windows_1252
  else Throw (RangeError (str "The encoding label provided is invalid.")).

Definition REPLACEMENT : Z := 0xFFFD.

(** State of the UTF-8 decoder between bytes: the code point being
    assembled, the continuation bytes still expected, and the bounds on
    the next continuation byte. *)
Record utf8_state : Type :=
  { u_cp : Z; u_left : Z; u_lower : Z; u_upper : Z }.

Definition utf8_init : utf8_state :=
  {| u_cp := 0; u_left := 0; u_lower := 0x80; u_upper := 0xBF |}.

(** A byte met while no sequence is open: what is emitted and the state
    that follows. *)
Definition utf8_lead (b : Z) : list Z * utf8_state :=
  if b <=? 0x7F then ([b], utf8_init)
  else if (0xC2 <=? b) && (b <=? 0xDF) then
    ([], {| u_cp := Z.land b 0x1F; u_left := 1;
            u_lower := 0x80; u_upper := 0xBF |})
  else if (0xE0 <=? b) && (b <=? 0xEF) then
    ([], {| u_cp := Z.land b 0xF; u_left := 2;
            u_lower := if b =? 0xE0 then 0xA0 else 0x80;
            u_upper := if b =? 0xED then 0x9F else 0xBF |})
  else if (0xF0 <=? b) && (b <=? 0xF4) then
    ([], {| u_cp := Z.land b 0x7; u_left := 3;
            u_lower := if b =? 0xF0 then 0x90 else 0x80;
            u_upper := if b =? 0xF4 then 0x8F else 0xBF |})
  else ([REPLACEMENT], utf8_init).

Fixpoint utf8_points (bs : list byte) (st : utf8_state) : list Z :=
  match bs with
  | [] => if u_left st =? 0 then [] else [REPLACEMENT]
  | x :: bs' =>
      let b := u8 x in
      if u_left st =? 0 then
        let '(out, st') := utf8_lead b in out ++ utf8_points bs' st'
      else if (b <? u_lower st) || (u_upper st <? b) then
        let '(out, st') := utf8_lead b in
        REPLACEMENT :: out ++ utf8_points bs' st'
      else
        let cp := Z.lor (Z.shiftl (u_cp st) 6) (Z.land b 0x3F) in
        if u_left st =? 1 then cp :: utf8_points bs' utf8_init
        else utf8_points bs' {| u_cp := cp; u_left := u_left st - 1;
                                u_lower := 0x80; u_upper := 0xBF |}
  end.

Definition is_lead_surrogate (cu : Z) : bool := (0xD800 <=? cu) && (cu <=? 0xDBFF).
Definition is_trail_surrogate (cu : Z) : bool := (0xDC00 <=? cu) && (cu <=? 0xDFFF).

(** A code unit met while no lead surrogate is pending. *)
Definition utf16_unit (cu : Z) : list Z * option Z :=
  if is_lead_surrogate cu then ([], Some cu)
  else if is_trail_surrogate cu then ([REPLACEMENT], None)
  else ([cu], None).

Fixpoint utf16be_points (bs : list byte) (lead : option Z) : list Z :=
  match bs with
  | [] => match lead with Some _ => [REPLACEMENT] | None => [] end
  | [_] => [REPLACEMENT]
  | x :: y :: bs' =>
      let cu := Z.shiftl (u8 x) 8 + u8 y in
      match lead with
      | Some l =>
          if is_trail_surrogate cu then
            (0x10000 + Z.shiftl (l - 0xD800) 10 + (cu - 0xDC00))
              :: utf16be_points bs' None
          else
            let '(out, lead') := utf16_unit cu in
            REPLACEMENT :: out ++ utf16be_points bs' lead'
      | None =>
          let '(out, lead') := utf16_unit cu in
          out ++ utf16be_points bs' lead'
      end
  end.

Definition windows_1252_high : list Z :=
  [ 0x20AC; 0x0081; 0x201A; 0x0192; 0x201E; 0x2026; 0x2020; 0x2021;
    0x02C6; 0x2030; 0x0160; 0x2039; 0x0152; 0x008D; 0x017D; 0x008F;
    0x0090; 0x2018; 0x2019; 0x201C; 0x201D; 0x2022; 0x2013; 0x2014;
    0x02DC; 0x2122; 0x0161; 0x203A; 0x0153; 0x009D; 0x017E; 0x0178 ].

Definition windows_1252_point (b : Z) : Z :=
  if (0x80 <=? b) && (b <=? 0x9F)
  then nth (Z.to_nat (b - 0x80)) windows_1252_high b
  else b.

Definition strip_bom (points : list Z) : list Z :=
  match points with
  | p :: rest => if p =? 0xFEFF then rest else points
  | [] => []
  end.

(** A code point as UTF-16 code units. *)
Definition code_units (p : Z) : jsstring :=
  if p <? 0x10000 then [p]
  else [0xD800 + Z.shiftr (p - 0x10000) 10; 0xDC00 + Z.land (p - 0x10000) 0x3FF].

Definition TextDecoder_decode (enc : encoding) (bs : list byte) : jsstring :=
  match enc with
  | UTF_8 => flat_map code_units (strip_bom (utf8_points bs utf8_init))
  | UTF_16BE => flat_map code_units (strip_bom (utf16be_points bs None))
  | Windows_1252 => map (fun b => windows_1252_point (u8 b)) bs
  end.

(** ** constants.ts *)

Definition COMMAND_ID_MAP : list (Z * jsstring) :=
  [ (0x00000001, str "bind_receiver");
    (0x80000001, str "bind_receiver_resp");
    (0x00000002, str "deliver_sm");
    (0x80000002, str "deliver_sm_resp");
    (0x00000003, str "unbind");
    (0x80000003, str "unbind_resp");
    (0x00000004, str "enquire_link");
    (0x80000004, str "enquire_link_resp") ].

Definition DATA_CODING_MAP : list (Z * jsstring) :=
  [ (0x00, str "Default (GSM 7-bit)");
    (0x01, str "IA5 (ASCII)");
    (0x02, str "8-bit binary");
    (0x03, str "Latin 1 (ISO-8859-1)");
    (0x04, str "UTF-8");
    (0x05, str "JIS");
    (0x06, str "Cyrillic (ISO-8859-5)");
    (0x07, str "Latin/Hebrew (ISO-8859-8)");
    (0x08, str "UCS-2 (ISO/IEC-10646)");
    (0x09, str "Pictogram Encoding");
    (0x0A, str "ISO-2022-JP (Music Codes)");
    (0x0D, str "Extended Kanji JIS");
    (0x0E, str "KS C 5601") ].

(** [table[key]]: [None] is [undefined]. *)
Fixpoint lookup (table : list (Z * jsstring)) (key : Z) : option jsstring :=
  match table with
  | [] => None
  | (k, v) :: rest => if k =? key then Some v else lookup rest key
  end.

(** [x || fallback] for a string-or-undefined [x]: the empty string
    and [undefined] are falsy. *)
Definition or_else (x : option jsstring) (fallback : jsstring) : jsstring :=
  match x with
  | Some (c :: s) => c :: s
  | _ => fallback
  end.

Definition ESM_CLASS_MAP (value : Z) : jsstring :=
  let messageMode := Z.land value 3 (* 0b00000011 *) in
  let messageType := Z.land value 60 (* 0b00111100 *) in
  let modeStr :=
    if messageMode =? 0 then str "Default Mode"
    else if messageMode =? 3 then str "Store and Forward"
    else str "Unknown Mode" in
  let typeStr :=
    if messageType =? 0 then str "Default Message"
    else if messageType =? 4 then str "Delivery Receipt"
    else if messageType =? 8 then str "Delivery Acknowledgement"
    else if messageType =? 64 then str "Manual/User Acknowledgement"
    else if messageType =? 96 then str "Conversation Abort (Korean CDMA)"
    else if messageType =? 128 then str "Intermediate Delivery Notification"
    else str "Unknown Type" in
  typeStr ++ str ", " ++ modeStr.

(** ** Decoding helpers *)

Local Open Scope outcome_scope.

(** The [scheme] constant of [decodeMessage]. *)
Definition scheme (dataCoding : Z) : jsstring :=
  or_else (lookup DATA_CODING_MAP dataCoding)
          (str "Unknown (0x" ++ toString 16 dataCoding ++ str ")").

Definition decodeMessage (messageBuffer : list byte) (dataCoding : Z)
  : outcome jsstring :=
  content <-
    try_catch
      (if dataCoding =? 0x08 then
         d <- TextDecoder_new (str "utf-16be") ;;
         Ok (TextDecoder_decode d messageBuffer)
       else if dataCoding =? 0x03 then
         d <- TextDecoder_new (str "iso-8859-1") ;;
         Ok (TextDecoder_decode d messageBuffer)
       else if dataCoding =? 0x04 then
         d <- TextDecoder_new (str "utf-8") ;;
         Ok (TextDecoder_decode d messageBuffer)
       else if dataCoding =? 0x00 then
         Ok (str "[GSM 7-bit encoded data: " ++ bufferToHex messageBuffer
               ++ str "]")
       else
         Ok (str "[Binary Data: " ++ bufferToHex messageBuffer ++ str "]"))
      (fun e => Ok (str "[Error decoding: " ++ exn_message e ++ str "]")) ;;
  Ok (str "(" ++ scheme dataCoding ++ str ") " ++ content).

(** ** types.ts *)

Record SmppHeader : Type :=
  { command_length : Z;
    command_id : Z;
    command_name : jsstring;
    command_status : Z;
    sequence_no : Z }.

Module SmppTlv.
(** A TLV as [readTlv] returns it: numeric tag, value as a hex dump. *)
Record t : Type := { tag : Z; length : Z; value : jsstring }.
End SmppTlv.

Module ShownTlv.
(** A TLV as stored in [body.tlvs]: the tag rendered as ["0x...."]. *)
Record t : Type := { tag : jsstring; length : Z; value : jsstring }.
End ShownTlv.

(** The fields [parseDeliverSmBody] sets on [body]; [short_message] and
    [tlvs] are set only on some paths, [None] is an absent key. *)
Record DeliverSmBody : Type :=
  { service_type : jsstring;
    source_addr_ton : Z;
    source_addr_npi : Z;
    source_address : jsstring;
    dest_addr_ton : Z;
    dest_addr_npi : Z;
    dest_address : jsstring;
    esm_class : jsstring;
    protocol_id : Z;
    priority_flag : Z;
    replace_if_present_flag : Z;
    data_coding : Z;
    sm_default_msg_id : Z;
    sm_length : Z;
    short_message : option jsstring;
    tlvs : option (list ShownTlv.t);
    decoded_message : jsstring }.

(** [body: Record<string, any>] holds one of the two shapes
    [parseSmppPdu] builds. *)
Inductive Body : Type :=
| DeliverSm (b : DeliverSmBody)
| Unsupported (unsupported_command raw_body : jsstring).

Record ParsedSmppData : Type := { header : SmppHeader; body : Body }.

Module PacketSummary.
Record t : Type :=
  { index : Z;
    sourceIp : jsstring;
    destIp : jsstring;
    sourcePort : Z;
    destPort : Z;
    length : Z;
    info : jsstring;
    payload : ArrayBuffer }.
End PacketSummary.

(** ** BufferReader *)

Record BufferReader : Type :=
  { view : ArrayBuffer; textDecoder : encoding; offset : Z }.

Definition set_offset (r : BufferReader) (o : Z) : BufferReader :=
  {| view := view r; textDecoder := textDecoder r; offset := o |}.

(** A method of the reader: it may throw, and may move [offset]. *)
Definition method (A : Type) : Type := BufferReader -> outcome (A * BufferReader).

Definition ret {A} (a : A) : method A := fun r => Ok (a, r).

Definition lift {A} (m : outcome A) : method A :=
  fun r => a <- m ;; Ok (a, r).

Definition mbind {A B} (m : method A) (k : A -> method B) : method B :=
  fun r => match m r with
           | Ok (a, r') => k a r'
           | Throw e => Throw e
           | OutOfFuel => OutOfFuel
           end.

Declare Scope method_scope.
Delimit Scope method_scope with method.
Notation "x <- m ;; k" := (mbind m (fun x => k))
  (at level 61, m at next level, right associativity) : method_scope.
Notation "' pat <- m ;; k" := (mbind m (fun x => match x with pat => k end))
  (at level 61, pat pattern, m at next level, right associativity) : method_scope.

Definition BufferReader_new (buffer : ArrayBuffer) : outcome BufferReader :=
  d <- TextDecoder_new (str "ascii") ;;
  Ok {| view := buffer; textDecoder := d; offset := 0 |}.

Definition bytesRemaining (r : BufferReader) : Z :=
  byteLength (view r) - offset r.

(** [None] is [null]. *)
Definition peekUint32 (r : BufferReader) (off : Z) : outcome (option Z) :=
  if off + 4 >? byteLength (view r) then Ok None
  else v <- getUint32 (view r) off false ;; Ok (Some v).

Definition readUint32 : method Z := fun r =>
  value <- getUint32 (view r) (offset r) false ;;
  Ok (value, set_offset r (offset r + 4)).

Definition readUint8 : method Z := fun r =>
  value <- getUint8 (view r) (offset r) ;;
  Ok (value, set_offset r (offset r + 1)).

(** The [while] loop of [readCString]: the offset of the terminator, or
    the end of the view. *)
Fixpoint cstring_end (fuel : nat) (v : ArrayBuffer) (off : Z) : outcome Z :=
  match fuel with
  | O => OutOfFuel
  | S fuel' =>
      if off <? byteLength v then
        b <- getUint8 v off ;;
        if negb (b =? 0) then cstring_end fuel' v (off + 1) else Ok off
      else Ok off
  end.

Definition readCString : method jsstring := fun r =>
  let start := offset r in
  stop <- cstring_end (S (List.length (view r))) (view r) start ;;
  bytes <- Uint8Array_on (view r) start (stop - start) ;;
  let s := TextDecoder_decode (textDecoder r) bytes in
  Ok (s, set_offset r (if stop <? byteLength (view r) then stop + 1 else stop)).

Definition readBytes (length : Z) : method (list byte) := fun r =>
  value <- Uint8Array_on (view r) (offset r) length ;;
  Ok (value, set_offset r (offset r + length)).

Definition readTlv : method (option SmppTlv.t) := fun r =>
  if bytesRemaining r <? 4 then Ok (None, r)
  else
    tag <- getUint16 (view r) (offset r) false ;;
    length <- getUint16 (view r) (offset r + 2) false ;;
    if length >? bytesRemaining r - 4 then Ok (None, r)
    else
      '(value, r') <- readBytes length (set_offset r (offset r + 4)) ;;
      Ok (Some {| SmppTlv.tag := tag; SmppTlv.length := length;
                  SmppTlv.value := bufferToHex value |}, r').

(** ** SMPP PDU parsing *)

(** The bytes of a message_payload TLV, recovered from the hex dump of
    its value: [new Uint8Array(value.split(' ').map(s => parseInt(s, 16)))]. *)
Definition bytes_of_hex (value : jsstring) : list byte :=
  map (fun s => ToUint8 (parseInt16 s)) (split 32 value).

(** The [while (reader.bytesRemaining() > 0)] loop of
    [parseDeliverSmBody], on the variables it updates: [tlvs] and
    [message_content]. *)
Fixpoint tlv_loop (fuel : nat) (tlvs : list SmppTlv.t)
    (message_content : option (list byte))
  : method (list SmppTlv.t * option (list byte)) :=
  fun r =>
    match fuel with
    | O => OutOfFuel
    | S fuel' =>
        if bytesRemaining r >? 0 then
          '(tlv, r') <- readTlv r ;;
          match tlv with
          | Some t =>
              tlv_loop fuel' (tlvs ++ [t])
                (if SmppTlv.tag t =? 0x0424
                 then Some (bytes_of_hex (SmppTlv.value t))
                 else message_content)
                r'
          | None => Ok ((tlvs, message_content), r')
          end
        else Ok ((tlvs, message_content), r)
    end.

Definition show_tlv (t : SmppTlv.t) : ShownTlv.t :=
  {| ShownTlv.tag := str "0x" ++ padStart 4 48 (toString 16 (SmppTlv.tag t));
     ShownTlv.length := SmppTlv.length t;
     ShownTlv.value := SmppTlv.value t |}.

(** The optional short message: read only when [sm_length] is positive
    and fits in what is left. *)
Definition read_short_message (sm_length : Z) : method (option (list byte)) :=
  fun r =>
    if (sm_length >? 0) && (sm_length <=? bytesRemaining r)
    then '(bytes, r') <- readBytes sm_length r ;; Ok (Some bytes, r')
    else Ok (None, r).

Definition parseDeliverSmBody (smppLength : Z) : method DeliverSmBody :=
  (service_type <- readCString ;;
   source_addr_ton <- readUint8 ;;
   source_addr_npi <- readUint8 ;;
   source_address <- readCString ;;
   dest_addr_ton <- readUint8 ;;
   dest_addr_npi <- readUint8 ;;
   dest_address <- readCString ;;
   esmClass <- readUint8 ;;
   protocol_id <- readUint8 ;;
   priority_flag <- readUint8 ;;
   replace_if_present_flag <- readUint8 ;;
   data_coding <- readUint8 ;;
   sm_default_msg_id <- readUint8 ;;
   sm_length <- readUint8 ;;
   short <- read_short_message sm_length ;;
   '(tlvs, message_content) <-
     (fun r => tlv_loop (S (List.length (view r))) [] short r) ;;
   decoded_message <-
     lift (match message_content with
           | Some content => decodeMessage content data_coding
           | None => Ok (str "(No message content)")
           end) ;;
   ret {| service_type := service_type;
          source_addr_ton := source_addr_ton;
          source_addr_npi := source_addr_npi;
          source_address := source_address;
          dest_addr_ton := dest_addr_ton;
          dest_addr_npi := dest_addr_npi;
          dest_address := dest_address;
          esm_class :=
            ESM_CLASS_MAP esmClass ++ str " (0x"
              ++ padStart 2 48 (toString 16 esmClass) ++ str ")";
          protocol_id := protocol_id;
          priority_flag := priority_flag;
          replace_if_present_flag := replace_if_present_flag;
          data_coding := data_coding;
          sm_default_msg_id := sm_default_msg_id;
          sm_length := sm_length;
          short_message := option_map bufferToHex short;
          tlvs := match tlvs with
                  | [] => None
                  | _ :: _ => Some (map show_tlv tlvs)
                  end;
          decoded_message := decoded_message |})%method.

(** [parseSmppPdu]; the [console.warn] on a length mismatch has no
    effect on the result and is left out. *)
Definition parseSmppPdu (pduBuffer : ArrayBuffer) : outcome ParsedSmppData :=
  reader <- BufferReader_new pduBuffer ;;
  '(command_length, reader) <- readUint32 reader ;;
  '(command_id, reader) <- readUint32 reader ;;
  '(command_status, reader) <- readUint32 reader ;;
  '(sequence_no, reader) <- readUint32 reader ;;
  let commandName :=
    or_else (lookup COMMAND_ID_MAP command_id) (str "Unknown Command") in
  body <-
    (if str_eqb commandName (str "deliver_sm") then
       '(b, _) <- parseDeliverSmBody command_length reader ;;
       Ok (DeliverSm b)
     else
       let remainingBytes := bytesRemaining reader in
       raw_body <-
         (if remainingBytes >? 0
          then '(bytes, _) <- readBytes remainingBytes reader ;;
               Ok (bufferToHex bytes)
          else Ok (str "No body")) ;;
       Ok (Unsupported
             (str "Parser for " ++ commandName ++ str " (0x"
                ++ toString 16 command_id ++ str ") is not implemented.")
             raw_body)) ;;
  Ok {| header := {| command_length := command_length;
                     command_id := command_id;
                     command_name := commandName;
                     command_status := command_status;
                     sequence_no := sequence_no |};
        body := body |}.

Definition knownCommandIds : list Z := map fst COMMAND_ID_MAP.

Definition includes (l : list Z) (x : Z) : bool := existsb (Z.eqb x) l.

(** One pass through the body of the scanning loop, entered with
    [offset + 16 <= byteLength]: the list of PDUs and the offset it
    leaves. *)
Definition scan_body (tcpPayload : ArrayBuffer) (offset : Z)
    (allPdus : list ParsedSmppData)
  : outcome (list ParsedSmppData * Z) :=
  commandId <- getUint32 tcpPayload (offset + 4) false ;;
  if includes knownCommandIds commandId then
    commandLength <- getUint32 tcpPayload offset false ;;
    if (commandLength >=? 16)
         && (offset + commandLength <=? byteLength tcpPayload)
    then
      let singlePduBuffer := slice tcpPayload offset (offset + commandLength) in
      try_catch
        (parsedPdu <- parseSmppPdu singlePduBuffer ;;
         Ok (allPdus ++ [parsedPdu], offset + commandLength))
        (fun e => Ok (allPdus, offset + 1))
    else Ok (allPdus, offset + 1)
  else Ok (allPdus, offset + 1).

Fixpoint scan_loop (fuel : nat) (tcpPayload : ArrayBuffer) (offset : Z)
    (allPdus : list ParsedSmppData) : outcome (list ParsedSmppData) :=
  match fuel with
  | O => OutOfFuel
  | S fuel' =>
      if offset + 16 <=? byteLength tcpPayload then
        '(allPdus', offset') <- scan_body tcpPayload offset allPdus ;;
        scan_loop fuel' tcpPayload offset' allPdus'
      else Ok allPdus
  end.

Definition parseMultipleSmppPdus (tcpPayload : ArrayBuffer)
  : outcome (list ParsedSmppData) :=
  scan_loop (S (List.length tcpPayload)) tcpPayload 0 [].

(** ** PCAP parsing *)

(** How one pass through the body of the record loop ends: [break], or
    the values of [offset], [packetIndex] and [packets] the next pass
    starts from. *)
Inductive loop_ctl : Type :=
| Break
| Continue (offset packetIndex : Z) (packets : list PacketSummary.t).

Definition dotted (a b c d : Z) : jsstring :=
  toString 10 a ++ str "." ++ toString 10 b ++ str "."
    ++ toString 10 c ++ str "." ++ toString 10 d.

(** The [info] field, from the two peeks at the start of the payload. *)
Definition packet_info (payload : ArrayBuffer) (cmdLen cmdId : option Z)
  : jsstring :=
  match cmdId, cmdLen with
  | Some id, Some len =>
      if (len >=? 16) && (len <=? byteLength payload) then
        or_else (lookup COMMAND_ID_MAP id)
                (str "Unknown Command (0x" ++ toString 16 id ++ str ")")
          ++ (if len <? byteLength payload then str " (Multiple)" else [])
      else str "SMPP Data"
  | _, _ => str "SMPP Data"
  end.

Definition record_body (pcapBuffer : ArrayBuffer) (littleEndian : bool)
    (offset packetIndex : Z) (packets : list PacketSummary.t)
  : outcome loop_ctl :=
  if byteLength pcapBuffer <? offset + 16 then Ok Break
  else
    incl_len <- getUint32 pcapBuffer (offset + 8) littleEndian ;;
    let packetStart := offset + 16 in
    if packetStart + incl_len >? byteLength pcapBuffer then Ok Break
    else
      let next := Continue (offset + 16 + incl_len) in
      let ipHeaderOffset := packetStart + 14 in
      if ipHeaderOffset >=? packetStart + incl_len
      then Ok (next packetIndex packets)
      else
        etherType <- getUint16 pcapBuffer (packetStart + 12) false ;;
        if negb (etherType =? 0x0800) then Ok (next packetIndex packets)
        else
          versionIhl <- getUint8 pcapBuffer ipHeaderOffset ;;
          let ipHeaderLength := Z.land versionIhl 0x0F * 4 in
          ipProtocol <- getUint8 pcapBuffer (ipHeaderOffset + 9) ;;
          if negb (ipProtocol =? 6) then Ok (next packetIndex packets)
          else
            s0 <- getUint8 pcapBuffer (ipHeaderOffset + 12) ;;
            s1 <- getUint8 pcapBuffer (ipHeaderOffset + 13) ;;
            s2 <- getUint8 pcapBuffer (ipHeaderOffset + 14) ;;
            s3 <- getUint8 pcapBuffer (ipHeaderOffset + 15) ;;
            let sourceIp := dotted s0 s1 s2 s3 in
            d0 <- getUint8 pcapBuffer (ipHeaderOffset + 16) ;;
            d1 <- getUint8 pcapBuffer (ipHeaderOffset + 17) ;;
            d2 <- getUint8 pcapBuffer (ipHeaderOffset + 18) ;;
            d3 <- getUint8 pcapBuffer (ipHeaderOffset + 19) ;;
            let destIp := dotted d0 d1 d2 d3 in
            let tcpHeaderOffset := ipHeaderOffset + ipHeaderLength in
            sourcePort <- getUint16 pcapBuffer tcpHeaderOffset false ;;
            destPort <- getUint16 pcapBuffer (tcpHeaderOffset + 2) false ;;
            dataOffsetByte <- getUint8 pcapBuffer (tcpHeaderOffset + 12) ;;
            let tcpHeaderLength :=
              Z.shiftr (Z.land dataOffsetByte 0xF0) 4 * 4 in
            let payloadOffset := tcpHeaderOffset + tcpHeaderLength in
            let totalHeaderLength := payloadOffset - packetStart in
            let payloadLength := incl_len - totalHeaderLength in
            if payloadLength >? 16 then
              let packetIndex := packetIndex + 1 in
              let payload :=
                slice pcapBuffer payloadOffset (payloadOffset + payloadLength) in
              payloadReader <- BufferReader_new payload ;;
              cmdLen <- peekUint32 payloadReader 0 ;;
              cmdId <- peekUint32 payloadReader 4 ;;
              Ok (next packetIndex
                    (packets ++
                       [ {| PacketSummary.index := packetIndex;
                            PacketSummary.sourceIp := sourceIp;
                            PacketSummary.destIp := destIp;
                            PacketSummary.sourcePort := sourcePort;
                            PacketSummary.destPort := destPort;
                            PacketSummary.length := payloadLength;
                            PacketSummary.info :=
                              packet_info payload cmdLen cmdId;
                            PacketSummary.payload := payload |} ]))
            else Ok (next packetIndex packets).

Fixpoint record_loop (fuel : nat) (pcapBuffer : ArrayBuffer)
    (littleEndian : bool) (offset packetIndex : Z)
    (packets : list PacketSummary.t) : outcome (list PacketSummary.t) :=
  match fuel with
  | O => OutOfFuel
  | S fuel' =>
      if offset <? byteLength pcapBuffer then
        ctl <- record_body pcapBuffer littleEndian offset packetIndex packets ;;
        match ctl with
        | Break => Ok packets
        | Continue offset' packetIndex' packets' =>
            record_loop fuel' pcapBuffer littleEndian offset' packetIndex'
              packets'
        end
      else Ok packets
  end.

Definition extractAllTcpPayloads (pcapBuffer : ArrayBuffer)
  : outcome (list PacketSummary.t) :=
  if byteLength pcapBuffer <? 24 then
    Throw (Error (str "Invalid PCAP file: too short for global header."))
  else
    magic_number <- getUint32 pcapBuffer 0 false ;;
    littleEndian <-
      (if magic_number =? 0xa1b2c3d4 then Ok false
       else if magic_number =? 0xd4c3b2a1 then Ok true
       else Throw (Error
                     (str "Unsupported or invalid PCAP file: magic number is incorrect (was 0x"
                        ++ toString 16 magic_number ++ str ")."))) ;;
    record_loop (S (List.length pcapBuffer)) pcapBuffer littleEndian 24 0 [].

(** The pipeline as the application runs it: the capture is stripped
    to packet summaries, and the payload of a summary is scanned and
    decoded.  Here every forwarded payload is decoded, in order. *)
Fixpoint decode_payloads (packets : list PacketSummary.t)
  : outcome (list ParsedSmppData) :=
  match packets with
  | [] => Ok []
  | p :: rest =>
      pdus <- parseMultipleSmppPdus (PacketSummary.payload p) ;;
      more <- decode_payloads rest ;;
      Ok (pdus ++ more)
  end.

Definition decode_capture (pcapBuffer : ArrayBuffer)
  : outcome (list ParsedSmppData) :=
  packets <- extractAllTcpPayloads pcapBuffer ;;
  decode_payloads packets.

(** ** Packet selection in the application

    The part of [handleSelectPacket] (App.tsx) that uses the parser:
    the three state variables it sets, as one record.  It resets them,
    looks the packet up by its index and decodes its payload; an
    exception - always an instance of [Error] here - becomes the error
    text. *)

Record Selection : Type :=
  { selectedPacketIndex : option Z;
    error : option jsstring;
    detailedPacketData : option (list ParsedSmppData) }.

Definition handleSelectPacket (packets : list PacketSummary.t) (index : Z)
  : outcome Selection :=
  try_catch
    (match find (fun p => PacketSummary.index p =? index) packets with
     | Some selectedPacket =>
         dataArray <- parseMultipleSmppPdus (PacketSummary.payload selectedPacket) ;;
         Ok {| selectedPacketIndex := Some index;
               error := None;
               detailedPacketData := Some dataArray |}
     | None =>
         Ok {| selectedPacketIndex := Some index;
               error := None;
               detailedPacketData := None |}
     end)
    (fun e =>
       Ok {| selectedPacketIndex := Some index;
             error := Some (str "Failed to parse packet #" ++ toString 10 index
                              ++ str ": " ++ exn_message e);
             detailedPacketData := None |}).

(** ** Sample inputs *)

Definition bytes_of (l : list Z) : list byte := map (fun n => ToUint8 (Some n)) l.

(** The 16-byte enquire_link PDU: length 16, id 4, status 0, sequence 1. *)
Definition enquire_link_pdu : ArrayBuffer :=
  bytes_of [0;0;0;16; 0;0;0;4; 0;0;0;0; 0;0;0;1].

Definition pcap_global_header : list byte :=
  bytes_of [0xa1;0xb2;0xc3;0xd4; 0;2; 0;4; 0;0;0;0; 0;0;0;0;
            0;0;0xff;0xff; 0;0;0;1].

(** A big-endian record header declaring [n] captured bytes. *)
Definition pcap_record_header (n : Z) : list byte :=
  bytes_of [0;0;0;0; 0;0;0;0;
            n / 16777216; n / 65536; n / 256; n;
            n / 16777216; n / 65536; n / 256; n].

(** Ethernet II + IPv4 (20 bytes) + TCP (20 bytes) headers of a frame
    from 10.0.0.1:2775 to 10.0.0.2:9999. *)
Definition frame_headers : list byte :=
  bytes_of [ 2;0;0;0;0;2;  2;0;0;0;0;1;  0x08;0x00 ]
  ++ bytes_of [ 0x45;0; 0;56; 0;0; 0;0; 64; 6; 0;0;
                10;0;0;1; 10;0;0;2 ]
  ++ bytes_of [ 0x0a;0xd7; 0x27;0x0f; 0;0;0;0; 0;0;0;0; 0x50;0x18;
                0xff;0xff; 0;0; 0;0 ].

Definition capture_of (tcp_payload : list byte) : ArrayBuffer :=
  pcap_global_header
    ++ pcap_record_header (Z.of_nat (List.length (frame_headers ++ tcp_payload)))
    ++ frame_headers ++ tcp_payload.

Definition enquire_link_capture : ArrayBuffer := capture_of enquire_link_pdu.

(** A capture whose only record holds 15 bytes: a whole Ethernet
    header with EtherType 0x0800 and the first byte of an IPv4 header. *)
Definition short_ipv4_capture : ArrayBuffer :=
  pcap_global_header ++ pcap_record_header 15
    ++ bytes_of [ 2;0;0;0;0;2;  2;0;0;0;0;1;  0x08;0x00;  0x45 ].

(** A capture whose only record declares 0xFFFFFFFF captured bytes. *)
Definition corrupt_length_capture : ArrayBuffer :=
  pcap_global_header ++ pcap_record_header 0xFFFFFFFF ++ frame_headers.

(** The fixed fields of a deliver_sm body with empty addresses, the
    given data coding and a short message. *)
Definition deliver_sm_fields (data_coding : Z) (short_message : list Z)
  : list Z :=
  [ 0;  0; 0; 0;  0; 0; 0;  0;  0; 0; 0;  data_coding;  0;
    Z.of_nat (List.length short_message) ] ++ short_message.

Definition pdu_of (command_id : Z) (body : list Z) : ArrayBuffer :=
  let n := 16 + Z.of_nat (List.length body) in
  bytes_of ([ n / 16777216; n / 65536; n / 256; n;
              command_id / 16777216; command_id / 65536; command_id / 256;
              command_id;
              0;0;0;0;  0;0;0;1 ] ++ body).

(** deliver_sm, binary data coding, short message ["A"], and a
    message_payload TLV with the given value. *)
Definition deliver_sm_with_payload (value : list Z) : ArrayBuffer :=
  pdu_of 2 (deliver_sm_fields 2 [0x41]
              ++ [0x04; 0x24; 0; Z.of_nat (List.length value)] ++ value).

(** deliver_sm with a well-formed TLV (tag 0x0204, value 00 07)
    followed by ten bytes that open with a TLV header declaring 9999
    value bytes. *)
Definition deliver_sm_malformed_tlv : ArrayBuffer :=
  pdu_of 2 (deliver_sm_fields 4 [72; 105]
              ++ [0x02; 0x04; 0; 2; 0; 7]
              ++ [0x14; 0x01; 0x27; 0x0F; 1; 2; 3; 4; 5; 6]).

(** A deliver_sm PDU that is all header. *)
Definition deliver_sm_header_only : ArrayBuffer := pdu_of 2 [].

(** One record of a big-endian capture: its header and its bytes. *)
Definition record_of (frame : list byte) : list byte :=
  pcap_record_header (Z.of_nat (List.length frame)) ++ frame.

(** A 42-byte ARP frame (EtherType 0x0806). *)
Definition arp_frame : list byte :=
  bytes_of [ 0xff;0xff;0xff;0xff;0xff;0xff;  2;0;0;0;0;1;  0x08;0x06 ]
  ++ bytes_of [ 0;1; 8;0; 6; 4; 0;1;  2;0;0;0;0;1;  10;0;0;1;
                0;0;0;0;0;0;  10;0;0;2 ].

(** A capture of four records: an ARP frame, a TCP frame carrying two
    enquire_link PDUs, a 10-byte runt, and a TCP frame carrying a
    deliver_sm PDU. *)
Definition mixed_capture : ArrayBuffer :=
  pcap_global_header
    ++ record_of arp_frame
    ++ record_of (frame_headers ++ enquire_link_pdu ++ enquire_link_pdu)
    ++ record_of (bytes_of [1; 2; 3; 4; 5; 6; 7; 8; 9; 10])
    ++ record_of (frame_headers ++ deliver_sm_with_payload [0x42; 0x43]).

(** ** Vocabulary of the statements *)

(** The two heuristics of the scanner at [offset]: a known command id
    at [offset + 4], and at [offset] a length of at least 16 that fits
    in the payload. *)
Definition heuristics_match (tcpPayload : ArrayBuffer) (offset : Z) : bool :=
  match getUint32 tcpPayload (offset + 4) false,
        getUint32 tcpPayload offset false with
  | Ok commandId, Ok commandLength =>
      includes knownCommandIds commandId
        && (commandLength >=? 16)
        && (offset + commandLength <=? byteLength tcpPayload)
  | _, _ => false
  end.

(** A valid PDU: its length field is its own size, its command id is
    known, and it decodes to [parsed]. *)
Definition valid_pdu (pdu : ArrayBuffer) (parsed : ParsedSmppData) : Prop :=
  getUint32 pdu 0 false = Ok (byteLength pdu)
  /\ (exists id, getUint32 pdu 4 false = Ok id
                 /\ includes knownCommandIds id = true)
  /\ parseSmppPdu pdu = Ok parsed.

(** Bytes put before a PDU are garbage when the heuristics match at
    none of their offsets. *)
Definition garbage_before (garbage pdu : ArrayBuffer) : Prop :=
  forall i, 0 <= i < byteLength garbage ->
            heuristics_match (garbage ++ pdu) i = false.

(** The header fields as they stand in the first 16 bytes of a PDU,
    with the name the command-id table gives the id. *)
Definition header_fields_of (pdu : ArrayBuffer) (h : SmppHeader) : Prop :=
  getUint32 pdu 0 false = Ok (command_length h)
  /\ getUint32 pdu 4 false = Ok (command_id h)
  /\ getUint32 pdu 8 false = Ok (command_status h)
  /\ getUint32 pdu 12 false = Ok (sequence_no h)
  /\ command_name h
     = or_else (lookup COMMAND_ID_MAP (command_id h)) (str "Unknown Command").

(** The two tables of [ESM_CLASS_MAP], keyed as the source keys them:
    by the subfield's bits in place within the byte. *)
Definition MESSAGING_MODE_TABLE : list (Z * jsstring) :=
  [ (0 (* 0b00 *), str "Default Mode");
    (3 (* 0b11 *), str "Store and Forward") ].

Definition MESSAGE_TYPE_TABLE : list (Z * jsstring) :=
  [ (0   (* 0b00000000 *), str "Default Message");
    (4   (* 0b00000100 *), str "Delivery Receipt");
    (8   (* 0b00001000 *), str "Delivery Acknowledgement");
    (64  (* 0b01000000 *), str "Manual/User Acknowledgement");
    (96  (* 0b01100000 *), str "Conversation Abort (Korean CDMA)");
    (128 (* 0b10000000 *), str "Intermediate Delivery Notification") ].

(** The name a table gives a key, [unknown] when it lists none. *)
Definition name_in (table : list (Z * jsstring)) (key : Z)
    (unknown : jsstring) : jsstring :=
  match lookup table key with
  | Some name => name
  | None => unknown
  end.

(** A record is cut short at [offset] when its 16-byte header does
    not fit, or the length it declares runs past the buffer. *)
Definition truncated_at (pcapBuffer : ArrayBuffer) (littleEndian : bool)
    (offset : Z) : bool :=
  (byteLength pcapBuffer <? offset + 16)
  || match getUint32 pcapBuffer (offset + 8) littleEndian with
     | Ok incl_len => offset + 16 + incl_len >? byteLength pcapBuffer
     | _ => false
     end.

(** A computation ends within its budget: it returns or throws. *)
Definition terminates {A} (m : outcome A) : Prop := m <> OutOfFuel.

Definition mterminates {A} (m : method A) : Prop := forall r, terminates (m r).

(** What every packet summary the capture reader returns satisfies:
    [length] is the size of the payload it keeps, that size is above
    16, and the ports are 16-bit numbers. *)
Definition well_formed_packet (p : PacketSummary.t) : Prop :=
  PacketSummary.length p = byteLength (PacketSummary.payload p)
  /\ 16 < PacketSummary.length p
  /\ 0 <= PacketSummary.sourcePort p < 65536
  /\ 0 <= PacketSummary.destPort p < 65536.

(** The numbers [first], [first + 1], ..., [count] of them. *)
Fixpoint count_from (first : Z) (count : nat) : list Z :=
  match count with
  | O => []
  | S count' => first :: count_from (first + 1) count'
  end.

(** The renderings [ESM_CLASS_MAP] can produce. *)
Definition esm_class_renderings : list jsstring :=
  flat_map
    (fun type =>
       map (fun mode => type ++ str ", " ++ mode)
           [str "Default Mode"; str "Store and Forward"; str "Unknown Mode"])
    [str "Default Message"; str "Delivery Receipt";
     str "Delivery Acknowledgement"; str "Unknown Type"].

(** The only exception a computation can throw is [e0]. *)
Definition throws_only {A} (e0 : exn) (m : outcome A) : Prop :=
  forall e, m = Throw e -> e = e0.

(** What holds of every PDU the scanner emits for a payload: its id
    and name are an entry of the command table, and its declared
    length is at least 16 and at most the size of the payload. *)
Definition emitted_pdu_ok (tcpPayload : ArrayBuffer) (pdu : ParsedSmppData)
  : Prop :=
  In (command_id (header pdu), command_name (header pdu)) COMMAND_ID_MAP
  /\ 16 <= command_length (header pdu) <= byteLength tcpPayload.

(** The sum of the declared lengths of a list of PDUs. *)
Definition total_length (pdus : list ParsedSmppData) : Z :=
  fold_right (fun pdu sum => command_length (header pdu) + sum) 0 pdus.

(** The reader has consumed [before] and has [after] still to read. *)
Definition reader_at (r : BufferReader) (before after : list byte) : Prop :=
  view r = before ++ after /\ offset r = byteLength before.

(** No byte of the text is the terminator. *)
Definition no_nul (text : list byte) : Prop :=
  Forall (fun b => u8 b <> 0) text.

(** A TLV on the wire: big-endian tag, big-endian length, value. *)
Definition tlv_bytes (tag : Z) (value : list byte) : list byte :=
  bytes_of [tag / 256; tag; byteLength value / 256; byteLength value]
    ++ value.

(** The TLV [readTlv] returns for a tag and a value. *)
Definition tlv_read (tag : Z) (value : list byte) : SmppTlv.t :=
  {| SmppTlv.tag := tag;
     SmppTlv.length := byteLength value;
     SmppTlv.value := bufferToHex value |}.

(** The message content a message_payload TLV leaves: its value, but
    one zero byte when the value is empty. *)
Definition payload_content (value : list byte) : list byte :=
  match value with
  | [] => [x00]
  | _ :: _ => value
  end.

(** The message content after a run of TLVs: that of the last
    message_payload TLV, or what it was before when there is none. *)
Fixpoint content_after (message_content : option (list byte))
    (tlvs : list (Z * list byte)) : option (list byte) :=
  match tlvs with
  | [] => message_content
  | (tag, value) :: rest =>
      content_after (if tag =? 0x0424 then Some (payload_content value)
                     else message_content) rest
  end.

Definition tlvs_fit (tlvs : list (Z * list byte)) : Prop :=
  Forall (fun tv => 0 <= fst tv < 65536 /\ byteLength (snd tv) < 65536) tlvs.

Definition tlvs_bytes (tlvs : list (Z * list byte)) : list byte :=
  flat_map (fun tv => tlv_bytes (fst tv) (snd tv)) tlvs.

(** The reader of a PDU: it decodes C strings as windows-1252. *)
Definition reading (r : BufferReader) (before after : list byte) : Prop :=
  reader_at r before after /\ textDecoder r = Windows_1252.

(** The parts of a deliver_sm body, as bytes. *)
Record DeliverSmWire : Type :=
  { w_service_type : list byte;
    w_source_addr_ton : byte;
    w_source_addr_npi : byte;
    w_source_address : list byte;
    w_dest_addr_ton : byte;
    w_dest_addr_npi : byte;
    w_dest_address : list byte;
    w_esm_class : byte;
    w_protocol_id : byte;
    w_priority_flag : byte;
    w_replace_if_present_flag : byte;
    w_data_coding : byte;
    w_sm_default_msg_id : byte;
    w_short_message : list byte;
    w_tlvs : list (Z * list byte) }.

(** The body on the wire: three zero-terminated strings among the
    one-byte fields, the length byte and the short message, the TLVs. *)
Definition deliver_sm_wire (w : DeliverSmWire) : list byte :=
  w_service_type w ++ x00
    :: w_source_addr_ton w :: w_source_addr_npi w
    :: w_source_address w ++ x00
    :: w_dest_addr_ton w :: w_dest_addr_npi w
    :: w_dest_address w ++ x00
    :: w_esm_class w :: w_protocol_id w :: w_priority_flag w
    :: w_replace_if_present_flag w :: w_data_coding w
    :: w_sm_default_msg_id w
    :: ToUint8 (Some (byteLength (w_short_message w)))
    :: w_short_message w ++ tlvs_bytes (w_tlvs w).

Definition wire_fits (w : DeliverSmWire) : Prop :=
  no_nul (w_service_type w)
  /\ no_nul (w_source_address w)
  /\ no_nul (w_dest_address w)
  /\ byteLength (w_short_message w) < 256
  /\ tlvs_fit (w_tlvs w).

(** The short message as [parseDeliverSmBody] keeps it: absent when
    its length is zero. *)
Definition short_content (short : list byte) : option (list byte) :=
  match short with
  | [] => None
  | _ :: _ => Some short
  end.

(** The string [decodeMessage] returns. *)
Definition rendered (content : list byte) (dataCoding : Z) : jsstring :=
  match decodeMessage content dataCoding with
  | Ok s => s
  | _ => []
  end.

(** The body [parseDeliverSmBody] is to return for the parts [w]. *)
Definition deliver_sm_decoded (w : DeliverSmWire) : DeliverSmBody :=
  {| service_type := TextDecoder_decode Windows_1252 (w_service_type w);
     source_addr_ton := u8 (w_source_addr_ton w);
     source_addr_npi := u8 (w_source_addr_npi w);
     source_address := TextDecoder_decode Windows_1252 (w_source_address w);
     dest_addr_ton := u8 (w_dest_addr_ton w);
     dest_addr_npi := u8 (w_dest_addr_npi w);
     dest_address := TextDecoder_decode Windows_1252 (w_dest_address w);
     esm_class :=
       ESM_CLASS_MAP (u8 (w_esm_class w)) ++ str " (0x"
         ++ padStart 2 48 (toString 16 (u8 (w_esm_class w))) ++ str ")";
     protocol_id := u8 (w_protocol_id w);
     priority_flag := u8 (w_priority_flag w);
     replace_if_present_flag := u8 (w_replace_if_present_flag w);
     data_coding := u8 (w_data_coding w);
     sm_default_msg_id := u8 (w_sm_default_msg_id w);
     sm_length := byteLength (w_short_message w);
     short_message :=
       option_map bufferToHex (short_content (w_short_message w));
     tlvs :=
       match w_tlvs w with
       | [] => None
       | _ :: _ =>
           Some (map (fun tv => show_tlv (tlv_read (fst tv) (snd tv)))
                     (w_tlvs w))
       end;
     decoded_message :=
       match content_after (short_content (w_short_message w)) (w_tlvs w) with
       | Some content => rendered content (u8 (w_data_coding w))
       | None => str "(No message content)"
       end |}.

(** A deliver_sm with two addresses, a short message and two TLVs, the
    second a message_payload. *)
Definition sample_wire : DeliverSmWire :=
  {| w_service_type := bytes_of [0x43; 0x4d; 0x54];
     w_source_addr_ton := x01; w_source_addr_npi := x01;
     w_source_address := bytes_of [0x31; 0x32; 0x33];
     w_dest_addr_ton := x01; w_dest_addr_npi := x01;
     w_dest_address := bytes_of [0x34; 0x35];
     w_esm_class := x04; w_protocol_id := x00; w_priority_flag := x00;
     w_replace_if_present_flag := x00; w_data_coding := x03;
     w_sm_default_msg_id := x00;
     w_short_message := bytes_of [0x48; 0x69];
     w_tlvs := [ (0x0204, bytes_of [0; 7]);
                 (0x0424, bytes_of [0x48; 0x65; 0x6c; 0x6c; 0x6f]) ] |}.

(** Every byte is below 0x80. *)
Definition ascii_bytes (bytes : list byte) : Prop :=
  Forall (fun b => u8 b < 128) bytes.

(** The 94 bytes before the TCP payload in a capture of one frame:
    the global header in the given byte order, a record header whose
    captured length has the bytes [len3 len2 len1 len0] (most
    significant first), and Ethernet II, IPv4 and TCP headers without
    options, with the given address and port bytes. *)
Definition single_frame_prefix (littleEndian : bool)
    (len3 len2 len1 len0 : byte)
    (s0 s1 s2 s3 d0 d1 d2 d3 : byte) (sp1 sp0 dp1 dp0 : byte) : list byte :=
  [ if littleEndian then xd4 else xa1; if littleEndian then xc3 else xb2;
    if littleEndian then xb2 else xc3; if littleEndian then xa1 else xd4;
    x00; x02; x00; x04;  x00; x00; x00; x00;  x00; x00; x00; x00;
    x00; x00; xff; xff;  x00; x00; x00; x01;
    (* record header *)
    x00; x00; x00; x00;  x00; x00; x00; x00;
    if littleEndian then len0 else len3; if littleEndian then len1 else len2;
    if littleEndian then len2 else len1; if littleEndian then len3 else len0;
    if littleEndian then len0 else len3; if littleEndian then len1 else len2;
    if littleEndian then len2 else len1; if littleEndian then len3 else len0;
    (* Ethernet II *)
    x02; x00; x00; x00; x00; x02;  x02; x00; x00; x00; x00; x01;  x08; x00;
    (* IPv4 *)
    x45; x00;  x00; x00;  x00; x00;  x00; x00;  x40; x06;  x00; x00;
    s0; s1; s2; s3;  d0; d1; d2; d3;
    (* TCP *)
    sp1; sp0;  dp1; dp0;  x00; x00; x00; x00;  x00; x00; x00; x00;
    x50; x18;  xff; xff;  x00; x00;  x00; x00 ].

(** The reader's offset lies inside its buffer, the end included. *)
Definition in_bounds (r : BufferReader) : Prop :=
  0 <= offset r <= byteLength (view r).

(** A method that, started inside the buffer, throws nothing but the
    DataView RangeError and leaves the reader inside the buffer. *)
Definition safe_method {A} (m : method A) : Prop :=
  forall r,
    in_bounds r ->
    throws_only dataview_range_error (m r)
    /\ forall a r', m r = Ok (a, r') -> in_bounds r'.

(** The fields of a deliver_sm body up to the default message id,
    followed by [rest]. *)
Definition deliver_sm_fixed (w : DeliverSmWire) (rest : list byte)
  : list byte :=
  w_service_type w ++ x00
    :: w_source_addr_ton w :: w_source_addr_npi w
    :: w_source_address w ++ x00
    :: w_dest_addr_ton w :: w_dest_addr_npi w
    :: w_dest_address w ++ x00
    :: w_esm_class w :: w_protocol_id w :: w_priority_flag w
    :: w_replace_if_present_flag w :: w_data_coding w
    :: w_sm_default_msg_id w :: rest.

(** The body holds every field that comes before the short message,
    decoded from the parts [w] and the sm_length byte [declared]:
    strings as windows-1252, bytes as numbers, esm_class rendered by
    [ESM_CLASS_MAP] with its hex value. *)
Definition fixed_fields_decoded (w : DeliverSmWire) (declared : byte)
    (b : DeliverSmBody) : Prop :=
  service_type b = TextDecoder_decode Windows_1252 (w_service_type w)
  /\ source_addr_ton b = u8 (w_source_addr_ton w)
  /\ source_addr_npi b = u8 (w_source_addr_npi w)
  /\ source_address b = TextDecoder_decode Windows_1252 (w_source_address w)
  /\ dest_addr_ton b = u8 (w_dest_addr_ton w)
  /\ dest_addr_npi b = u8 (w_dest_addr_npi w)
  /\ dest_address b = TextDecoder_decode Windows_1252 (w_dest_address w)
  /\ esm_class b
     = ESM_CLASS_MAP (u8 (w_esm_class w)) ++ str " (0x"
         ++ padStart 2 48 (toString 16 (u8 (w_esm_class w))) ++ str ")"
  /\ protocol_id b = u8 (w_protocol_id w)
  /\ priority_flag b = u8 (w_priority_flag w)
  /\ replace_if_present_flag b = u8 (w_replace_if_present_flag w)
  /\ data_coding b = u8 (w_data_coding w)
  /\ sm_default_msg_id b = u8 (w_sm_default_msg_id w)
  /\ sm_length b = u8 declared.

(** * Properties *)

(** ** Buffers and views *)

Lemma byteLength_nonneg (b : ArrayBuffer) : 0 <= byteLength b.
Proof. unfold byteLength. lia. Qed.

Lemma byteLength_app (a b : ArrayBuffer) :
  byteLength (a ++ b) = byteLength a + byteLength b.
Proof. unfold byteLength. rewrite length_app. lia. Qed.

Lemma u8_range (b : byte) : 0 <= u8 b < 256.
Proof.
  unfold u8. pose proof (Byte.to_N_bounded b) as H.
  split; [apply N2Z.is_nonneg | lia].
Qed.

Lemma byteAt_range (v : ArrayBuffer) (i : Z) : 0 <= byteAt v i < 256.
Proof. apply u8_range. Qed.

Lemma byteAt_app_l (a b : ArrayBuffer) (i : Z) :
  0 <= i < byteLength a -> byteAt (a ++ b) i = byteAt a i.
Proof.
  unfold byteAt, byteLength. intros H.
  rewrite app_nth1 by lia. reflexivity.
Qed.

Lemma byteAt_app_r (a b : ArrayBuffer) (i : Z) :
  0 <= i -> byteAt (a ++ b) (byteLength a + i) = byteAt b i.
Proof.
  unfold byteAt, byteLength. intros H.
  rewrite app_nth2 by lia. f_equal. f_equal. lia.
Qed.

Lemma in_view_true (v : ArrayBuffer) (off size : Z) :
  in_view v off size = true <-> 0 <= off /\ off + size <= byteLength v.
Proof. unfold in_view. rewrite andb_true_iff, !Z.leb_le. tauto. Qed.

Lemma in_view_false (v : ArrayBuffer) (off size : Z) :
  in_view v off size = false <-> off < 0 \/ byteLength v < off + size.
Proof. unfold in_view. rewrite andb_false_iff, !Z.leb_gt. tauto. Qed.

Lemma getUint32_inside (v : ArrayBuffer) (off : Z) (le : bool) :
  0 <= off -> off + 4 <= byteLength v ->
  exists n, getUint32 v off le = Ok n /\ 0 <= n < 4294967296.
Proof.
  intros H0 H1. unfold getUint32.
  replace (in_view v off 4) with true
    by (symmetry; apply in_view_true; lia).
  pose proof (byteAt_range v off). pose proof (byteAt_range v (off + 1)).
  pose proof (byteAt_range v (off + 2)). pose proof (byteAt_range v (off + 3)).
  eexists. split; [reflexivity | destruct le; lia].
Qed.

Lemma getUint32_Ok_inv (v : ArrayBuffer) (off : Z) (le : bool) (n : Z) :
  getUint32 v off le = Ok n ->
  0 <= off /\ off + 4 <= byteLength v /\ 0 <= n < 4294967296.
Proof.
  intros H. unfold getUint32 in H.
  destruct (in_view v off 4) eqn:E; [|discriminate].
  apply in_view_true in E. destruct E as [E0 E1].
  destruct (getUint32_inside v off le E0 E1) as (m & Hm & Hr).
  unfold getUint32 in Hm.
  replace (in_view v off 4) with true in Hm
    by (symmetry; apply in_view_true; lia).
  rewrite Hm in H. injection H as <-. lia.
Qed.

Lemma getUint16_inside (v : ArrayBuffer) (off : Z) (le : bool) :
  0 <= off -> off + 2 <= byteLength v ->
  exists n, getUint16 v off le = Ok n /\ 0 <= n < 65536.
Proof.
  intros H0 H1. unfold getUint16.
  replace (in_view v off 2) with true
    by (symmetry; apply in_view_true; lia).
  pose proof (byteAt_range v off). pose proof (byteAt_range v (off + 1)).
  eexists. split; [reflexivity | destruct le; lia].
Qed.

Lemma getUint32_app_l (a b : ArrayBuffer) (off : Z) (le : bool) :
  0 <= off -> off + 4 <= byteLength a ->
  getUint32 (a ++ b) off le = getUint32 a off le.
Proof.
  intros H0 H1. unfold getUint32.
  pose proof (byteLength_nonneg b) as Hb.
  replace (in_view (a ++ b) off 4) with true
    by (symmetry; apply in_view_true; rewrite byteLength_app; lia).
  replace (in_view a off 4) with true
    by (symmetry; apply in_view_true; lia).
  rewrite !byteAt_app_l by lia. reflexivity.
Qed.

Lemma getUint32_app_r (a b : ArrayBuffer) (off : Z) (le : bool) :
  0 <= off ->
  getUint32 (a ++ b) (byteLength a + off) le = getUint32 b off le.
Proof.
  intros H0. unfold getUint32.
  pose proof (byteLength_nonneg a) as Ha.
  assert (in_view (a ++ b) (byteLength a + off) 4 = in_view b off 4) as ->.
  { unfold in_view. rewrite byteLength_app.
    destruct (Z.leb_spec 0 (byteLength a + off)),
      (Z.leb_spec (byteLength a + off + 4) (byteLength a + byteLength b)),
      (Z.leb_spec 0 off), (Z.leb_spec (off + 4) (byteLength b));
      simpl; try reflexivity; lia. }
  destruct (in_view b off 4); [|reflexivity].
  replace (byteLength a + off + 1) with (byteLength a + (off + 1)) by lia.
  replace (byteLength a + off + 2) with (byteLength a + (off + 2)) by lia.
  replace (byteLength a + off + 3) with (byteLength a + (off + 3)) by lia.
  rewrite !byteAt_app_r by lia. reflexivity.
Qed.

Lemma slice_window (a b c : ArrayBuffer) :
  slice (a ++ b ++ c) (byteLength a) (byteLength a + byteLength b) = b.
Proof.
  unfold slice, clamp_index.
  pose proof (byteLength_nonneg a) as Ha.
  pose proof (byteLength_nonneg b) as Hb.
  pose proof (byteLength_nonneg c) as Hc.
  rewrite !byteLength_app.
  destruct (byteLength a <? 0) eqn:E1; [apply Z.ltb_lt in E1; lia|].
  destruct (byteLength a + byteLength b <? 0) eqn:E2;
    [apply Z.ltb_lt in E2; lia|].
  rewrite !Z.min_l by lia.
  replace (Z.max (byteLength a + byteLength b - byteLength a) 0)
    with (byteLength b) by lia.
  unfold byteLength. rewrite !Nat2Z.id.
  rewrite skipn_app, skipn_all, Nat.sub_diag. simpl.
  rewrite firstn_app, firstn_all, Nat.sub_diag. simpl.
  apply app_nil_r.
Qed.

(** ** The capture reader on the sample captures *)

(** C1 (the code drops the frame).  On the capture holding one
    Ethernet/IPv4/TCP frame from 10.0.0.1:2775 to 10.0.0.2:9999 whose
    payload is the 16-byte enquire_link PDU, [extractAllTcpPayloads]
    forwards nothing, because it keeps a payload only when its length
    is greater than 16; so the pipeline yields no PDU at all.  The
    scanner and decoder, given that payload, do yield one PDU named
    enquire_link with no body, and the same frame with one more payload
    byte is forwarded. *)
Theorem enquire_link_frame_is_dropped :
  extractAllTcpPayloads enquire_link_capture = Ok []
  /\ decode_capture enquire_link_capture = Ok []
  /\ (exists pdu note,
        parseMultipleSmppPdus enquire_link_pdu = Ok [pdu]
        /\ command_name (header pdu) = str "enquire_link"
        /\ body pdu = Unsupported note (str "No body"))
  /\ (exists packet,
        extractAllTcpPayloads (capture_of (enquire_link_pdu ++ [x00]))
          = Ok [packet]
        /\ PacketSummary.sourceIp packet = str "10.0.0.1"
        /\ PacketSummary.sourcePort packet = 2775
        /\ PacketSummary.destIp packet = str "10.0.0.2"
        /\ PacketSummary.destPort packet = 9999
        /\ PacketSummary.length packet = 17).
Proof.
  split; [vm_compute; reflexivity|].
  split; [vm_compute; reflexivity|].
  split.
  - do 2 eexists. split; [vm_compute; reflexivity|].
    split; vm_compute; reflexivity.
  - eexists. split; [vm_compute; reflexivity|].
    repeat split; vm_compute; reflexivity.
Qed.

(** C3 (the code raises).  On a capture whose only record holds 15
    bytes - a whole Ethernet header with EtherType 0x0800 and one byte
    of IPv4 header - [extractAllTcpPayloads] reads the protocol byte at
    offset 9 of the IPv4 header, which lies past the record and past
    the buffer: the read throws a RangeError and the whole call fails,
    instead of skipping the record. *)
Theorem short_ipv4_record_raises :
  byteLength short_ipv4_capture = 55
  /\ getUint32 short_ipv4_capture (24 + 8) false = Ok 15
  /\ extractAllTcpPayloads short_ipv4_capture = Throw dataview_range_error.
Proof. repeat split; vm_compute; reflexivity. Qed.

(** ** Message rendering *)

(** C5.  [decodeMessage] returns a string for every buffer and every
    data coding; the string is the scheme name in parentheses followed
    by the content.  For coding 0 the content is the labelled hex dump
    of the bytes, and so it is for every coding other than 0, 3, 4 and
    8.  The UTF-8 bytes of "Hello" under coding 4 render as
    "(UTF-8) Hello"; under coding 0xFF they render as a hex dump. *)
Theorem decodeMessage_renders :
  (forall messageBuffer dataCoding,
      exists content,
        decodeMessage messageBuffer dataCoding
          = Ok (str "(" ++ scheme dataCoding ++ str ") " ++ content)
        /\ (dataCoding = 0 ->
            content = str "[GSM 7-bit encoded data: "
                        ++ bufferToHex messageBuffer ++ str "]")
        /\ (dataCoding <> 0 -> dataCoding <> 3 -> dataCoding <> 4 ->
            dataCoding <> 8 ->
            content = str "[Binary Data: "
                        ++ bufferToHex messageBuffer ++ str "]"))
  /\ decodeMessage (bytes_of [72; 101; 108; 108; 111]) 4
       = Ok (str "(UTF-8) Hello")
  /\ decodeMessage (bytes_of [72; 101; 108; 108; 111]) 0xFF
       = Ok (str "(Unknown (0xff)) [Binary Data: 48 65 6c 6c 6f]")
  /\ decodeMessage (bytes_of [72; 101; 108; 108; 111]) 0
       = Ok (str "(Default (GSM 7-bit)) [GSM 7-bit encoded data: 48 65 6c 6c 6f]").
Proof.
  split; [| repeat split; vm_compute; reflexivity].
  intros messageBuffer dataCoding. unfold decodeMessage.
  destruct (dataCoding =? 8) eqn:E8.
  { apply Z.eqb_eq in E8. eexists. split; [reflexivity|]. split; lia. }
  destruct (dataCoding =? 3) eqn:E3.
  { apply Z.eqb_eq in E3. eexists. split; [reflexivity|]. split; lia. }
  destruct (dataCoding =? 4) eqn:E4.
  { apply Z.eqb_eq in E4. eexists. split; [reflexivity|]. split; lia. }
  destruct (dataCoding =? 0) eqn:E0.
  { eexists. split; [reflexivity|]. apply Z.eqb_eq in E0.
    split; [reflexivity | lia]. }
  apply Z.eqb_neq in E0.
  eexists. split; [reflexivity|]. split; [lia | reflexivity].
Qed.

Lemma decodeMessage_renders_witness :
  exists content,
    decodeMessage (bytes_of [1; 2]) 0
      = Ok (str "(" ++ scheme 0 ++ str ") " ++ content)
    /\ content = str "[GSM 7-bit encoded data: 01 02]".
Proof.
  destruct (proj1 decodeMessage_renders (bytes_of [1; 2]) 0)
    as (content & H & H0 & _).
  exists content. split; [exact H | exact (H0 eq_refl)].
Defined.

(** [ESM_CLASS_MAP] on a byte, through the two tables: the name of
    bits 2-5 and the name of bits 0-1; bits 6 and 7 play no part. *)
Lemma ESM_CLASS_MAP_tables :
  forall b : byte,
    let mode := u8 b mod 4 in
    let type := (u8 b / 4) mod 16 in
    ESM_CLASS_MAP (u8 b)
    = name_in MESSAGE_TYPE_TABLE (4 * type) (str "Unknown Type") ++ str ", "
        ++ name_in MESSAGING_MODE_TABLE mode (str "Unknown Mode").
Proof. intros b. destruct b; vm_compute; reflexivity. Qed.

(** ** The deliver_sm decoder on the sample PDUs *)

(** C6 (the code renders a byte that is not in the TLV).  A deliver_sm
    PDU with short message "A" and a message_payload TLV whose value is
    empty: the TLV is parsed and shown with length 0 and an empty
    value, yet [decoded_message] is rendered from the single byte 00 -
    the empty hex dump splits into one empty piece, which [parseInt]
    turns into NaN and the byte array into 0 - and not from the TLV's
    (empty) value, whose rendering shows no byte.  With a TLV value of
    two bytes the rendering is that of the value. *)
Theorem empty_message_payload_renders_a_zero_byte :
  (exists h b,
      parseSmppPdu (deliver_sm_with_payload []) = Ok {| header := h; body := DeliverSm b |}
      /\ short_message b = Some (str "41")
      /\ tlvs b = Some [ {| ShownTlv.tag := str "0x0424";
                            ShownTlv.length := 0;
                            ShownTlv.value := [] |} ]
      /\ decoded_message b = str "(8-bit binary) [Binary Data: 00]")
  /\ decodeMessage [] 2 = Ok (str "(8-bit binary) [Binary Data: ]")
  /\ bytes_of_hex (bufferToHex []) = [x00]
  /\ (exists h b,
        parseSmppPdu (deliver_sm_with_payload [0x42; 0x43])
          = Ok {| header := h; body := DeliverSm b |}
        /\ short_message b = Some (str "41")
        /\ decoded_message b = str "(8-bit binary) [Binary Data: 42 43]").
Proof.
  split.
  { do 2 eexists. split; [vm_compute; reflexivity|].
    repeat split; vm_compute; reflexivity. }
  split; [vm_compute; reflexivity|].
  split; [vm_compute; reflexivity|].
  do 2 eexists. split; [vm_compute; reflexivity|].
  repeat split; vm_compute; reflexivity.
Qed.

(** ** TLV scanning *)

(** C7.  When the reader stands on a TLV header whose declared length
    exceeds the bytes left after the header, [readTlv] returns null
    without moving the reader, and the TLV loop of [parseDeliverSmBody]
    ends there without an error: it returns the TLVs collected so far
    and the message content unchanged.  On the sample PDU - a good TLV,
    then a TLV declaring 9999 bytes with 10 bytes left - the decoder
    returns the body with the good TLV alone. *)
Theorem malformed_tlv_stops_the_scan :
  (forall (r : BufferReader) (declared : Z),
      0 <= offset r -> 4 <= bytesRemaining r ->
      getUint16 (view r) (offset r + 2) false = Ok declared ->
      declared > bytesRemaining r - 4 ->
      readTlv r = Ok (None, r)
      /\ forall fuel tlvs message_content,
          tlv_loop (S fuel) tlvs message_content r
          = Ok ((tlvs, message_content), r))
  /\ (exists h b,
        parseSmppPdu deliver_sm_malformed_tlv
          = Ok {| header := h; body := DeliverSm b |}
        /\ tlvs b = Some [ {| ShownTlv.tag := str "0x0204";
                              ShownTlv.length := 2;
                              ShownTlv.value := str "00 07" |} ]
        /\ decoded_message b = str "(UTF-8) Hi").
Proof.
  split.
  - intros r declared Hoff Hrem Hlen Hbig.
    assert (readTlv r = Ok (None, r)) as Hread.
    { unfold readTlv.
      destruct (Z.ltb_spec (bytesRemaining r) 4) as [?|_]; [lia|].
      unfold bytesRemaining in *.
      destruct (getUint16_inside (view r) (offset r) false) as (tag & Ht & _);
        [lia | lia |].
      rewrite Ht, Hlen. cbn [bind].
      destruct (Z.gtb_spec declared (byteLength (view r) - offset r - 4));
        [reflexivity | lia]. }
    split; [exact Hread|].
    intros fuel tlvs message_content. cbn [tlv_loop].
    destruct (Z.gtb_spec (bytesRemaining r) 0) as [_|?]; [|lia].
    rewrite Hread. reflexivity.
  - do 2 eexists. split; [vm_compute; reflexivity|].
    split; vm_compute; reflexivity.
Qed.

Lemma malformed_tlv_stops_the_scan_witness :
  let r := {| view := deliver_sm_malformed_tlv;
              textDecoder := Windows_1252; offset := 38 |} in
  bytesRemaining r = 10
  /\ getUint16 (view r) (offset r + 2) false = Ok 9999
  /\ readTlv r = Ok (None, r)
  /\ forall fuel tlvs message_content,
      tlv_loop (S fuel) tlvs message_content r
      = Ok ((tlvs, message_content), r).
Proof.
  intros r.
  split; [reflexivity|]. split; [reflexivity|].
  apply (proj1 malformed_tlv_stops_the_scan r 9999).
  - vm_compute. discriminate.
  - vm_compute. discriminate.
  - reflexivity.
  - reflexivity.
Defined.

(** ** The single-PDU decoder *)

Lemma set_offset_same (r : BufferReader) : set_offset r (offset r) = r.
Proof. destruct r; reflexivity. Qed.

Lemma readUint32_Ok (r : BufferReader) (n : Z) :
  getUint32 (view r) (offset r) false = Ok n ->
  readUint32 r = Ok (n, set_offset r (offset r + 4)).
Proof. intros H. unfold readUint32. rewrite H. reflexivity. Qed.

Lemma readUint8_at_end (r : BufferReader) :
  byteLength (view r) <= offset r ->
  readUint8 r = Throw dataview_range_error.
Proof.
  intros H. unfold readUint8, getUint8.
  replace (in_view (view r) (offset r) 1) with false
    by (symmetry; apply in_view_false; lia).
  reflexivity.
Qed.

Lemma cstring_end_at_end (fuel : nat) (v : ArrayBuffer) (off : Z) :
  byteLength v <= off -> cstring_end (S fuel) v off = Ok off.
Proof.
  intros H. cbn [cstring_end].
  destruct (Z.ltb_spec off (byteLength v)); [lia | reflexivity].
Qed.

Lemma TextDecoder_decode_nil (enc : encoding) : TextDecoder_decode enc [] = [].
Proof. destruct enc; reflexivity. Qed.

Lemma readCString_at_end (r : BufferReader) :
  offset r = byteLength (view r) -> readCString r = Ok ([], r).
Proof.
  intros H. unfold readCString.
  rewrite cstring_end_at_end by lia. cbn [bind].
  unfold Uint8Array_on.
  pose proof (byteLength_nonneg (view r)) as Hn.
  rewrite Z.sub_diag.
  destruct (Z.leb_spec 0 (offset r)); [|lia].
  destruct (Z.leb_spec (offset r + 0) (byteLength (view r))); [|lia].
  cbn [andb Z.leb Z.compare Z.to_nat firstn bind].
  rewrite TextDecoder_decode_nil.
  destruct (Z.ltb_spec (offset r) (byteLength (view r))); [lia|].
  rewrite set_offset_same. reflexivity.
Qed.

Lemma parseDeliverSmBody_at_end (smppLength : Z) (r : BufferReader) :
  offset r = byteLength (view r) ->
  parseDeliverSmBody smppLength r = Throw dataview_range_error.
Proof.
  intros H. unfold parseDeliverSmBody.
  unfold mbind at 1. rewrite readCString_at_end by exact H.
  unfold mbind at 1. rewrite readUint8_at_end by lia.
  reflexivity.
Qed.

(** C10.  [parseSmppPdu] throws on every 16-byte buffer whose command
    id is 2 (deliver_sm): the header is read, the body decoder finds an
    empty service type at the end of the buffer, and its next read, of
    one byte at offset 16, is out of range.  The scanner catches the
    error and returns no PDU for such a payload. *)
Theorem header_only_deliver_sm_throws :
  forall pduBuffer : ArrayBuffer,
    List.length pduBuffer = 16%nat ->
    getUint32 pduBuffer 4 false = Ok 2 ->
    parseSmppPdu pduBuffer = Throw dataview_range_error
    /\ parseMultipleSmppPdus pduBuffer = Ok [].
Proof.
  intros p Hlen Hid.
  assert (byteLength p = 16) as HL by (unfold byteLength; lia).
  destruct (getUint32_inside p 0 false) as (n0 & H0 & R0); [lia | lia |].
  destruct (getUint32_inside p 8 false) as (n8 & H8 & _); [lia | lia |].
  destruct (getUint32_inside p 12 false) as (n12 & H12 & _); [lia | lia |].
  assert (parseSmppPdu p = Throw dataview_range_error) as Hthrow.
  { unfold parseSmppPdu, BufferReader_new.
    change (TextDecoder_new (str "ascii")) with (Ok Windows_1252).
    cbn [bind].
    rewrite (readUint32_Ok _ n0) by exact H0. cbn [bind offset set_offset view].
    rewrite (readUint32_Ok _ 2) by exact Hid. cbn [bind offset set_offset view].
    rewrite (readUint32_Ok _ n8) by exact H8. cbn [bind offset set_offset view].
    rewrite (readUint32_Ok _ n12) by exact H12. cbn [bind offset set_offset view].
    change (str_eqb (or_else (lookup COMMAND_ID_MAP 2) (str "Unknown Command"))
              (str "deliver_sm")) with true.
    cbv iota.
    rewrite parseDeliverSmBody_at_end
      by (cbn [offset view set_offset]; rewrite HL; reflexivity).
    reflexivity. }
  split; [exact Hthrow|].
  unfold parseMultipleSmppPdus. rewrite Hlen.
  cbn [scan_loop]. rewrite HL.
  change (0 + 16 <=? 16) with true. cbv iota.
  unfold scan_body. change (0 + 4) with 4. rewrite Hid. cbn [bind].
  change (includes knownCommandIds 2) with true. cbv iota.
  rewrite H0. cbn [bind]. rewrite HL.
  change (1 + 16 <=? 16) with false.
  destruct (Z.geb_spec n0 16) as [Hge|Hlt]; cbn [andb].
  - destruct (Z.leb_spec (0 + n0) 16) as [Hle|Hgt].
    + assert (n0 = 16) as -> by lia.
      assert (slice p 0 (0 + 16) = p) as ->.
      { pose proof (slice_window [] p []) as Hs.
        rewrite app_nil_r in Hs. cbn [app] in Hs.
        rewrite HL in Hs. exact Hs. }
      rewrite Hthrow. reflexivity.
    + reflexivity.
  - reflexivity.
Qed.

Lemma header_only_deliver_sm_throws_witness :
  parseSmppPdu deliver_sm_header_only = Throw dataview_range_error
  /\ parseMultipleSmppPdus deliver_sm_header_only = Ok [].
Proof.
  apply header_only_deliver_sm_throws; reflexivity.
Defined.

(** ** The record loop of the capture reader *)

Lemma record_body_truncated (pcapBuffer : ArrayBuffer) (littleEndian : bool)
    (offset packetIndex : Z) (packets : list PacketSummary.t) :
  truncated_at pcapBuffer littleEndian offset = true ->
  record_body pcapBuffer littleEndian offset packetIndex packets = Ok Break.
Proof.
  unfold truncated_at, record_body. intros H.
  destruct (byteLength pcapBuffer <? offset + 16); [reflexivity|].
  cbn [orb] in H.
  destruct (getUint32 pcapBuffer (offset + 8) littleEndian) as [n| |];
    try discriminate.
  cbn [bind]. rewrite H. reflexivity.
Qed.

Lemma record_loop_truncated (fuel : nat) (pcapBuffer : ArrayBuffer)
    (littleEndian : bool) (offset packetIndex : Z)
    (packets : list PacketSummary.t) :
  truncated_at pcapBuffer littleEndian offset = true ->
  record_loop (S fuel) pcapBuffer littleEndian offset packetIndex packets
  = Ok packets.
Proof.
  intros H. cbn [record_loop].
  destruct (offset <? byteLength pcapBuffer); [|reflexivity].
  rewrite record_body_truncated by exact H. reflexivity.
Qed.

(** C4.  At every position [offset >= 0] of every buffer, under either
    byte order: when 16 bytes are left the read of the captured length
    is inside the buffer and succeeds, whatever the field holds; and
    when fewer than 16 bytes are left, or the declared length runs past
    the end of the buffer, the pass through the loop body is a [break]
    and the loop returns the packets collected so far, without an
    error.  So a capture with a valid global header whose first record
    is cut short decodes to no packet; the sample capture declaring
    0xFFFFFFFF captured bytes is one. *)
Theorem truncated_record_stops_iteration :
  (forall pcapBuffer littleEndian offset,
      0 <= offset ->
      (offset + 16 <= byteLength pcapBuffer ->
       exists incl_len,
         getUint32 pcapBuffer (offset + 8) littleEndian = Ok incl_len
         /\ 0 <= incl_len <= 0xFFFFFFFF)
      /\ (truncated_at pcapBuffer littleEndian offset = true ->
          forall packetIndex packets,
            record_body pcapBuffer littleEndian offset packetIndex packets
            = Ok Break
            /\ forall fuel,
                record_loop (S fuel) pcapBuffer littleEndian offset
                  packetIndex packets
                = Ok packets))
  /\ (forall (pcapBuffer : ArrayBuffer) (littleEndian : bool),
        24 <= byteLength pcapBuffer ->
        getUint32 pcapBuffer 0 false
          = Ok (if littleEndian then 0xd4c3b2a1 else 0xa1b2c3d4) ->
        truncated_at pcapBuffer littleEndian 24 = true ->
        extractAllTcpPayloads pcapBuffer = Ok [])
  /\ getUint32 corrupt_length_capture (24 + 8) false = Ok 0xFFFFFFFF
  /\ extractAllTcpPayloads corrupt_length_capture = Ok [].
Proof.
  split; [| split; [| split; vm_compute; reflexivity]].
  - intros pcapBuffer littleEndian offset Hoff. split.
    + intros Hfit.
      destruct (getUint32_inside pcapBuffer (offset + 8) littleEndian)
        as (n & Hn & Hr); [lia | lia |].
      exists n. split; [exact Hn | lia].
    + intros Htrunc packetIndex packets. split.
      * apply record_body_truncated, Htrunc.
      * intros fuel. apply record_loop_truncated, Htrunc.
  - intros pcapBuffer littleEndian Hlen Hmagic Htrunc.
    unfold extractAllTcpPayloads.
    destruct (Z.ltb_spec (byteLength pcapBuffer) 24); [lia|].
    rewrite Hmagic. cbn [bind].
    destruct littleEndian; cbn [bind Z.eqb Pos.eqb];
      apply record_loop_truncated, Htrunc.
Qed.

Lemma truncated_record_stops_iteration_witness :
  (exists incl_len,
      getUint32 corrupt_length_capture (24 + 8) false = Ok incl_len
      /\ 0 <= incl_len <= 0xFFFFFFFF)
  /\ record_body corrupt_length_capture false 24 0 [] = Ok Break
  /\ record_loop 1 corrupt_length_capture false 24 0 [] = Ok []
  /\ extractAllTcpPayloads corrupt_length_capture = Ok [].
Proof.
  destruct truncated_record_stops_iteration as (Hpos & Hwhole & _).
  destruct (Hpos corrupt_length_capture false 24) as (Hread & Hstop);
    [vm_compute; discriminate|].
  split; [apply Hread; vm_compute; discriminate|].
  destruct (Hstop eq_refl 0 []) as (Hbody & Hloop).
  split; [exact Hbody|]. split; [exact (Hloop 0%nat)|].
  apply (Hwhole corrupt_length_capture false).
  - vm_compute. discriminate.
  - reflexivity.
  - reflexivity.
Defined.

(** ** Termination: no loop of the model uses up its budget *)

Lemma Ok_terminates {A} (a : A) : terminates (Ok a).
Proof. discriminate. Qed.

Lemma Throw_terminates {A} (e : exn) : terminates (@Throw A e).
Proof. discriminate. Qed.

Lemma bind_terminates {A B} (m : outcome A) (k : A -> outcome B) :
  terminates m -> (forall a, m = Ok a -> terminates (k a)) ->
  terminates (bind m k).
Proof.
  unfold terminates. destruct m as [a| |]; cbn [bind]; intros Hm Hk.
  - apply Hk. reflexivity.
  - discriminate.
  - exfalso. apply Hm. reflexivity.
Qed.

Lemma try_catch_terminates {A} (m : outcome A) (h : exn -> outcome A) :
  terminates m -> (forall e, terminates (h e)) -> terminates (try_catch m h).
Proof.
  unfold terminates. destruct m as [a| |]; cbn [try_catch]; intros Hm Hh.
  - discriminate.
  - apply Hh.
  - exact Hm.
Qed.

Lemma getUint8_terminates v off : terminates (getUint8 v off).
Proof. unfold getUint8. destruct (in_view v off 1); discriminate. Qed.

Lemma getUint16_terminates v off le : terminates (getUint16 v off le).
Proof. unfold getUint16. destruct (in_view v off 2); discriminate. Qed.

Lemma getUint32_terminates v off le : terminates (getUint32 v off le).
Proof. unfold getUint32. destruct (in_view v off 4); discriminate. Qed.

Lemma Uint8Array_on_terminates buf off len :
  terminates (Uint8Array_on buf off len).
Proof.
  unfold Uint8Array_on.
  destruct ((0 <=? off) && (0 <=? len) && (off + len <=? byteLength buf));
    discriminate.
Qed.

Lemma TextDecoder_new_terminates label : terminates (TextDecoder_new label).
Proof.
  unfold TextDecoder_new.
  repeat match goal with |- context [if ?c then _ else _] => destruct c end;
    discriminate.
Qed.

Create HintDb terminates.
#[local] Hint Resolve Ok_terminates Throw_terminates getUint8_terminates
  getUint16_terminates getUint32_terminates Uint8Array_on_terminates
  TextDecoder_new_terminates : terminates.

Lemma getUint8_Ok_inv v off n :
  getUint8 v off = Ok n -> 0 <= off /\ off + 1 <= byteLength v.
Proof.
  unfold getUint8. destruct (in_view v off 1) eqn:E; [|discriminate].
  intros _. apply in_view_true in E. exact E.
Qed.

Lemma getUint16_Ok_inv v off le n :
  getUint16 v off le = Ok n ->
  0 <= off /\ off + 2 <= byteLength v /\ 0 <= n < 65536.
Proof.
  intros H. pose proof H as H'. unfold getUint16 in H'.
  destruct (in_view v off 2) eqn:E; [|discriminate].
  apply in_view_true in E. destruct E as [E0 E1].
  destruct (getUint16_inside v off le E0 E1) as (m & Hm & Hr).
  rewrite Hm in H. injection H as <-. lia.
Qed.

Lemma cstring_end_terminates (fuel : nat) (v : ArrayBuffer) :
  forall off,
    (1 <= fuel)%nat -> off < 0 \/ byteLength v - off < Z.of_nat fuel ->
    terminates (cstring_end fuel v off).
Proof.
  induction fuel as [|fuel IH]; intros off Hpos Hroom; [lia|].
  cbn [cstring_end].
  destruct (Z.ltb_spec off (byteLength v)) as [Hin|Hout];
    [|apply Ok_terminates].
  apply bind_terminates; [apply getUint8_terminates|].
  intros b Hb. apply getUint8_Ok_inv in Hb.
  destruct (negb (b =? 0)); [|apply Ok_terminates].
  apply IH; lia.
Qed.

Lemma readCString_terminates r : terminates (readCString r).
Proof.
  unfold readCString.
  apply bind_terminates.
  - apply cstring_end_terminates; [lia|].
    unfold byteLength. lia.
  - intros stop _. apply bind_terminates; auto with terminates.
Qed.

Lemma readUint8_terminates r : terminates (readUint8 r).
Proof. unfold readUint8. apply bind_terminates; auto with terminates. Qed.

Lemma readUint32_terminates r : terminates (readUint32 r).
Proof. unfold readUint32. apply bind_terminates; auto with terminates. Qed.

Lemma readBytes_terminates n r : terminates (readBytes n r).
Proof. unfold readBytes. apply bind_terminates; auto with terminates. Qed.

Lemma readBytes_Ok_inv n r value r' :
  readBytes n r = Ok (value, r') ->
  0 <= n /\ view r' = view r /\ offset r' = offset r + n.
Proof.
  unfold readBytes, Uint8Array_on.
  destruct (Z.leb_spec 0 (offset r)); cbn [andb bind]; [|discriminate].
  destruct (Z.leb_spec 0 n); cbn [andb bind]; [|discriminate].
  destruct (offset r + n <=? byteLength (view r)); cbn [bind];
    [|discriminate].
  intros Heq. injection Heq as _ <-. cbn. auto.
Qed.

(** What [readTlv] does to the reader when it returns a TLV. *)
Lemma readTlv_Some_inv r t r' :
  readTlv r = Ok (Some t, r') ->
  0 <= offset r /\ view r' = view r
  /\ offset r' = offset r + 4 + SmppTlv.length t
  /\ 0 <= SmppTlv.length t <= bytesRemaining r - 4.
Proof.
  unfold readTlv.
  destruct (bytesRemaining r <? 4); [discriminate|].
  destruct (getUint16 (view r) (offset r) false) as [tag| |] eqn:Ht;
    cbn [bind]; try discriminate.
  destruct (getUint16 (view r) (offset r + 2) false) as [len| |] eqn:Hl;
    cbn [bind]; try discriminate.
  destruct (Z.gtb_spec len (bytesRemaining r - 4)); [discriminate|].
  destruct (readBytes len (set_offset r (offset r + 4)))
    as [[value r1]| |] eqn:Hb; cbn [bind]; try discriminate.
  intros Heq. injection Heq as <- <-.
  apply readBytes_Ok_inv in Hb. cbn [view offset set_offset] in Hb.
  apply getUint16_Ok_inv in Ht. apply getUint16_Ok_inv in Hl.
  cbn [SmppTlv.length]. intuition lia.
Qed.

Lemma readTlv_terminates r : terminates (readTlv r).
Proof.
  unfold readTlv.
  destruct (bytesRemaining r <? 4); [apply Ok_terminates|].
  apply bind_terminates; [auto with terminates|]. intros tag _.
  apply bind_terminates; [auto with terminates|]. intros len _.
  destruct (len >? bytesRemaining r - 4); [apply Ok_terminates|].
  apply bind_terminates; [apply readBytes_terminates|].
  intros [value r'] _. apply Ok_terminates.
Qed.

Lemma tlv_loop_terminates (fuel : nat) :
  forall tlvs message_content r,
    (1 <= fuel)%nat ->
    offset r < 0 \/ bytesRemaining r < Z.of_nat fuel ->
    terminates (tlv_loop fuel tlvs message_content r).
Proof.
  induction fuel as [|fuel IH]; intros tlvs mc r Hpos Hroom; [lia|].
  cbn [tlv_loop].
  destruct (bytesRemaining r >? 0); [|apply Ok_terminates].
  apply bind_terminates; [apply readTlv_terminates|].
  intros [[t|] r'] Hread; [|apply Ok_terminates].
  apply readTlv_Some_inv in Hread.
  destruct Hread as (Hoff & Hview & Hoff' & Hlen).
  apply IH; [lia|]. right. unfold bytesRemaining in *.
  rewrite Hview, Hoff'. lia.
Qed.

Lemma decodeMessage_Ok (messageBuffer : list byte) (dataCoding : Z) :
  exists s, decodeMessage messageBuffer dataCoding = Ok s.
Proof.
  unfold decodeMessage.
  destruct (dataCoding =? 8); [eexists; reflexivity|].
  destruct (dataCoding =? 3); [eexists; reflexivity|].
  destruct (dataCoding =? 4); [eexists; reflexivity|].
  destruct (dataCoding =? 0); eexists; reflexivity.
Qed.

Lemma mbind_terminates {A B} (m : method A) (k : A -> method B) :
  mterminates m -> (forall a, mterminates (k a)) -> mterminates (mbind m k).
Proof.
  unfold mterminates, terminates, mbind. intros Hm Hk r.
  specialize (Hm r). destruct (m r) as [[a r']| |].
  - apply Hk.
  - discriminate.
  - exfalso. apply Hm. reflexivity.
Qed.

Lemma parseDeliverSmBody_terminates (smppLength : Z) :
  mterminates (parseDeliverSmBody smppLength).
Proof.
  unfold parseDeliverSmBody.
  repeat (apply mbind_terminates;
          [first [ exact readCString_terminates
                 | exact readUint8_terminates ]
          | intros ? ]).
  apply mbind_terminates.
  { intros r. unfold read_short_message.
    match goal with |- context [if ?c then _ else _] => destruct c end;
      [|apply Ok_terminates].
    apply bind_terminates; [apply readBytes_terminates|].
    intros [bytes r'] _. apply Ok_terminates. }
  intros short. apply mbind_terminates.
  { intros r. apply tlv_loop_terminates; [lia|].
    unfold bytesRemaining, byteLength.
    destruct (Z.ltb_spec (offset r) 0); [left; lia | right; lia]. }
  intros [tlvs message_content]. apply mbind_terminates.
  { intros r. unfold lift. apply bind_terminates.
    - destruct message_content as [content|]; [|apply Ok_terminates].
      match goal with
      | |- context [decodeMessage content ?d] =>
          destruct (decodeMessage_Ok content d) as (s & ->)
      end.
      apply Ok_terminates.
    - intros; apply Ok_terminates. }
  intros decoded r. apply Ok_terminates.
Qed.

Lemma parseSmppPdu_terminates (pduBuffer : ArrayBuffer) :
  terminates (parseSmppPdu pduBuffer).
Proof.
  unfold parseSmppPdu.
  apply bind_terminates; [unfold BufferReader_new;
    apply bind_terminates; auto with terminates|].
  intros reader _.
  do 4 (apply bind_terminates; [apply readUint32_terminates|];
        intros [? ?] _).
  apply bind_terminates; [|intros; apply Ok_terminates].
  match goal with |- context [if ?c then _ else _] => destruct c end.
  - apply bind_terminates; [apply parseDeliverSmBody_terminates|].
    intros [? ?] _. apply Ok_terminates.
  - apply bind_terminates; [|intros; apply Ok_terminates].
    match goal with |- context [if ?c then _ else _] => destruct c end;
      [|apply Ok_terminates].
    apply bind_terminates; [apply readBytes_terminates|].
    intros [bytes ?] _. apply Ok_terminates.
Qed.

(** ** The boundary scanner *)

Section Scanner.

Variable tcpPayload : ArrayBuffer.

Lemma scan_body_skip (offset : Z) (allPdus : list ParsedSmppData) :
  0 <= offset -> offset + 16 <= byteLength tcpPayload ->
  heuristics_match tcpPayload offset = false ->
  scan_body tcpPayload offset allPdus = Ok (allPdus, offset + 1).
Proof.
  intros H0 H1. unfold heuristics_match, scan_body.
  destruct (getUint32_inside tcpPayload (offset + 4) false)
    as (id & -> & _); [lia | lia |].
  destruct (getUint32_inside tcpPayload offset false)
    as (len & -> & _); [lia | lia |].
  cbn [bind]. rewrite <- andb_assoc.
  destruct (includes knownCommandIds id); cbn [andb]; [|reflexivity].
  intros ->. reflexivity.
Qed.

Lemma heuristics_match_true (offset : Z) :
  heuristics_match tcpPayload offset = true ->
  exists id len,
    getUint32 tcpPayload (offset + 4) false = Ok id
    /\ includes knownCommandIds id = true
    /\ getUint32 tcpPayload offset false = Ok len
    /\ 16 <= len /\ offset + len <= byteLength tcpPayload.
Proof.
  unfold heuristics_match.
  destruct (getUint32 tcpPayload (offset + 4) false) as [id| |];
    try discriminate.
  destruct (getUint32 tcpPayload offset false) as [len| |];
    try discriminate.
  rewrite !andb_true_iff, Z.geb_le, Z.leb_le. intros [[Hid Hge] Hfit].
  exists id, len. auto.
Qed.

Lemma scan_body_match (offset len : Z) (allPdus : list ParsedSmppData) :
  heuristics_match tcpPayload offset = true ->
  getUint32 tcpPayload offset false = Ok len ->
  scan_body tcpPayload offset allPdus
  = try_catch
      (parsedPdu <- parseSmppPdu (slice tcpPayload offset (offset + len)) ;;
       Ok (allPdus ++ [parsedPdu], offset + len))
      (fun _ => Ok (allPdus, offset + 1)).
Proof.
  intros Hm Hlen. apply heuristics_match_true in Hm.
  destruct Hm as (id & len' & Hid & Hknown & Hlen' & Hge & Hfit).
  rewrite Hlen in Hlen'. injection Hlen' as <-.
  unfold scan_body. rewrite Hid. cbn [bind]. rewrite Hknown, Hlen.
  cbn [bind].
  destruct (Z.geb_spec len 16); [|lia].
  destruct (Z.leb_spec (offset + len) (byteLength tcpPayload)); [|lia].
  reflexivity.
Qed.

(** One pass through the loop body always succeeds, and moves the
    offset forward: by one, or by an accepted length of 16 or more. *)
Lemma scan_body_advances (offset : Z) (allPdus : list ParsedSmppData) :
  0 <= offset -> offset + 16 <= byteLength tcpPayload ->
  exists allPdus' offset',
    scan_body tcpPayload offset allPdus = Ok (allPdus', offset')
    /\ ((offset' = offset + 1 /\ allPdus' = allPdus)
        \/ exists commandLength parsedPdu,
            getUint32 tcpPayload offset false = Ok commandLength
            /\ 16 <= commandLength
            /\ offset' = offset + commandLength
            /\ offset' <= byteLength tcpPayload
            /\ parseSmppPdu (slice tcpPayload offset offset') = Ok parsedPdu
            /\ allPdus' = allPdus ++ [parsedPdu]).
Proof.
  intros H0 H1.
  destruct (heuristics_match tcpPayload offset) eqn:Hm.
  - pose proof (heuristics_match_true offset Hm)
      as (id & len & Hid & Hknown & Hlen & Hge & Hfit).
    rewrite (scan_body_match offset len allPdus Hm Hlen).
    pose proof (parseSmppPdu_terminates
                  (slice tcpPayload offset (offset + len))) as Hterm.
    destruct (parseSmppPdu (slice tcpPayload offset (offset + len)))
      as [parsed|e|] eqn:Hparse.
    + do 2 eexists. split; [reflexivity|]. right.
      exists len, parsed. auto 10.
    + do 2 eexists. split; [reflexivity|]. left. auto.
    + exfalso. apply Hterm. reflexivity.
  - rewrite scan_body_skip by assumption.
    do 2 eexists. split; [reflexivity|]. left. auto.
Qed.

Lemma scan_loop_exit (fuel : nat) (offset : Z) (allPdus : list ParsedSmppData) :
  byteLength tcpPayload < offset + 16 ->
  scan_loop (S fuel) tcpPayload offset allPdus = Ok allPdus.
Proof.
  intros H. cbn [scan_loop].
  destruct (Z.leb_spec (offset + 16) (byteLength tcpPayload));
    [lia | reflexivity].
Qed.

Lemma scan_loop_accept (fuel : nat) (offset len : Z)
    (allPdus : list ParsedSmppData) (parsed : ParsedSmppData) :
  0 <= offset ->
  heuristics_match tcpPayload offset = true ->
  getUint32 tcpPayload offset false = Ok len ->
  parseSmppPdu (slice tcpPayload offset (offset + len)) = Ok parsed ->
  scan_loop (S fuel) tcpPayload offset allPdus
  = scan_loop fuel tcpPayload (offset + len) (allPdus ++ [parsed]).
Proof.
  intros H0 Hm Hlen Hparse. cbn [scan_loop].
  pose proof (heuristics_match_true offset Hm)
    as (id & len' & _ & _ & Hlen' & Hge & Hfit).
  rewrite Hlen in Hlen'. injection Hlen' as <-.
  destruct (Z.leb_spec (offset + 16) (byteLength tcpPayload)); [|lia].
  rewrite (scan_body_match offset len allPdus Hm Hlen), Hparse.
  reflexivity.
Qed.

Lemma scan_loop_skip (fuel : nat) (k : nat) :
  forall offset allPdus,
    0 <= offset ->
    offset + Z.of_nat k + 15 <= byteLength tcpPayload ->
    (forall i, offset <= i < offset + Z.of_nat k ->
               heuristics_match tcpPayload i = false) ->
    scan_loop (k + fuel) tcpPayload offset allPdus
    = scan_loop fuel tcpPayload (offset + Z.of_nat k) allPdus.
Proof.
  induction k as [|k IH]; intros offset allPdus H0 Hfit Hno.
  - cbn [Nat.add Z.of_nat]. rewrite Z.add_0_r. reflexivity.
  - cbn [Nat.add scan_loop].
    destruct (Z.leb_spec (offset + 16) (byteLength tcpPayload)); [|lia].
    rewrite scan_body_skip by (try apply Hno; lia).
    cbn [bind]. rewrite IH; [f_equal; lia | lia | lia |].
    intros i Hi. apply Hno. lia.
Qed.

Lemma scan_loop_terminates (fuel : nat) :
  forall offset allPdus,
    0 <= offset <= byteLength tcpPayload ->
    byteLength tcpPayload - offset < Z.of_nat fuel ->
    exists pdus, scan_loop fuel tcpPayload offset allPdus = Ok pdus.
Proof.
  induction fuel as [|fuel IH]; intros offset allPdus Hoff Hroom; [lia|].
  cbn [scan_loop].
  destruct (Z.leb_spec (offset + 16) (byteLength tcpPayload)) as [Hin|Hout];
    [|eexists; reflexivity].
  destruct (scan_body_advances offset allPdus) as (pdus' & off' & -> & Hadv);
    [lia | lia |].
  cbn [bind]. apply IH.
  - destruct Hadv as [[-> _] | (len & parsed & _ & ? & -> & ? & _)]; lia.
  - destruct Hadv as [[-> _] | (len & parsed & _ & ? & -> & ? & _)]; lia.
Qed.

End Scanner.

(** C9.  For every payload [parseMultipleSmppPdus] returns a list: no
    error escapes it and its loop ends within the budget of one pass
    per byte plus one.  Every pass through the loop body moves the
    offset forward, by exactly one or by an accepted command length of
    at least 16 that stays inside the payload.  When the decoder throws
    on a slice the heuristics picked, the pass ends with the list
    unchanged and the offset moved by one; on the sample payload - a
    header-only deliver_sm followed by an enquire_link - the scan goes
    on after the caught error and returns the enquire_link. *)
Theorem parseMultipleSmppPdus_terminates :
  forall tcpPayload : ArrayBuffer,
    (exists pdus, parseMultipleSmppPdus tcpPayload = Ok pdus)
    /\ (forall offset allPdus,
          0 <= offset -> offset + 16 <= byteLength tcpPayload ->
          exists allPdus' offset',
            scan_body tcpPayload offset allPdus = Ok (allPdus', offset')
            /\ ((offset' = offset + 1 /\ allPdus' = allPdus)
                \/ exists commandLength parsedPdu,
                    getUint32 tcpPayload offset false = Ok commandLength
                    /\ 16 <= commandLength
                    /\ offset' = offset + commandLength
                    /\ offset' <= byteLength tcpPayload
                    /\ parseSmppPdu (slice tcpPayload offset offset')
                       = Ok parsedPdu
                    /\ allPdus' = allPdus ++ [parsedPdu]))
    /\ (forall offset commandLength allPdus e,
          heuristics_match tcpPayload offset = true ->
          getUint32 tcpPayload offset false = Ok commandLength ->
          parseSmppPdu (slice tcpPayload offset (offset + commandLength))
            = Throw e ->
          scan_body tcpPayload offset allPdus = Ok (allPdus, offset + 1))
    /\ (exists pdu,
          parseMultipleSmppPdus (deliver_sm_header_only ++ enquire_link_pdu)
            = Ok [pdu]
          /\ command_name (header pdu) = str "enquire_link").
Proof.
  intros tcpPayload. split; [| split; [| split]].
  - unfold parseMultipleSmppPdus. apply scan_loop_terminates.
    + pose proof (byteLength_nonneg tcpPayload). lia.
    + unfold byteLength. lia.
  - intros offset allPdus. apply scan_body_advances.
  - intros offset commandLength allPdus e Hm Hlen Hthrow.
    rewrite (scan_body_match tcpPayload offset commandLength allPdus Hm Hlen).
    rewrite Hthrow. reflexivity.
  - eexists. split; vm_compute; reflexivity.
Qed.

Lemma parseMultipleSmppPdus_terminates_witness :
  (exists pdus, parseMultipleSmppPdus deliver_sm_header_only = Ok pdus)
  /\ (exists allPdus' offset',
        scan_body (deliver_sm_header_only ++ enquire_link_pdu) 16 []
          = Ok (allPdus', offset')
        /\ ((offset' = 16 + 1 /\ allPdus' = [])
            \/ exists commandLength parsedPdu,
                getUint32 (deliver_sm_header_only ++ enquire_link_pdu) 16 false
                  = Ok commandLength
                /\ 16 <= commandLength
                /\ offset' = 16 + commandLength
                /\ offset' <= byteLength (deliver_sm_header_only ++ enquire_link_pdu)
                /\ parseSmppPdu
                     (slice (deliver_sm_header_only ++ enquire_link_pdu) 16 offset')
                   = Ok parsedPdu
                /\ allPdus' = [] ++ [parsedPdu]))
  /\ scan_body deliver_sm_header_only 0 [] = Ok ([], 0 + 1).
Proof.
  split; [apply (parseMultipleSmppPdus_terminates deliver_sm_header_only)|].
  split.
  - apply (parseMultipleSmppPdus_terminates
             (deliver_sm_header_only ++ enquire_link_pdu)).
    + vm_compute. discriminate.
    + vm_compute. discriminate.
  - apply (proj1 (proj2 (proj2 (parseMultipleSmppPdus_terminates
                                  deliver_sm_header_only)))
             0 16 [] dataview_range_error); reflexivity.
Defined.

Lemma parseSmppPdu_header (pdu : ArrayBuffer) (parsed : ParsedSmppData) :
  parseSmppPdu pdu = Ok parsed -> header_fields_of pdu (header parsed).
Proof.
  unfold parseSmppPdu, BufferReader_new.
  change (TextDecoder_new (str "ascii")) with (Ok Windows_1252).
  cbn [bind]. unfold readUint32. cbn [view offset set_offset].
  destruct (getUint32 pdu 0 false) as [n0| |] eqn:E0;
    cbn [bind view offset set_offset]; try discriminate.
  destruct (getUint32 pdu (0 + 4) false) as [n4| |] eqn:E4;
    cbn [bind view offset set_offset]; try discriminate.
  destruct (getUint32 pdu (0 + 4 + 4) false) as [n8| |] eqn:E8;
    cbn [bind view offset set_offset]; try discriminate.
  destruct (getUint32 pdu (0 + 4 + 4 + 4) false) as [n12| |] eqn:E12;
    cbn [bind view offset set_offset]; try discriminate.
  match goal with
  | |- bind ?m _ = _ -> _ => destruct m as [b| |]
  end; cbn [bind]; try discriminate.
  intros Heq. injection Heq as <-.
  unfold header_fields_of. cbn [header command_length command_id
                                  command_status sequence_no command_name].
  repeat split; assumption || reflexivity.
Qed.

Lemma valid_pdu_length (pdu : ArrayBuffer) (parsed : ParsedSmppData) :
  valid_pdu pdu parsed -> 16 <= byteLength pdu.
Proof.
  intros (_ & _ & Hparse). apply parseSmppPdu_header in Hparse.
  destruct Hparse as (_ & _ & _ & H12 & _).
  apply getUint32_Ok_inv in H12. lia.
Qed.

(** A valid PDU that starts at [byteLength before] in a payload is
    matched by the heuristics there. *)
Lemma valid_pdu_matches (before pdu after : ArrayBuffer)
    (parsed : ParsedSmppData) :
  valid_pdu pdu parsed ->
  heuristics_match (before ++ pdu ++ after) (byteLength before) = true
  /\ getUint32 (before ++ pdu ++ after) (byteLength before) false
     = Ok (byteLength pdu).
Proof.
  intros Hv. pose proof (valid_pdu_length pdu parsed Hv) as H16.
  destruct Hv as (Hlen & (id & Hid & Hknown) & Hparse).
  pose proof (byteLength_nonneg before) as Hb.
  pose proof (byteLength_nonneg after) as Ha.
  assert (getUint32 (before ++ pdu ++ after) (byteLength before) false
          = Ok (byteLength pdu)) as H0.
  { rewrite <- (Z.add_0_r (byteLength before)).
    rewrite getUint32_app_r, getUint32_app_l by lia. exact Hlen. }
  split; [|exact H0].
  unfold heuristics_match. rewrite H0.
  rewrite getUint32_app_r, getUint32_app_l, Hid, Hknown by lia.
  cbn [andb]. rewrite !byteLength_app.
  destruct (Z.geb_spec (byteLength pdu) 16); [|lia].
  destruct (Z.leb_spec (byteLength before + byteLength pdu)
              (byteLength before + (byteLength pdu + byteLength after)));
    [reflexivity | lia].
Qed.

(** C2.  Let [pdu1] be a valid PDU decoding to [parsed1].  Its parsed
    header carries the four fields of its own first 16 bytes.  For
    every valid [pdu2] decoding to [parsed2], scanning the
    concatenation [pdu1 ++ pdu2] returns exactly [parsed1; parsed2],
    and [parsed2] likewise carries the header fields of [pdu2].
    For all garbage bytes at whose offsets the heuristics do not match,
    scanning [garbage ++ pdu1] returns exactly [parsed1]. *)
Theorem scanner_yields_the_valid_pdus :
  forall (pdu1 : ArrayBuffer) (parsed1 : ParsedSmppData),
    valid_pdu pdu1 parsed1 ->
    header_fields_of pdu1 (header parsed1)
    /\ (forall pdu2 parsed2,
          valid_pdu pdu2 parsed2 ->
          header_fields_of pdu2 (header parsed2)
          /\ parseMultipleSmppPdus (pdu1 ++ pdu2) = Ok [parsed1; parsed2])
    /\ (forall garbage,
          garbage_before garbage pdu1 ->
          parseMultipleSmppPdus (garbage ++ pdu1) = Ok [parsed1]).
Proof.
  intros pdu1 parsed1 Hv1.
  pose proof (valid_pdu_length pdu1 parsed1 Hv1) as H1.
  split; [apply parseSmppPdu_header, Hv1|]. split.
  - intros pdu2 parsed2 Hv2.
    split; [apply parseSmppPdu_header, Hv2|].
    pose proof (valid_pdu_length pdu2 parsed2 Hv2) as H2.
    destruct (valid_pdu_matches [] pdu1 pdu2 parsed1 Hv1) as (Hm1 & Hl1).
    destruct (valid_pdu_matches pdu1 pdu2 [] parsed2 Hv2) as (Hm2 & Hl2).
    cbn [app] in Hm1, Hl1. rewrite app_nil_r in Hm2, Hl2.
    change (byteLength []) with 0 in Hm1, Hl1.
    unfold parseMultipleSmppPdus.
    assert (exists fuel, S (List.length (pdu1 ++ pdu2)) = S (S (S fuel)))
      as (fuel & ->).
    { exists (List.length (pdu1 ++ pdu2) - 2)%nat.
      pose proof (byteLength_app pdu1 pdu2). unfold byteLength in *. lia. }
    rewrite (scan_loop_accept _ _ 0 (byteLength pdu1) [] parsed1);
      [| lia | exact Hm1 | exact Hl1 |].
    2:{ pose proof (slice_window [] pdu1 pdu2) as Hs. cbn [app] in Hs.
        change (byteLength []) with 0 in Hs. rewrite Hs. apply Hv1. }
    rewrite (scan_loop_accept _ _ (0 + byteLength pdu1) (byteLength pdu2)
               _ parsed2); [| lia | exact Hm2 | exact Hl2 |].
    2:{ pose proof (slice_window pdu1 pdu2 []) as Hs.
        rewrite app_nil_r in Hs. cbn [Z.add]. rewrite Hs. apply Hv2. }
    apply scan_loop_exit. rewrite byteLength_app. lia.
  - intros garbage Hg.
    destruct (valid_pdu_matches garbage pdu1 [] parsed1 Hv1) as (Hm & Hl).
    rewrite app_nil_r in Hm, Hl.
    pose proof (byteLength_nonneg garbage) as Hn.
    unfold parseMultipleSmppPdus.
    replace (S (List.length (garbage ++ pdu1)))
      with (List.length garbage + S (List.length pdu1))%nat
      by (rewrite length_app; lia).
    rewrite scan_loop_skip.
    + cbn [Z.add]. fold (byteLength garbage).
      assert (exists fuel, List.length pdu1 = S fuel) as (fuel & Hf).
      { exists (List.length pdu1 - 1)%nat. unfold byteLength in H1. lia. }
      rewrite (scan_loop_accept _ _ _ (byteLength pdu1) [] parsed1);
        [| lia | exact Hm | exact Hl |].
      2:{ pose proof (slice_window garbage pdu1 []) as Hs.
          rewrite app_nil_r in Hs. rewrite Hs. apply Hv1. }
      rewrite Hf. apply scan_loop_exit. rewrite byteLength_app. lia.
    + lia.
    + fold (byteLength garbage). rewrite byteLength_app. lia.
    + intros i Hi. apply Hg. fold (byteLength garbage) in Hi. lia.
Qed.

Lemma scanner_yields_the_valid_pdus_witness :
  exists parsed1 parsed2,
    valid_pdu enquire_link_pdu parsed1
    /\ valid_pdu (deliver_sm_with_payload [0x42; 0x43]) parsed2
    /\ garbage_before (bytes_of [0xDE; 0xAD; 0xBE]) enquire_link_pdu
    /\ header_fields_of enquire_link_pdu (header parsed1)
    /\ header_fields_of (deliver_sm_with_payload [0x42; 0x43]) (header parsed2)
    /\ parseMultipleSmppPdus
         (enquire_link_pdu ++ deliver_sm_with_payload [0x42; 0x43])
       = Ok [parsed1; parsed2]
    /\ parseMultipleSmppPdus (bytes_of [0xDE; 0xAD; 0xBE] ++ enquire_link_pdu)
       = Ok [parsed1].
Proof.
  assert (exists parsed1, valid_pdu enquire_link_pdu parsed1)
    as (parsed1 & Hv1).
  { eexists. split; [reflexivity|]. split.
    - eexists. split; reflexivity.
    - vm_compute. reflexivity. }
  assert (exists parsed2,
             valid_pdu (deliver_sm_with_payload [0x42; 0x43]) parsed2)
    as (parsed2 & Hv2).
  { eexists. split; [reflexivity|]. split.
    - eexists. split; reflexivity.
    - vm_compute. reflexivity. }
  assert (garbage_before (bytes_of [0xDE; 0xAD; 0xBE]) enquire_link_pdu)
    as Hg.
  { intros i Hi. change (byteLength (bytes_of [0xDE; 0xAD; 0xBE])) with 3 in Hi.
    assert (i = 0 \/ i = 1 \/ i = 2) as [-> | [-> | ->]] by lia;
      reflexivity. }
  exists parsed1, parsed2.
  destruct (scanner_yields_the_valid_pdus enquire_link_pdu parsed1 Hv1)
    as (Hh & Htwo & Hgarbage).
  split; [exact Hv1|]. split; [exact Hv2|]. split; [exact Hg|].
  split; [exact Hh|]. split; [apply Htwo, Hv2|].
  split; [apply Htwo, Hv2 | apply Hgarbage, Hg].
Defined.

(** ** Hex dumps read back *)

(** The dump of one byte: two hex digits, which read back as the byte. *)
Lemma hex_of_byte (b : byte) :
  exists h l,
    padStart 2 48 (toString 16 (u8 b)) = [h; l]
    /\ (h =? 32) = false /\ (l =? 32) = false
    /\ ToUint8 (parseInt16 [h; l]) = b.
Proof.
  destruct b; do 2 eexists;
    (split; [vm_compute; reflexivity | repeat split; reflexivity]).
Qed.

Lemma join_cons2 (sep p q : jsstring) (rest : list jsstring) :
  join sep (p :: q :: rest) = p ++ sep ++ join sep (q :: rest).
Proof. reflexivity. Qed.

Lemma split_after_piece (h l : Z) (rest : jsstring) :
  (h =? 32) = false -> (l =? 32) = false ->
  split 32 ([h; l] ++ [32] ++ rest) = [h; l] :: split 32 rest.
Proof.
  intros Hh Hl. cbn [app split]. rewrite Hh, Hl. reflexivity.
Qed.

Lemma split_hex_pieces (b : byte) (bs : list byte) :
  split 32 (bufferToHex (b :: bs))
  = map (fun x => padStart 2 48 (toString 16 (u8 x))) (b :: bs).
Proof.
  unfold bufferToHex. revert b.
  induction bs as [|c bs IH]; intros b;
    destruct (hex_of_byte b) as (h & l & Hb & Hh & Hl & _).
  - cbn [map join]. rewrite Hb. cbn [split]. rewrite Hh, Hl. reflexivity.
  - specialize (IH c). cbn [map] in IH |- *.
    rewrite join_cons2, Hb. change (str " ") with [32] in IH |- *.
    rewrite split_after_piece by assumption.
    rewrite IH. reflexivity.
Qed.

(** A non-empty value is recovered from its hex dump; the empty value
    is not (its dump reads back as one zero byte). *)
Lemma bytes_of_hex_bufferToHex (value : list byte) :
  value <> [] -> bytes_of_hex (bufferToHex value) = value.
Proof.
  destruct value as [|b bs]; [congruence|]. intros _.
  unfold bytes_of_hex. rewrite split_hex_pieces, map_map.
  rewrite <- (map_id (b :: bs)) at 2. apply map_ext.
  intros x. destruct (hex_of_byte x) as (h & l & -> & _ & _ & Hx).
  exact Hx.
Qed.

(** ** Records without an IPv4 header *)

(** The one length guard of the stripping code: a record of at most 14
    captured bytes is passed over, and nothing of it is read. *)
Lemma record_body_no_ip_header (pcapBuffer : ArrayBuffer)
    (littleEndian : bool) (offset incl_len packetIndex : Z)
    (packets : list PacketSummary.t) :
  offset + 16 <= byteLength pcapBuffer ->
  getUint32 pcapBuffer (offset + 8) littleEndian = Ok incl_len ->
  offset + 16 + incl_len <= byteLength pcapBuffer ->
  incl_len <= 14 ->
  record_body pcapBuffer littleEndian offset packetIndex packets
  = Ok (Continue (offset + 16 + incl_len) packetIndex packets).
Proof.
  intros Hhdr Hlen Hfit Hshort. unfold record_body.
  destruct (Z.ltb_spec (byteLength pcapBuffer) (offset + 16)); [lia|].
  rewrite Hlen. cbn [bind].
  destruct (Z.gtb_spec (offset + 16 + incl_len) (byteLength pcapBuffer));
    [lia|].
  destruct (Z.geb_spec (offset + 16 + 14) (offset + 16 + incl_len));
    [reflexivity | lia].
Qed.

(** ** The record loop ends within its budget *)

Lemma peekUint32_terminates r off : terminates (peekUint32 r off).
Proof.
  unfold peekUint32. destruct (off + 4 >? byteLength (view r));
    [apply Ok_terminates|].
  apply bind_terminates; [apply getUint32_terminates|].
  intros; apply Ok_terminates.
Qed.

Lemma BufferReader_new_terminates buffer : terminates (BufferReader_new buffer).
Proof.
  unfold BufferReader_new.
  apply bind_terminates; [apply TextDecoder_new_terminates|].
  intros; apply Ok_terminates.
Qed.

Lemma record_body_terminates pcapBuffer littleEndian offset packetIndex packets :
  terminates (record_body pcapBuffer littleEndian offset packetIndex packets).
Proof.
  unfold record_body. cbv zeta.
  repeat first
    [ apply Ok_terminates
    | apply bind_terminates;
      [ first [ apply getUint8_terminates | apply getUint16_terminates
              | apply getUint32_terminates | apply peekUint32_terminates
              | apply BufferReader_new_terminates ]
      | intros ? _ ]
    | match goal with
      | |- terminates (if ?c then _ else _) => destruct c
      end ].
Qed.

(** A pass that does not break moves the offset past the record. *)
Lemma record_body_Continue pcapBuffer littleEndian offset packetIndex packets
    offset' packetIndex' packets' :
  record_body pcapBuffer littleEndian offset packetIndex packets
    = Ok (Continue offset' packetIndex' packets') ->
  offset + 16 <= offset' <= byteLength pcapBuffer.
Proof.
  unfold record_body. cbv zeta.
  destruct (byteLength pcapBuffer <? offset + 16); [discriminate|].
  destruct (getUint32 pcapBuffer (offset + 8) littleEndian)
    as [incl_len| |] eqn:Hlen; cbn [bind]; try discriminate.
  apply getUint32_Ok_inv in Hlen.
  destruct (Z.gtb_spec (offset + 16 + incl_len) (byteLength pcapBuffer));
    [discriminate|].
  repeat match goal with
         | |- Ok (Continue _ _ _) = Ok _ -> _ =>
             let H := fresh in intros H; injection H as <- _ _; lia
         | |- (if ?c then _ else _) = _ -> _ => destruct c
         | |- bind ?m _ = _ -> _ =>
             destruct m; cbn [bind]; try discriminate
         end.
Qed.

Lemma record_loop_terminates (fuel : nat) pcapBuffer littleEndian :
  forall offset packetIndex packets,
    (1 <= fuel)%nat ->
    byteLength pcapBuffer - offset < Z.of_nat fuel ->
    terminates (record_loop fuel pcapBuffer littleEndian offset packetIndex
                  packets).
Proof.
  induction fuel as [|fuel IH]; intros offset packetIndex packets Hpos Hroom;
    [lia|].
  cbn [record_loop].
  destruct (Z.ltb_spec offset (byteLength pcapBuffer));
    [|apply Ok_terminates].
  apply bind_terminates; [apply record_body_terminates|].
  intros [|offset' packetIndex' packets'] Hbody; [apply Ok_terminates|].
  apply record_body_Continue in Hbody. apply IH; lia.
Qed.

Lemma extractAllTcpPayloads_terminates (pcapBuffer : ArrayBuffer) :
  terminates (extractAllTcpPayloads pcapBuffer).
Proof.
  unfold extractAllTcpPayloads.
  destruct (byteLength pcapBuffer <? 24); [apply Throw_terminates|].
  apply bind_terminates; [apply getUint32_terminates|]. intros magic _.
  apply bind_terminates.
  - repeat match goal with
           | |- terminates (if ?c then _ else _) => destruct c
           end; first [apply Ok_terminates | apply Throw_terminates].
  - intros littleEndian _. apply record_loop_terminates; [lia|].
    unfold byteLength. lia.
Qed.

(** * Further properties of the decoder *)

(** ** ESM class *)

(** X1.  Whatever the esm_class byte, the rendering is one of twelve
    strings: a type among "Default Message", "Delivery Receipt",
    "Delivery Acknowledgement" and "Unknown Type", and a mode.  The
    three other names of the source's type table - "Manual/User
    Acknowledgement", "Conversation Abort (Korean CDMA)" and
    "Intermediate Delivery Notification" - are never rendered: of the
    bytes that are their keys, 0x40 and 0x80 render as "Default
    Message" and 0x60 as "Unknown Type". *)
Theorem ESM_CLASS_MAP_range :
  (forall b : byte, In (ESM_CLASS_MAP (u8 b)) esm_class_renderings)
  /\ ESM_CLASS_MAP 0x40 = str "Default Message, Default Mode"
  /\ ESM_CLASS_MAP 0x60 = str "Unknown Type, Default Mode"
  /\ ESM_CLASS_MAP 0x80 = str "Default Message, Default Mode".
Proof.
  split; [| repeat split; reflexivity].
  intros b. destruct b; vm_compute;
    repeat first [left; reflexivity | right].
Qed.

(** ** The single-PDU decoder on other commands *)

Lemma bind_Ok_inv {A B} (m : outcome A) (k : A -> outcome B) (b : B) :
  bind m k = Ok b -> exists a, m = Ok a /\ k a = Ok b.
Proof.
  destruct m as [a| |]; cbn [bind]; try discriminate.
  intros H. exists a. auto.
Qed.

Lemma getUint32_outside (v : ArrayBuffer) (off : Z) (le : bool) :
  byteLength v < off + 4 -> getUint32 v off le = Throw dataview_range_error.
Proof.
  intros H. unfold getUint32.
  replace (in_view v off 4) with false
    by (symmetry; apply in_view_false; lia).
  reflexivity.
Qed.

Lemma command_name_deliver_sm (id : Z) :
  str_eqb (or_else (lookup COMMAND_ID_MAP id) (str "Unknown Command"))
          (str "deliver_sm") = true
  <-> id = 2.
Proof.
  split.
  - unfold COMMAND_ID_MAP, lookup.
    repeat match goal with
           | |- context [?k =? id] =>
               let E := fresh "E" in destruct (k =? id) eqn:E
           end; cbn; try discriminate.
    intros _. apply Z.eqb_eq in E1. lia.
  - intros ->. reflexivity.
Qed.

Lemma slice_suffix (buf : ArrayBuffer) (first : Z) :
  0 <= first <= byteLength buf ->
  firstn (Z.to_nat (byteLength buf - first)) (skipn (Z.to_nat first) buf)
  = skipn (Z.to_nat first) buf.
Proof.
  intros H. apply firstn_all2. rewrite length_skipn.
  unfold byteLength in *. lia.
Qed.

(** X2.  A buffer shorter than 16 bytes makes [parseSmppPdu] throw the
    DataView RangeError.  On a buffer of at least 16 bytes whose command
    id is not 2 (deliver_sm), [parseSmppPdu] always succeeds, whatever
    the length field declares: the header carries the four fields and
    the resolved name, and the body is the unsupported-command note
    with the hex dump of all bytes after the header, or "No body" when
    there are none. *)
Theorem parseSmppPdu_other_commands :
  forall pduBuffer : ArrayBuffer,
    (byteLength pduBuffer < 16 ->
     parseSmppPdu pduBuffer = Throw dataview_range_error)
    /\ (16 <= byteLength pduBuffer ->
        exists h,
          header_fields_of pduBuffer h
          /\ (command_id h <> 2 ->
              parseSmppPdu pduBuffer
              = Ok {| header := h;
                      body :=
                        Unsupported
                          (str "Parser for " ++ command_name h ++ str " (0x"
                             ++ toString 16 (command_id h)
                             ++ str ") is not implemented.")
                          (if byteLength pduBuffer >? 16
                           then bufferToHex (skipn 16 pduBuffer)
                           else str "No body") |})).
Proof.
  intros p. split.
  - intros Hshort. unfold parseSmppPdu, BufferReader_new.
    change (TextDecoder_new (str "ascii")) with (Ok Windows_1252).
    cbn [bind]. unfold readUint32. cbn [view offset set_offset].
    destruct (Z.lt_ge_cases (byteLength p) 4) as [H4|H4];
      [rewrite getUint32_outside by lia; reflexivity|].
    destruct (getUint32_inside p 0 false) as (n0 & -> & _); [lia | lia |].
    cbn [bind view offset set_offset].
    destruct (Z.lt_ge_cases (byteLength p) 8) as [H8|H8];
      [rewrite getUint32_outside by lia; reflexivity|].
    destruct (getUint32_inside p (0 + 4) false) as (n4 & -> & _);
      [lia | lia |].
    cbn [bind view offset set_offset].
    destruct (Z.lt_ge_cases (byteLength p) 12) as [H12|H12];
      [rewrite getUint32_outside by lia; reflexivity|].
    destruct (getUint32_inside p (0 + 4 + 4) false) as (n8 & -> & _);
      [lia | lia |].
    cbn [bind view offset set_offset].
    rewrite getUint32_outside by lia. reflexivity.
  - intros Hlen.
    destruct (getUint32_inside p 0 false) as (n0 & H0 & _); [lia | lia |].
    destruct (getUint32_inside p 4 false) as (n4 & H4 & _); [lia | lia |].
    destruct (getUint32_inside p 8 false) as (n8 & H8 & _); [lia | lia |].
    destruct (getUint32_inside p 12 false) as (n12 & H12 & _); [lia | lia |].
    exists {| command_length := n0; command_id := n4;
              command_name :=
                or_else (lookup COMMAND_ID_MAP n4) (str "Unknown Command");
              command_status := n8; sequence_no := n12 |}.
    split; [repeat split; assumption|].
    cbn [command_id command_name]. intros Hid.
    unfold parseSmppPdu, BufferReader_new.
    change (TextDecoder_new (str "ascii")) with (Ok Windows_1252).
    cbn [bind].
    rewrite (readUint32_Ok _ n0) by exact H0. cbn [bind offset set_offset view].
    rewrite (readUint32_Ok _ n4) by exact H4. cbn [bind offset set_offset view].
    rewrite (readUint32_Ok _ n8) by exact H8. cbn [bind offset set_offset view].
    rewrite (readUint32_Ok _ n12) by exact H12.
    cbn [bind offset set_offset view].
    destruct (str_eqb (or_else (lookup COMMAND_ID_MAP n4) (str "Unknown Command"))
                (str "deliver_sm")) eqn:Hname.
    { apply command_name_deliver_sm in Hname. contradiction. }
    unfold bytesRemaining. cbn [view offset set_offset].
    change (0 + 4 + 4 + 4 + 4) with 16.
    destruct (Z.gtb_spec (byteLength p - 16) 0) as [Hmore|Hnone].
    + destruct (Z.gtb_spec (byteLength p) 16); [|lia].
      unfold readBytes, Uint8Array_on. cbn [view offset set_offset].
      destruct (Z.leb_spec 0 (byteLength p - 16)); [|lia].
      destruct (Z.leb_spec (16 + (byteLength p - 16)) (byteLength p)); [|lia].
      cbn [andb Z.leb Z.compare bind].
      rewrite slice_suffix by lia. reflexivity.
    + destruct (Z.gtb_spec (byteLength p) 16); [lia|]. reflexivity.
Qed.

Lemma parseSmppPdu_other_commands_witness :
  parseSmppPdu (firstn 10 enquire_link_pdu) = Throw dataview_range_error
  /\ exists h,
      header_fields_of (enquire_link_pdu ++ [x2a]) h
      /\ parseSmppPdu (enquire_link_pdu ++ [x2a])
         = Ok {| header := h;
                 body :=
                   Unsupported
                     (str "Parser for " ++ command_name h ++ str " (0x"
                        ++ toString 16 (command_id h)
                        ++ str ") is not implemented.")
                     (str "2a") |}.
Proof.
  split.
  - apply (parseSmppPdu_other_commands (firstn 10 enquire_link_pdu)).
    vm_compute. reflexivity.
  - destruct (proj2 (parseSmppPdu_other_commands (enquire_link_pdu ++ [x2a])))
      as (h & Hh & Hparse).
    + vm_compute. discriminate.
    + exists h. split; [exact Hh|].
      destruct Hh as (_ & Hid & _).
      apply Hparse. intros Heq. rewrite Heq in Hid.
      vm_compute in Hid. discriminate.
Defined.

(** ** The capture reader: what it returns *)

Ltac bool_to_Z :=
  repeat match goal with
         | H : (_ <? _) = true |- _ => apply Z.ltb_lt in H
         | H : (_ <? _) = false |- _ => apply Z.ltb_ge in H
         | H : (_ <=? _) = true |- _ => apply Z.leb_le in H
         | H : (_ <=? _) = false |- _ => apply Z.leb_gt in H
         | H : (_ >? _) = _ |- _ => rewrite Z.gtb_ltb in H
         | H : (_ >=? _) = _ |- _ => rewrite Z.geb_leb in H
         | H : (_ =? _) = true |- _ => apply Z.eqb_eq in H
         | H : (_ =? _) = false |- _ => apply Z.eqb_neq in H
         | H : negb _ = true |- _ => apply negb_true_iff in H
         | H : negb _ = false |- _ => apply negb_false_iff in H
         end.

(** One step through a computation that is known to return. *)
Ltac step_Ok :=
  match goal with
  | |- bind ?m _ = Ok _ -> _ =>
      let E := fresh "E" in
      destruct m eqn:E; cbn [bind]; [|discriminate|discriminate]
  | |- (if ?c then _ else _) = Ok _ -> _ =>
      let C := fresh "C" in destruct c eqn:C
  end.

Lemma slice_length (buf : ArrayBuffer) (first final : Z) :
  0 <= first -> first <= final -> final <= byteLength buf ->
  byteLength (slice buf first final) = final - first.
Proof.
  intros H0 H1 H2. unfold slice, clamp_index.
  destruct (Z.ltb_spec first 0); [lia|].
  destruct (Z.ltb_spec final 0); [lia|].
  rewrite !Z.min_l by lia. rewrite Z.max_l by lia.
  unfold byteLength in *. rewrite length_firstn, length_skipn. lia.
Qed.

(** What a pass through the body of the record loop leaves when it
    does not break: the offset is past the record, and either nothing
    was added, or one well-formed packet with the next index. *)
Lemma record_body_inv pcapBuffer littleEndian offset packetIndex packets
    offset' packetIndex' packets' :
  record_body pcapBuffer littleEndian offset packetIndex packets
    = Ok (Continue offset' packetIndex' packets') ->
  (packetIndex' = packetIndex /\ packets' = packets)
  \/ exists p,
      packetIndex' = packetIndex + 1
      /\ packets' = packets ++ [p]
      /\ PacketSummary.index p = packetIndex + 1
      /\ well_formed_packet p.
Proof.
  unfold record_body. cbv zeta.
  repeat step_Ok;
    try (intros Heq; injection Heq as <- <- <-; left; split; reflexivity);
    try discriminate.
  intros Heq. injection Heq as <- <- <-. right.
  eexists. split; [reflexivity|]. split; [reflexivity|].
  split; [reflexivity|].
  unfold well_formed_packet.
  cbn [PacketSummary.length PacketSummary.payload PacketSummary.sourcePort
         PacketSummary.destPort].
  bool_to_Z.
  repeat match goal with
         | H : getUint32 _ _ _ = Ok _ |- _ => apply getUint32_Ok_inv in H
         | H : getUint16 _ _ _ = Ok _ |- _ => apply getUint16_Ok_inv in H
         | H : getUint8 _ _ = Ok _ |- _ => apply getUint8_Ok_inv in H
         end.
  match goal with
  | |- context [Z.land ?v 15] =>
      assert (0 <= Z.land v 15) by (apply Z.land_nonneg; right; lia)
  end.
  match goal with
  | |- context [Z.shiftr (Z.land ?d 240) 4] =>
      assert (0 <= Z.shiftr (Z.land d 240) 4)
        by (apply Z.shiftr_nonneg, Z.land_nonneg; right; lia)
  end.
  split; [|lia].
  rewrite slice_length; lia.
Qed.

Lemma count_from_snoc (first : Z) (count : nat) :
  count_from first (S count)
  = count_from first count ++ [first + Z.of_nat count].
Proof.
  revert first. induction count as [|count IH]; intros first.
  - cbn. rewrite Z.add_0_r. reflexivity.
  - change (count_from first (S (S count)))
      with (first :: count_from (first + 1) (S count)).
    rewrite IH. cbn [count_from app]. do 3 f_equal. lia.
Qed.

Lemma record_loop_indices (fuel : nat) pcapBuffer littleEndian :
  forall offset packetIndex packets result,
    packetIndex = Z.of_nat (List.length packets) ->
    map PacketSummary.index packets = count_from 1 (List.length packets) ->
    record_loop fuel pcapBuffer littleEndian offset packetIndex packets
      = Ok result ->
    map PacketSummary.index result = count_from 1 (List.length result).
Proof.
  induction fuel as [|fuel IH];
    intros offset packetIndex packets result Hidx Hmap; [discriminate|].
  cbn [record_loop].
  destruct (offset <? byteLength pcapBuffer);
    [|intros Heq; injection Heq as <-; exact Hmap].
  destruct (record_body pcapBuffer littleEndian offset packetIndex packets)
    as [[|offset' packetIndex' packets']| |] eqn:Hbody; cbn [bind];
    try discriminate.
  - intros Heq; injection Heq as <-; exact Hmap.
  - apply record_body_inv in Hbody.
    destruct Hbody as [[-> ->] | (p & -> & -> & Hp & _)].
    + apply IH; assumption.
    + apply IH.
      * rewrite length_app. cbn [List.length]. lia.
      * rewrite map_app, length_app, Hmap. cbn [map List.length].
        rewrite Nat.add_1_r, count_from_snoc, Hp, Hidx.
        do 2 f_equal. lia.
Qed.

Lemma record_loop_well_formed (fuel : nat) pcapBuffer littleEndian :
  forall offset packetIndex packets result,
    Forall well_formed_packet packets ->
    record_loop fuel pcapBuffer littleEndian offset packetIndex packets
      = Ok result ->
    Forall well_formed_packet result.
Proof.
  induction fuel as [|fuel IH];
    intros offset packetIndex packets result Hall; [discriminate|].
  cbn [record_loop].
  destruct (offset <? byteLength pcapBuffer);
    [|intros Heq; injection Heq as <-; exact Hall].
  destruct (record_body pcapBuffer littleEndian offset packetIndex packets)
    as [[|offset' packetIndex' packets']| |] eqn:Hbody; cbn [bind];
    try discriminate.
  - intros Heq; injection Heq as <-; exact Hall.
  - apply record_body_inv in Hbody.
    destruct Hbody as [[-> ->] | (p & -> & -> & _ & Hp)].
    + apply IH; assumption.
    + apply IH. apply Forall_app. split; [exact Hall|].
      constructor; [exact Hp | constructor].
Qed.

Lemma extractAllTcpPayloads_Ok_inv pcapBuffer packets :
  extractAllTcpPayloads pcapBuffer = Ok packets ->
  exists littleEndian,
    record_loop (S (List.length pcapBuffer)) pcapBuffer littleEndian 24 0 []
    = Ok packets.
Proof.
  unfold extractAllTcpPayloads.
  destruct (byteLength pcapBuffer <? 24); [discriminate|].
  destruct (getUint32 pcapBuffer 0 false) as [magic| |]; cbn [bind];
    try discriminate.
  destruct (magic =? 2712847316); cbn [bind]; [eauto|].
  destruct (magic =? 3569595041); cbn [bind]; [eauto | discriminate].
Qed.

(** X3.  The packets [extractAllTcpPayloads] returns are numbered 1,
    2, ..., n in the order of the list: the index counts the forwarded
    packets, not the records of the capture. *)
Theorem packet_indices_are_contiguous :
  forall pcapBuffer packets,
    extractAllTcpPayloads pcapBuffer = Ok packets ->
    map PacketSummary.index packets = count_from 1 (List.length packets).
Proof.
  intros pcapBuffer packets H.
  apply extractAllTcpPayloads_Ok_inv in H. destruct H as (le & H).
  apply (record_loop_indices _ _ _ 24 0 [] packets eq_refl eq_refl H).
Qed.

(** X4.  Every packet [extractAllTcpPayloads] returns keeps a payload
    of exactly [length] bytes, with [length] above 16, and ports that
    are 16-bit numbers. *)
Theorem forwarded_packets_are_well_formed :
  forall pcapBuffer packets,
    extractAllTcpPayloads pcapBuffer = Ok packets ->
    Forall well_formed_packet packets.
Proof.
  intros pcapBuffer packets H.
  apply extractAllTcpPayloads_Ok_inv in H. destruct H as (le & H).
  apply (record_loop_well_formed _ _ _ 24 0 [] packets (Forall_nil _) H).
Qed.

Lemma packet_indices_are_contiguous_witness :
  exists p1 p2,
    extractAllTcpPayloads mixed_capture = Ok [p1; p2]
    /\ map PacketSummary.index [p1; p2] = [1; 2].
Proof.
  assert (exists p1 p2, extractAllTcpPayloads mixed_capture = Ok [p1; p2])
    as (p1 & p2 & H) by (do 2 eexists; vm_compute; reflexivity).
  exists p1, p2. split; [exact H|].
  exact (packet_indices_are_contiguous mixed_capture [p1; p2] H).
Defined.

Lemma forwarded_packets_are_well_formed_witness :
  exists p1 p2,
    extractAllTcpPayloads mixed_capture = Ok [p1; p2]
    /\ Forall well_formed_packet [p1; p2].
Proof.
  assert (exists p1 p2, extractAllTcpPayloads mixed_capture = Ok [p1; p2])
    as (p1 & p2 & H) by (do 2 eexists; vm_compute; reflexivity).
  exists p1, p2. split; [exact H|].
  exact (forwarded_packets_are_well_formed mixed_capture [p1; p2] H).
Defined.

(** ** The capture reader: what it throws *)

Lemma throws_only_Ok {A} e0 (a : A) : throws_only e0 (Ok a).
Proof. intros e H. discriminate. Qed.

Lemma throws_only_bind {A B} e0 (m : outcome A) (k : A -> outcome B) :
  throws_only e0 m -> (forall a, m = Ok a -> throws_only e0 (k a)) ->
  throws_only e0 (bind m k).
Proof.
  unfold throws_only. destruct m as [a|e1|]; cbn [bind]; intros Hm Hk e2 H.
  - apply (Hk a eq_refl e2 H).
  - injection H as <-. apply Hm. reflexivity.
  - discriminate.
Qed.

Lemma getUint8_throws v off : throws_only dataview_range_error (getUint8 v off).
Proof.
  unfold getUint8. intros e. destruct (in_view v off 1); [discriminate|].
  intros H. injection H as <-. reflexivity.
Qed.

Lemma getUint16_throws v off le :
  throws_only dataview_range_error (getUint16 v off le).
Proof.
  unfold getUint16. intros e. destruct (in_view v off 2); [discriminate|].
  intros H. injection H as <-. reflexivity.
Qed.

Lemma getUint32_throws v off le :
  throws_only dataview_range_error (getUint32 v off le).
Proof.
  unfold getUint32. intros e. destruct (in_view v off 4); [discriminate|].
  intros H. injection H as <-. reflexivity.
Qed.

Lemma peekUint32_throws r off :
  throws_only dataview_range_error (peekUint32 r off).
Proof.
  unfold peekUint32. destruct (off + 4 >? byteLength (view r));
    [apply throws_only_Ok|].
  apply throws_only_bind; [apply getUint32_throws|].
  intros; apply throws_only_Ok.
Qed.

Lemma BufferReader_new_throws buffer :
  throws_only dataview_range_error (BufferReader_new buffer).
Proof. intros e H. discriminate. Qed.

Lemma record_body_throws pcapBuffer littleEndian offset packetIndex packets :
  throws_only dataview_range_error
    (record_body pcapBuffer littleEndian offset packetIndex packets).
Proof.
  unfold record_body. cbv zeta.
  repeat first
    [ apply throws_only_Ok
    | apply throws_only_bind;
      [ first [ apply getUint8_throws | apply getUint16_throws
              | apply getUint32_throws | apply peekUint32_throws
              | apply BufferReader_new_throws ]
      | intros ? _ ]
    | match goal with
      | |- throws_only _ (if ?c then _ else _) => destruct c
      end ].
Qed.

Lemma record_loop_throws (fuel : nat) pcapBuffer littleEndian :
  forall offset packetIndex packets,
    throws_only dataview_range_error
      (record_loop fuel pcapBuffer littleEndian offset packetIndex packets).
Proof.
  induction fuel as [|fuel IH]; intros offset packetIndex packets;
    [intros e H; discriminate|].
  cbn [record_loop].
  destruct (offset <? byteLength pcapBuffer); [|apply throws_only_Ok].
  apply throws_only_bind; [apply record_body_throws|].
  intros [|offset' packetIndex' packets'] _;
    [apply throws_only_Ok | apply IH].
Qed.

(** X5.  [extractAllTcpPayloads] throws the "too short" Error on every
    buffer of fewer than 24 bytes, and the "magic number is incorrect"
    Error, quoting the number in hexadecimal, on every longer buffer
    whose first four bytes are neither a1b2c3d4 nor d4c3b2a1.  These are
    its only Errors of its own: any other exception it throws is the
    DataView RangeError of a read outside the buffer. *)
Theorem capture_header_errors :
  forall pcapBuffer : ArrayBuffer,
    (byteLength pcapBuffer < 24 ->
     extractAllTcpPayloads pcapBuffer
     = Throw (Error (str "Invalid PCAP file: too short for global header.")))
    /\ (forall magic,
          24 <= byteLength pcapBuffer ->
          getUint32 pcapBuffer 0 false = Ok magic ->
          magic <> 0xa1b2c3d4 -> magic <> 0xd4c3b2a1 ->
          extractAllTcpPayloads pcapBuffer
          = Throw (Error
                     (str "Unsupported or invalid PCAP file: magic number is incorrect (was 0x"
                        ++ toString 16 magic ++ str ").")))
    /\ (forall e,
          extractAllTcpPayloads pcapBuffer = Throw e ->
          e = dataview_range_error
          \/ byteLength pcapBuffer < 24
          \/ exists magic,
              getUint32 pcapBuffer 0 false = Ok magic
              /\ magic <> 0xa1b2c3d4 /\ magic <> 0xd4c3b2a1).
Proof.
  intros pcapBuffer. unfold extractAllTcpPayloads. split; [|split].
  - intros H. destruct (Z.ltb_spec (byteLength pcapBuffer) 24);
      [reflexivity | lia].
  - intros magic Hlen Hmagic Hbe Hle.
    destruct (Z.ltb_spec (byteLength pcapBuffer) 24); [lia|].
    rewrite Hmagic. cbn [bind].
    destruct (Z.eqb_spec magic 2712847316); [contradiction|].
    destruct (Z.eqb_spec magic 3569595041); [contradiction|].
    reflexivity.
  - intros e.
    destruct (Z.ltb_spec (byteLength pcapBuffer) 24); [auto|].
    destruct (getUint32_inside pcapBuffer 0 false) as (magic & Hmagic & _);
      [lia | lia |].
    rewrite Hmagic. cbn [bind].
    destruct (Z.eqb_spec magic 2712847316) as [|Hbe]; cbn [bind].
    { intros Hthrow. left. exact (record_loop_throws _ _ _ _ _ _ e Hthrow). }
    destruct (Z.eqb_spec magic 3569595041) as [|Hle]; cbn [bind].
    { intros Hthrow. left. exact (record_loop_throws _ _ _ _ _ _ e Hthrow). }
    intros _. right. right. exists magic. auto.
Qed.

Lemma capture_header_errors_witness :
  extractAllTcpPayloads (firstn 23 mixed_capture)
  = Throw (Error (str "Invalid PCAP file: too short for global header."))
  /\ extractAllTcpPayloads (skipn 4 mixed_capture)
     = Throw (Error
                (str "Unsupported or invalid PCAP file: magic number is incorrect (was 0x20004)."))
  /\ (dataview_range_error = dataview_range_error
      \/ byteLength short_ipv4_capture < 24
      \/ exists magic,
          getUint32 short_ipv4_capture 0 false = Ok magic
          /\ magic <> 0xa1b2c3d4 /\ magic <> 0xd4c3b2a1).
Proof.
  split; [|split].
  - apply (capture_header_errors (firstn 23 mixed_capture)).
    vm_compute. reflexivity.
  - apply (proj1 (proj2 (capture_header_errors (skipn 4 mixed_capture)))
             0x20004).
    + vm_compute. discriminate.
    + reflexivity.
    + discriminate.
    + discriminate.
  - apply (proj2 (proj2 (capture_header_errors short_ipv4_capture))).
    vm_compute. reflexivity.
Defined.

(** ** The capture reader: what it passes over *)

(** X6.  A record that lies inside the buffer is passed over - the
    loop goes on at the record that follows, with the packet list and
    the index unchanged and no error - in each of three cases: it holds
    at most 14 bytes; its EtherType is not 0x0800; its EtherType is
    0x0800, it holds at least 24 bytes and its IPv4 protocol byte is
    not 6. *)
Theorem filtered_records_are_passed_over :
  forall pcapBuffer littleEndian offset incl_len packetIndex packets,
    getUint32 pcapBuffer (offset + 8) littleEndian = Ok incl_len ->
    offset + 16 + incl_len <= byteLength pcapBuffer ->
    incl_len <= 14
    \/ (exists etherType,
          14 < incl_len
          /\ getUint16 pcapBuffer (offset + 16 + 12) false = Ok etherType
          /\ etherType <> 0x0800)
    \/ (exists ipProtocol,
          24 <= incl_len
          /\ getUint16 pcapBuffer (offset + 16 + 12) false = Ok 0x0800
          /\ getUint8 pcapBuffer (offset + 16 + 14 + 9) = Ok ipProtocol
          /\ ipProtocol <> 6) ->
    record_body pcapBuffer littleEndian offset packetIndex packets
    = Ok (Continue (offset + 16 + incl_len) packetIndex packets)
    /\ forall fuel,
        record_loop (S fuel) pcapBuffer littleEndian offset packetIndex packets
        = record_loop fuel pcapBuffer littleEndian (offset + 16 + incl_len)
            packetIndex packets.
Proof.
  intros pcapBuffer littleEndian offset incl_len packetIndex packets
    Hlen Hfit Hcase.
  pose proof (getUint32_Ok_inv _ _ _ _ Hlen) as (Hoff & _ & Hn).
  assert (record_body pcapBuffer littleEndian offset packetIndex packets
          = Ok (Continue (offset + 16 + incl_len) packetIndex packets))
    as Hbody.
  { destruct Hcase as [Hshort | [(et & Hlong & Het & Hne)
                                | (proto & Hlong & Het & Hproto & Hne)]].
    - apply record_body_no_ip_header; [lia | exact Hlen | lia | lia].
    - unfold record_body. cbv zeta.
      destruct (Z.ltb_spec (byteLength pcapBuffer) (offset + 16)); [lia|].
      rewrite Hlen. cbn [bind].
      destruct (Z.gtb_spec (offset + 16 + incl_len) (byteLength pcapBuffer));
        [lia|].
      destruct (Z.geb_spec (offset + 16 + 14) (offset + 16 + incl_len));
        [lia|].
      rewrite Het. cbn [bind].
      destruct (Z.eqb_spec et 2048); [contradiction | reflexivity].
    - unfold record_body. cbv zeta.
      destruct (Z.ltb_spec (byteLength pcapBuffer) (offset + 16)); [lia|].
      rewrite Hlen. cbn [bind].
      destruct (Z.gtb_spec (offset + 16 + incl_len) (byteLength pcapBuffer));
        [lia|].
      destruct (Z.geb_spec (offset + 16 + 14) (offset + 16 + incl_len));
        [lia|].
      rewrite Het. cbn [bind Z.eqb Pos.eqb negb].
      destruct (getUint8 pcapBuffer (offset + 16 + 14)) as [v| |] eqn:Hv.
      + cbn [bind]. rewrite Hproto. cbn [bind].
        destruct (Z.eqb_spec proto 6); [contradiction | reflexivity].
      + exfalso. unfold getUint8 in Hv.
        replace (in_view pcapBuffer (offset + 16 + 14) 1) with true in Hv
          by (symmetry; apply in_view_true; lia).
        discriminate.
      + exfalso. exact (getUint8_terminates _ _ Hv). }
  split; [exact Hbody|].
  intros fuel. cbn [record_loop].
  destruct (Z.ltb_spec offset (byteLength pcapBuffer)); [|lia].
  rewrite Hbody. reflexivity.
Qed.

Lemma filtered_records_are_passed_over_witness :
  record_body mixed_capture false 24 0 [] = Ok (Continue (24 + 16 + 42) 0 [])
  /\ forall fuel,
      record_loop (S fuel) mixed_capture false 24 0 []
      = record_loop fuel mixed_capture false (24 + 16 + 42) 0 [].
Proof.
  apply filtered_records_are_passed_over.
  - reflexivity.
  - vm_compute. discriminate.
  - right. left. exists 0x0806.
    split; [lia|]. split; [reflexivity | discriminate].
Defined.

(** ** The boundary scanner: what it emits *)

Lemma slice_decompose (buf : ArrayBuffer) (first final : Z) :
  0 <= first -> first <= final -> final <= byteLength buf ->
  buf = firstn (Z.to_nat first) buf ++ slice buf first final
          ++ skipn (Z.to_nat final) buf
  /\ byteLength (firstn (Z.to_nat first) buf) = first.
Proof.
  intros H0 H1 H2. split.
  - unfold slice, clamp_index.
    destruct (Z.ltb_spec first 0); [lia|].
    destruct (Z.ltb_spec final 0); [lia|].
    rewrite !Z.min_l by lia. rewrite Z.max_l by lia.
    rewrite <- (firstn_skipn (Z.to_nat first) buf) at 1. f_equal.
    rewrite <- (firstn_skipn (Z.to_nat (final - first))
                  (skipn (Z.to_nat first) buf)) at 1.
    f_equal. rewrite skipn_skipn. f_equal. lia.
  - unfold byteLength in *. rewrite length_firstn. lia.
Qed.

Lemma getUint32_slice (buf : ArrayBuffer) (first final i : Z) (le : bool) :
  0 <= first -> first <= final -> final <= byteLength buf ->
  0 <= i -> i + 4 <= final - first ->
  getUint32 (slice buf first final) i le = getUint32 buf (first + i) le.
Proof.
  intros H0 H1 H2 Hi Hfit.
  destruct (slice_decompose buf first final H0 H1 H2) as (Hbuf & Hpre).
  transitivity
    (getUint32 (firstn (Z.to_nat first) buf ++ slice buf first final
                  ++ skipn (Z.to_nat final) buf)
       (byteLength (firstn (Z.to_nat first) buf) + i) le).
  - rewrite getUint32_app_r by lia.
    rewrite getUint32_app_l; [reflexivity | lia |].
    rewrite slice_length; lia.
  - rewrite <- Hbuf, Hpre. reflexivity.
Qed.

Lemma known_id_entry (id : Z) :
  includes knownCommandIds id = true ->
  In (id, or_else (lookup COMMAND_ID_MAP id) (str "Unknown Command"))
     COMMAND_ID_MAP.
Proof.
  unfold includes, knownCommandIds, COMMAND_ID_MAP.
  cbn [map fst existsb].
  repeat match goal with
         | |- context [id =? ?k] =>
             destruct (Z.eqb_spec id k);
             [subst id; intros _; vm_compute; tauto |]
         end.
  cbn. discriminate.
Qed.

Section ScannerInvariant.

Variable tcpPayload : ArrayBuffer.

(** What a pass through the loop body leaves: nothing new and the
    offset moved by one, or the PDU decoded from the slice the
    heuristics picked and the offset moved by its length. *)
Lemma scan_body_inv (offset offset' : Z) (allPdus allPdus' : list ParsedSmppData) :
  0 <= offset -> offset + 16 <= byteLength tcpPayload ->
  scan_body tcpPayload offset allPdus = Ok (allPdus', offset') ->
  (allPdus' = allPdus /\ offset' = offset + 1)
  \/ exists len parsed,
      allPdus' = allPdus ++ [parsed]
      /\ offset' = offset + len
      /\ emitted_pdu_ok tcpPayload parsed
      /\ command_length (header parsed) = len
      /\ offset + len <= byteLength tcpPayload.
Proof.
  intros H0 H1.
  destruct (heuristics_match tcpPayload offset) eqn:Hm.
  - pose proof (heuristics_match_true tcpPayload offset Hm)
      as (id & len & Hid & Hknown & Hlen & Hge & Hfit).
    rewrite (scan_body_match tcpPayload offset len allPdus Hm Hlen).
    destruct (parseSmppPdu (slice tcpPayload offset (offset + len)))
      as [parsed|e|] eqn:Hparse; cbn [bind try_catch].
    + intros Heq. injection Heq as <- <-. right. exists len, parsed.
      apply parseSmppPdu_header in Hparse.
      destruct Hparse as (Hp0 & Hp4 & _ & _ & Hname).
      rewrite getUint32_slice in Hp0, Hp4 by lia.
      rewrite Z.add_0_r, Hlen in Hp0. injection Hp0 as Hp0.
      rewrite Hid in Hp4. injection Hp4 as Hp4.
      repeat split; try lia; auto.
      rewrite Hname, <- Hp4. apply known_id_entry, Hknown.
    + intros Heq. injection Heq as <- <-. left. auto.
    + discriminate.
  - rewrite scan_body_skip by assumption.
    intros Heq. injection Heq as <- <-. left. auto.
Qed.

Lemma total_length_snoc (pdus : list ParsedSmppData) (pdu : ParsedSmppData) :
  total_length (pdus ++ [pdu])
  = total_length pdus + command_length (header pdu).
Proof.
  unfold total_length. induction pdus as [|q pdus IH]; cbn [app fold_right].
  - lia.
  - rewrite IH. lia.
Qed.

Lemma scan_loop_inv (fuel : nat) :
  forall offset allPdus result,
    0 <= offset <= byteLength tcpPayload ->
    Forall (emitted_pdu_ok tcpPayload) allPdus ->
    total_length allPdus <= offset ->
    scan_loop fuel tcpPayload offset allPdus = Ok result ->
    Forall (emitted_pdu_ok tcpPayload) result
    /\ total_length result <= byteLength tcpPayload.
Proof.
  induction fuel as [|fuel IH]; intros offset allPdus result Hoff Hall Hsum;
    [discriminate|].
  cbn [scan_loop].
  destruct (Z.leb_spec (offset + 16) (byteLength tcpPayload)) as [Hin|Hout].
  - destruct (scan_body tcpPayload offset allPdus) as [[pdus' off']| |] eqn:Hb;
      cbn [bind]; try discriminate.
    apply scan_body_inv in Hb; [|lia|lia].
    destruct Hb as [[-> ->] | (len & parsed & -> & -> & Hok & Hlen & Hfit)].
    + apply IH; [lia | exact Hall | lia].
    + destruct Hok as (Hentry & Hrange).
      apply IH.
      * lia.
      * apply Forall_app. split; [exact Hall|].
        constructor; [split; assumption | constructor].
      * rewrite total_length_snoc. lia.
  - intros Heq. injection Heq as <-. split; [exact Hall | lia].
Qed.

End ScannerInvariant.

Lemma total_length_lower (tcpPayload : ArrayBuffer) (pdus : list ParsedSmppData) :
  Forall (emitted_pdu_ok tcpPayload) pdus ->
  16 * Z.of_nat (List.length pdus) <= total_length pdus.
Proof.
  unfold total_length.
  induction 1 as [|pdu pdus (_ & Hlen) _ IH]; cbn [fold_right List.length].
  - lia.
  - lia.
Qed.

(** X7.  For every payload, each PDU [parseMultipleSmppPdus] emits
    has a command id and name that are an entry of the command table
    - so never "Unknown Command" - and a declared length of at least 16
    and at most the size of the payload. *)
Theorem scanner_emits_known_commands :
  forall tcpPayload : ArrayBuffer,
    exists pdus,
      parseMultipleSmppPdus tcpPayload = Ok pdus
      /\ Forall (emitted_pdu_ok tcpPayload) pdus.
Proof.
  intros tcpPayload. unfold parseMultipleSmppPdus.
  pose proof (byteLength_nonneg tcpPayload) as Hn.
  destruct (scan_loop_terminates tcpPayload (S (List.length tcpPayload)) 0 [])
    as (pdus & Hscan); [lia | unfold byteLength; lia |].
  exists pdus. split; [exact Hscan|].
  apply (scan_loop_inv tcpPayload (S (List.length tcpPayload)) 0 [] pdus).
  - lia.
  - constructor.
  - cbn. lia.
  - exact Hscan.
Qed.

(** X8.  The PDUs [parseMultipleSmppPdus] emits come from slices that
    do not overlap: their declared lengths add up to at most the size
    of the payload, so there are at most a sixteenth of the size of
    them, and none when the payload is shorter than 16 bytes. *)
Theorem scanner_emits_disjoint_pdus :
  forall tcpPayload : ArrayBuffer,
    exists pdus,
      parseMultipleSmppPdus tcpPayload = Ok pdus
      /\ total_length pdus <= byteLength tcpPayload
      /\ 16 * Z.of_nat (List.length pdus) <= byteLength tcpPayload
      /\ (byteLength tcpPayload < 16 -> pdus = []).
Proof.
  intros tcpPayload. unfold parseMultipleSmppPdus.
  pose proof (byteLength_nonneg tcpPayload) as Hn.
  destruct (scan_loop_terminates tcpPayload (S (List.length tcpPayload)) 0 [])
    as (pdus & Hscan); [lia | unfold byteLength; lia |].
  exists pdus. split; [exact Hscan|].
  destruct (scan_loop_inv tcpPayload (S (List.length tcpPayload)) 0 [] pdus)
    as (Hall & Hsum); [lia | constructor | cbn; lia | exact Hscan |].
  pose proof (total_length_lower tcpPayload pdus Hall) as Hcount.
  split; [exact Hsum|]. split; [lia|].
  intros Hshort. destruct pdus as [|pdu pdus]; [reflexivity|].
  cbn [List.length] in Hcount. lia.
Qed.

Lemma scanner_emits_disjoint_pdus_witness :
  exists pdus,
    parseMultipleSmppPdus (firstn 15 enquire_link_pdu) = Ok pdus
    /\ pdus = [].
Proof.
  destruct (scanner_emits_disjoint_pdus (firstn 15 enquire_link_pdu))
    as (pdus & H & _ & _ & Hnone).
  exists pdus. split; [exact H|]. apply Hnone. reflexivity.
Defined.

(** ** The reader on well-formed input *)

Lemma u8_ToUint8 (n : Z) : u8 (ToUint8 (Some n)) = n mod 256.
Proof.
  unfold ToUint8, u8.
  pose proof (Z.mod_pos_bound n 256 ltac:(lia)) as Hr.
  destruct (Byte.of_N (Z.to_N (n mod 256))) as [b|] eqn:E.
  - apply Byte.to_of_N in E. rewrite E. lia.
  - apply Byte.of_N_None_iff in E. lia.
Qed.

Lemma byteAt_here (before after : list byte) (b : byte) :
  byteAt (before ++ b :: after) (byteLength before) = u8 b.
Proof.
  rewrite <- (Z.add_0_r (byteLength before)).
  rewrite byteAt_app_r by lia. reflexivity.
Qed.

Lemma getUint8_here (before after : list byte) (b : byte) :
  getUint8 (before ++ b :: after) (byteLength before) = Ok (u8 b).
Proof.
  unfold getUint8.
  pose proof (byteLength_nonneg before). pose proof (byteLength_nonneg after).
  replace (in_view (before ++ b :: after) (byteLength before) 1) with true.
  - rewrite byteAt_here. reflexivity.
  - symmetry. apply in_view_true. rewrite byteLength_app.
    change (b :: after) with ([b] ++ after). rewrite byteLength_app.
    change (byteLength [b]) with 1. lia.
Qed.

Lemma byteLength_cons (b : byte) (l : list byte) :
  byteLength (b :: l) = 1 + byteLength l.
Proof. unfold byteLength. cbn [List.length]. lia. Qed.

Lemma window_here (before bytes after : list byte) :
  Uint8Array_on (before ++ bytes ++ after) (byteLength before)
    (byteLength bytes) = Ok bytes.
Proof.
  unfold Uint8Array_on.
  pose proof (byteLength_nonneg before). pose proof (byteLength_nonneg bytes).
  pose proof (byteLength_nonneg after).
  rewrite !byteLength_app.
  destruct (Z.leb_spec 0 (byteLength before)); [|lia].
  destruct (Z.leb_spec 0 (byteLength bytes)); [|lia].
  destruct (Z.leb_spec (byteLength before + byteLength bytes)
              (byteLength before + (byteLength bytes + byteLength after)));
    [|lia].
  cbn [andb]. unfold byteLength. rewrite !Nat2Z.id.
  rewrite skipn_app, skipn_all, Nat.sub_diag. cbn [skipn app].
  rewrite firstn_app, firstn_all, Nat.sub_diag. cbn [firstn].
  rewrite app_nil_r. reflexivity.
Qed.

Lemma reader_at_set_offset (r : BufferReader) (before bytes after : list byte) :
  reader_at r before (bytes ++ after) ->
  reader_at (set_offset r (offset r + byteLength bytes))
    (before ++ bytes) after.
Proof.
  intros (Hview & Hoff). unfold reader_at. cbn [view offset set_offset].
  rewrite Hview, Hoff, byteLength_app, app_assoc. auto.
Qed.

Lemma readUint8_at (r : BufferReader) (before after : list byte) (b : byte) :
  reader_at r before (b :: after) ->
  readUint8 r = Ok (u8 b, set_offset r (offset r + 1))
  /\ reader_at (set_offset r (offset r + 1)) (before ++ [b]) after.
Proof.
  intros Hat. split.
  - destruct Hat as (Hview & Hoff). unfold readUint8.
    rewrite Hview, Hoff, getUint8_here. reflexivity.
  - apply (reader_at_set_offset r before [b] after Hat).
Qed.

Lemma readBytes_at (r : BufferReader) (before bytes after : list byte) :
  reader_at r before (bytes ++ after) ->
  readBytes (byteLength bytes) r
  = Ok (bytes, set_offset r (offset r + byteLength bytes))
  /\ reader_at (set_offset r (offset r + byteLength bytes))
       (before ++ bytes) after.
Proof.
  intros Hat. split.
  - destruct Hat as (Hview & Hoff). unfold readBytes.
    rewrite Hview, Hoff, window_here. reflexivity.
  - apply reader_at_set_offset, Hat.
Qed.

Lemma cstring_end_at (text : list byte) :
  forall (before after : list byte) (fuel : nat),
    no_nul text ->
    after = [] \/ (exists rest, after = x00 :: rest) ->
    (List.length text < fuel)%nat ->
    cstring_end fuel (before ++ text ++ after) (byteLength before)
    = Ok (byteLength before + byteLength text).
Proof.
  induction text as [|b text IH]; intros before after fuel Hno Hafter Hfuel.
  - destruct fuel as [|fuel]; [lia|]. cbn [cstring_end app].
    change (byteLength []) with 0. rewrite Z.add_0_r.
    destruct Hafter as [-> | (rest & ->)].
    + rewrite app_nil_r.
      destruct (Z.ltb_spec (byteLength before) (byteLength before));
        [lia | reflexivity].
    + pose proof (byteLength_nonneg rest).
      rewrite byteLength_app, byteLength_cons.
      destruct (Z.ltb_spec (byteLength before)
                  (byteLength before + (1 + byteLength rest))); [|lia].
      rewrite getUint8_here. reflexivity.
  - destruct fuel as [|fuel]; [cbn in Hfuel; lia|].
    cbn [cstring_end]. inversion Hno as [|? ? Hb Hrest]; subst.
    pose proof (byteLength_nonneg (text ++ after)).
    rewrite byteLength_app. cbn [app]. rewrite byteLength_cons.
    destruct (Z.ltb_spec (byteLength before)
                (byteLength before + (1 + byteLength (text ++ after))));
      [|lia].
    rewrite getUint8_here. cbn [bind].
    destruct (Z.eqb_spec (u8 b) 0); [contradiction|]. cbn [negb].
    replace (before ++ b :: text ++ after)
      with ((before ++ [b]) ++ text ++ after)
      by (rewrite <- app_assoc; reflexivity).
    replace (byteLength before + 1) with (byteLength (before ++ [b]))
      by (rewrite byteLength_app; reflexivity).
    rewrite IH; [|assumption|assumption|cbn in Hfuel; lia].
    rewrite byteLength_app, !byteLength_cons.
    change (byteLength []) with 0. f_equal. lia.
Qed.

Lemma readCString_at :
  forall (r : BufferReader) (before text : list byte),
    no_nul text ->
    (forall after,
        reader_at r before (text ++ x00 :: after) ->
        readCString r
        = Ok (TextDecoder_decode (textDecoder r) text,
              set_offset r (offset r + byteLength text + 1))
        /\ reader_at (set_offset r (offset r + byteLength text + 1))
             (before ++ text ++ [x00]) after)
    /\ (reader_at r before text ->
        readCString r
        = Ok (TextDecoder_decode (textDecoder r) text,
              set_offset r (offset r + byteLength text))
        /\ bytesRemaining (set_offset r (offset r + byteLength text)) = 0).
Proof.
  intros r before text Hno.
  pose proof (byteLength_nonneg before) as Hb.
  pose proof (byteLength_nonneg text) as Ht.
  split.
  - intros after (Hview & Hoff).
    pose proof (byteLength_nonneg after) as Ha.
    split.
    + unfold readCString. rewrite Hview, Hoff.
      rewrite cstring_end_at;
        [ | exact Hno | right; eexists; reflexivity
          | rewrite !length_app; cbn [List.length]; lia ].
      cbn [bind].
      replace (byteLength before + byteLength text - byteLength before)
        with (byteLength text) by lia.
      rewrite window_here. cbn [bind].
      rewrite !byteLength_app, byteLength_cons.
      destruct (Z.ltb_spec (byteLength before + byteLength text)
                  (byteLength before
                   + (byteLength text + (1 + byteLength after)))); [|lia].
      reflexivity.
    + unfold reader_at. cbn [view offset set_offset].
      rewrite Hview, Hoff, !byteLength_app. change (byteLength [x00]) with 1.
      rewrite <- !app_assoc. cbn [app]. split; [reflexivity | lia].
  - intros (Hview & Hoff). rewrite <- (app_nil_r text) in Hview.
    split.
    + unfold readCString. rewrite Hview, Hoff.
      rewrite cstring_end_at;
        [ | exact Hno | left; reflexivity
          | rewrite !length_app; cbn [List.length]; lia ].
      cbn [bind].
      replace (byteLength before + byteLength text - byteLength before)
        with (byteLength text) by lia.
      rewrite window_here. cbn [bind].
      rewrite !byteLength_app. change (byteLength []) with 0.
      destruct (Z.ltb_spec (byteLength before + byteLength text)
                  (byteLength before + (byteLength text + 0))); [lia|].
      reflexivity.
    + unfold bytesRemaining. cbn [view offset set_offset].
      rewrite Hview, Hoff, !byteLength_app.
      change (byteLength []) with 0. lia.
Qed.

(** X9.  [readCString] on a reader that stands before a text without
    zero byte.  When a zero byte follows, it returns the text, decoded
    by the reader's decoder, and leaves the reader after the zero byte.
    When the buffer ends with the text, it returns the decoded text all
    the same and leaves the reader at the end of the buffer.  It does
    not throw in either case. *)
Theorem readCString_reads_the_text :
  forall (r : BufferReader) (before text : list byte),
    no_nul text ->
    (forall after,
        reader_at r before (text ++ x00 :: after) ->
        readCString r
        = Ok (TextDecoder_decode (textDecoder r) text,
              set_offset r (offset r + byteLength text + 1))
        /\ reader_at (set_offset r (offset r + byteLength text + 1))
             (before ++ text ++ [x00]) after)
    /\ (reader_at r before text ->
        readCString r
        = Ok (TextDecoder_decode (textDecoder r) text,
              set_offset r (offset r + byteLength text))
        /\ bytesRemaining (set_offset r (offset r + byteLength text)) = 0).
Proof. exact readCString_at. Qed.

Lemma readCString_reads_the_text_witness :
  let r := {| view := bytes_of [9; 72; 105; 0; 7];
              textDecoder := Windows_1252; offset := 1 |} in
  readCString r = Ok (str "Hi", set_offset r (1 + 2 + 1))
  /\ reader_at (set_offset r (1 + 2 + 1)) (bytes_of [9; 72; 105; 0])
       (bytes_of [7]).
Proof.
  intros r.
  apply (proj1 (readCString_reads_the_text r (bytes_of [9]) (bytes_of [72; 105])
                  ltac:(repeat constructor; discriminate))
           (bytes_of [7])).
  split; reflexivity.
Defined.

Lemma be16 (n : Z) :
  0 <= n < 65536 -> 256 * ((n / 256) mod 256) + n mod 256 = n.
Proof. intros H. Z.div_mod_to_equations. lia. Qed.

Lemma getUint16_here (before after : list byte) (b0 b1 : byte) :
  getUint16 (before ++ b0 :: b1 :: after) (byteLength before) false
  = Ok (256 * u8 b0 + u8 b1).
Proof.
  unfold getUint16.
  pose proof (byteLength_nonneg before). pose proof (byteLength_nonneg after).
  replace (in_view (before ++ b0 :: b1 :: after) (byteLength before) 2)
    with true.
  - rewrite byteAt_here.
    replace (before ++ b0 :: b1 :: after) with ((before ++ [b0]) ++ b1 :: after)
      by (rewrite <- app_assoc; reflexivity).
    replace (byteLength before + 1) with (byteLength (before ++ [b0]))
      by (rewrite byteLength_app; reflexivity).
    rewrite byteAt_here. reflexivity.
  - symmetry. apply in_view_true.
    rewrite byteLength_app, !byteLength_cons. lia.
Qed.

Lemma bytes_of_hex_payload (value : list byte) :
  bytes_of_hex (bufferToHex value) = payload_content value.
Proof.
  destruct value as [|b value]; [reflexivity|].
  apply bytes_of_hex_bufferToHex. discriminate.
Qed.

Lemma readTlv_at :
  forall (r : BufferReader) (before after : list byte) (tag : Z)
         (value : list byte),
    0 <= tag < 65536 -> byteLength value < 65536 ->
    reader_at r before (tlv_bytes tag value ++ after) ->
    readTlv r
    = Ok (Some (tlv_read tag value),
          set_offset r (offset r + 4 + byteLength value))
    /\ reader_at (set_offset r (offset r + 4 + byteLength value))
         (before ++ tlv_bytes tag value) after.
Proof.
  intros r before after tag value Htag Hlen Hat.
  pose proof (byteLength_nonneg before) as Hb.
  pose proof (byteLength_nonneg value) as Hv.
  pose proof (byteLength_nonneg after) as Ha.
  assert (byteLength (tlv_bytes tag value) = 4 + byteLength value) as Hsize.
  { unfold tlv_bytes. rewrite byteLength_app. reflexivity. }
  split.
  - destruct Hat as (Hview & Hoff). unfold readTlv, bytesRemaining.
    rewrite Hview, Hoff, !byteLength_app, Hsize.
    destruct (Z.ltb_spec
                (byteLength before + (4 + byteLength value + byteLength after)
                 - byteLength before) 4); [lia|].
    unfold tlv_bytes, bytes_of. cbn [map app].
    rewrite getUint16_here, !u8_ToUint8, be16 by lia. cbn [bind].
    set (t0 := ToUint8 (Some (tag / 256))).
    set (t1 := ToUint8 (Some tag)).
    set (l0 := ToUint8 (Some (byteLength value / 256))).
    set (l1 := ToUint8 (Some (byteLength value))).
    replace (before ++ t0 :: t1 :: l0 :: l1 :: value ++ after)
      with ((before ++ [t0; t1]) ++ l0 :: l1 :: value ++ after)
      by (rewrite <- app_assoc; reflexivity).
    replace (byteLength before + 2) with (byteLength (before ++ [t0; t1]))
      by (rewrite byteLength_app; reflexivity).
    rewrite getUint16_here. subst l0 l1.
    rewrite !u8_ToUint8, be16 by lia. cbn [bind].
    destruct (Z.gtb_spec (byteLength value)
                (byteLength before
                 + (4 + byteLength value + byteLength after)
                 - byteLength before - 4)); [lia|].
    unfold readBytes. cbn [view offset set_offset].
    rewrite Hview. unfold tlv_bytes, bytes_of. cbn [map app].
    fold t0 t1.
    set (l0 := ToUint8 (Some (byteLength value / 256))).
    set (l1 := ToUint8 (Some (byteLength value))).
    replace (before ++ t0 :: t1 :: l0 :: l1 :: value ++ after)
      with ((before ++ [t0; t1; l0; l1]) ++ value ++ after)
      by (rewrite <- app_assoc; reflexivity).
    replace (byteLength before + 4)
      with (byteLength (before ++ [t0; t1; l0; l1]))
      by (rewrite byteLength_app; reflexivity).
    rewrite window_here. cbn [bind].
    rewrite byteLength_app. change (byteLength [t0; t1; l0; l1]) with 4.
    reflexivity.
  - rewrite <- Z.add_assoc, <- Hsize.
    apply reader_at_set_offset, Hat.
Qed.

(** X10.  [readTlv] on a reader that stands before a TLV on the wire -
    big-endian tag, big-endian length, then that many value bytes -
    returns the tag, the length and the hex dump of the value, and
    leaves the reader right after the value, whatever follows. *)
Theorem readTlv_reads_a_tlv :
  forall (r : BufferReader) (before after : list byte) (tag : Z)
         (value : list byte),
    0 <= tag < 65536 -> byteLength value < 65536 ->
    reader_at r before (tlv_bytes tag value ++ after) ->
    readTlv r
    = Ok (Some (tlv_read tag value),
          set_offset r (offset r + 4 + byteLength value))
    /\ reader_at (set_offset r (offset r + 4 + byteLength value))
         (before ++ tlv_bytes tag value) after.
Proof. exact readTlv_at. Qed.

Lemma readTlv_reads_a_tlv_witness :
  let r := {| view := bytes_of [9; 0x04; 0x24; 0; 2; 0x42; 0x43; 7];
              textDecoder := Windows_1252; offset := 1 |} in
  readTlv r
  = Ok (Some (tlv_read 0x0424 (bytes_of [0x42; 0x43])), set_offset r (1 + 4 + 2))
  /\ reader_at (set_offset r (1 + 4 + 2))
       (bytes_of [9] ++ tlv_bytes 0x0424 (bytes_of [0x42; 0x43]))
       (bytes_of [7]).
Proof.
  intros r.
  apply (readTlv_reads_a_tlv r (bytes_of [9]) (bytes_of [7]) 0x0424
           (bytes_of [0x42; 0x43])).
  - lia.
  - vm_compute. reflexivity.
  - split; reflexivity.
Defined.

Lemma tlv_loop_at (tlvs : list (Z * list byte)) :
  forall (r : BufferReader) (before : list byte) (acc : list SmppTlv.t)
         (message_content : option (list byte)) (fuel : nat),
    tlvs_fit tlvs ->
    reader_at r before (tlvs_bytes tlvs) ->
    (List.length tlvs < fuel)%nat ->
    exists r',
      tlv_loop fuel acc message_content r
      = Ok ((acc ++ map (fun tv => tlv_read (fst tv) (snd tv)) tlvs,
             content_after message_content tlvs), r')
      /\ bytesRemaining r' = 0.
Proof.
  induction tlvs as [|[tag value] tlvs IH];
    intros r before acc mc fuel Hfit Hat Hfuel;
    (destruct fuel as [|fuel]; [cbn in Hfuel; lia|]).
  - exists r. destruct Hat as (Hview & Hoff).
    assert (bytesRemaining r = 0) as Hrem.
    { unfold bytesRemaining. rewrite Hview, Hoff, byteLength_app.
      change (byteLength (tlvs_bytes [])) with 0. lia. }
    cbn [tlv_loop map content_after]. rewrite Hrem, app_nil_r.
    split; reflexivity.
  - inversion Hfit as [|? ? (Htag & Hlen) Hrest]; subst.
    cbn [fst snd] in Htag, Hlen.
    change (tlvs_bytes ((tag, value) :: tlvs))
      with (tlv_bytes tag value ++ tlvs_bytes tlvs) in Hat.
    destruct (readTlv_at r before (tlvs_bytes tlvs) tag value
                Htag Hlen Hat) as (Hread & Hat').
    destruct (IH _ _ (acc ++ [tlv_read tag value])
                (if tag =? 0x0424 then Some (payload_content value) else mc)
                fuel Hrest Hat') as (r' & Hloop & Hend);
      [cbn in Hfuel; lia|].
    exists r'. split; [|exact Hend].
    cbn [tlv_loop].
    assert ((bytesRemaining r >? 0) = true) as ->.
    { destruct Hat as (Hview & Hoff). unfold bytesRemaining.
      rewrite Hview, Hoff, !byteLength_app.
      pose proof (byteLength_nonneg (tlvs_bytes tlvs)).
      pose proof (byteLength_nonneg value).
      unfold tlv_bytes. rewrite byteLength_app.
      change (byteLength (bytes_of _)) with 4.
      apply Z.gtb_lt. lia. }
    rewrite Hread. cbn [bind].
    change (SmppTlv.tag (tlv_read tag value)) with tag.
    change (SmppTlv.value (tlv_read tag value)) with (bufferToHex value).
    rewrite bytes_of_hex_payload, Hloop.
    cbn [map content_after fst snd]. rewrite <- app_assoc. reflexivity.
Qed.

(** X11.  The TLV loop on a reader that stands before a run of TLVs
    that fills the rest of the buffer: it returns every TLV of the run,
    in order, after those it was given, and ends at the end of the
    buffer.  The message content it leaves is that of the last
    message_payload TLV (tag 0x0424) of the run - its value, or one
    zero byte when that value is empty - whatever the content was
    before, and is the content it was given when the run has no such
    TLV. *)
Theorem tlv_loop_reads_the_run :
  forall (tlvs : list (Z * list byte)) (r : BufferReader)
         (before : list byte) (acc : list SmppTlv.t)
         (message_content : option (list byte)),
    tlvs_fit tlvs ->
    reader_at r before (tlvs_bytes tlvs) ->
    exists r',
      tlv_loop (S (List.length (view r))) acc message_content r
      = Ok ((acc ++ map (fun tv => tlv_read (fst tv) (snd tv)) tlvs,
             content_after message_content tlvs), r')
      /\ bytesRemaining r' = 0.
Proof.
  intros tlvs r before acc mc Hfit Hat.
  apply (tlv_loop_at tlvs r before); [exact Hfit | exact Hat |].
  destruct Hat as (Hview & _). rewrite Hview, length_app.
  assert (List.length tlvs <= List.length (tlvs_bytes tlvs))%nat; [|lia].
  clear. induction tlvs as [|[tag value] tlvs IH]; [cbn; lia|].
  change (tlvs_bytes ((tag, value) :: tlvs))
    with (tlv_bytes tag value ++ tlvs_bytes tlvs).
  rewrite length_app. unfold tlv_bytes at 1. rewrite length_app.
  cbn [List.length bytes_of map]. lia.
Qed.

Lemma tlv_loop_reads_the_run_witness :
  let tlvs := [ (0x0204, bytes_of [0; 7]); (0x0424, bytes_of [0x42; 0x43]) ] in
  let r := {| view := bytes_of [9] ++ tlvs_bytes tlvs;
              textDecoder := Windows_1252; offset := 1 |} in
  exists r',
    tlv_loop (S (List.length (view r))) [] (Some (bytes_of [0x41])) r
    = Ok (([] ++ map (fun tv => tlv_read (fst tv) (snd tv)) tlvs,
           Some (bytes_of [0x42; 0x43])), r')
    /\ bytesRemaining r' = 0.
Proof.
  intros tlvs r.
  apply (tlv_loop_reads_the_run tlvs r (bytes_of [9]) []
           (Some (bytes_of [0x41]))).
  - repeat constructor; cbn; try lia; try discriminate.
  - split; reflexivity.
Defined.

(** ** The deliver_sm decoder on a well-formed body *)

Lemma mbind_Ok {A B} (m : method A) (k : A -> method B)
    (r r' : BufferReader) (a : A) :
  m r = Ok (a, r') -> mbind m k r = k a r'.
Proof. intros H. unfold mbind. rewrite H. reflexivity. Qed.

Lemma reading_u8 r before after b :
  reading r before (b :: after) ->
  exists r',
    readUint8 r = Ok (u8 b, r') /\ reading r' (before ++ [b]) after.
Proof.
  intros (Hat & Hdec).
  destruct (readUint8_at r before after b Hat) as (Hread & Hat').
  eexists. split; [exact Hread|]. split; [exact Hat' | exact Hdec].
Qed.

Lemma reading_cstring r before text after :
  no_nul text ->
  reading r before (text ++ x00 :: after) ->
  exists r',
    readCString r = Ok (TextDecoder_decode Windows_1252 text, r')
    /\ reading r' (before ++ text ++ [x00]) after.
Proof.
  intros Hno (Hat & Hdec).
  destruct (proj1 (readCString_at r before text Hno) after Hat)
    as (Hread & Hat').
  eexists. split; [rewrite <- Hdec; exact Hread|].
  split; [exact Hat' | exact Hdec].
Qed.

Lemma reading_short r before short after :
  byteLength short < 256 ->
  reading r before (short ++ after) ->
  exists r',
    read_short_message (u8 (ToUint8 (Some (byteLength short)))) r
    = Ok (short_content short, r')
    /\ reading r' (before ++ short) after.
Proof.
  intros Hlen (Hat & Hdec).
  pose proof (byteLength_nonneg short) as Hs.
  pose proof (byteLength_nonneg after) as Ha.
  rewrite u8_ToUint8, Z.mod_small by lia.
  unfold read_short_message.
  destruct short as [|b short].
  - exists r. change (byteLength []) with 0. cbn [Z.gtb Z.compare andb].
    split; [reflexivity|]. rewrite app_nil_r. split; assumption.
  - destruct (readBytes_at r before (b :: short) after Hat)
      as (Hread & Hat').
    eexists.
    pose proof (byteLength_nonneg short) as Hs'.
    pose proof (byteLength_cons b short) as Hcons.
    destruct (Z.gtb_spec (byteLength (b :: short)) 0); [|lia].
    assert (bytesRemaining r = byteLength (b :: short) + byteLength after)
      as Hrem.
    { destruct Hat as (Hview & Hoff). unfold bytesRemaining.
      rewrite Hview, Hoff, !byteLength_app. lia. }
    destruct (Z.leb_spec (byteLength (b :: short)) (bytesRemaining r)); [|lia].
    cbn [andb]. rewrite Hread. cbn [bind short_content].
    split; [reflexivity|]. split; [exact Hat' | exact Hdec].
Qed.

(** One field read off a reader whose position is known. *)
Ltac read_cstring Hno :=
  match goal with
  | Hat : reading ?r ?before (?text ++ x00 :: ?after) |- _ =>
      let r' := fresh "r" in
      let Hread := fresh "Hread" in
      let Hat' := fresh "Hat" in
      destruct (reading_cstring r before text after Hno Hat)
        as (r' & Hread & Hat');
      rewrite (mbind_Ok _ _ _ _ _ Hread); clear Hread Hat
  end.

Ltac read_u8 :=
  match goal with
  | Hat : reading ?r ?before (?b :: ?after) |- _ =>
      let r' := fresh "r" in
      let Hread := fresh "Hread" in
      let Hat' := fresh "Hat" in
      destruct (reading_u8 r before after b Hat) as (r' & Hread & Hat');
      rewrite (mbind_Ok _ _ _ _ _ Hread); clear Hread Hat
  end.

Lemma parseDeliverSmBody_at (smppLength : Z) (r : BufferReader)
    (before : list byte) (w : DeliverSmWire) :
  wire_fits w ->
  reading r before (deliver_sm_wire w) ->
  exists r', parseDeliverSmBody smppLength r = Ok (deliver_sm_decoded w, r').
Proof.
  intros (Hst & Hsrc & Hdst & Hshort & Htlvs) Hat.
  unfold deliver_sm_wire in Hat.
  assert (forall x : outcome (DeliverSmBody * BufferReader),
             (exists r', x = Ok (deliver_sm_decoded w, r')) <->
             match x with
             | Ok (b, _) => b = deliver_sm_decoded w
             | _ => False
             end) as Hform.
  { intros [[b r']| |]; split;
      try (intros (? & H); inversion H; reflexivity);
      try contradiction; try (intros (? & H); discriminate).
    intros ->. eexists. reflexivity. }
  apply Hform. clear Hform. unfold parseDeliverSmBody.
  read_cstring Hst. read_u8. read_u8.
  read_cstring Hsrc. read_u8. read_u8.
  read_cstring Hdst. do 7 read_u8.
  match goal with
  | Hat : reading ?r ?before (?short ++ ?after) |- _ =>
      destruct (reading_short r before short after Hshort Hat)
        as (r' & Hread & Hat');
      rewrite (mbind_Ok _ _ _ _ _ Hread); clear Hread Hat
  end.
  destruct Hat' as (Hat' & _).
  match goal with
  | Hat : reader_at ?r ?before (tlvs_bytes ?tlvs) |- _ =>
      destruct (tlv_loop_at tlvs r before []
                  (short_content (w_short_message w))
                  (S (List.length (view r))) Htlvs Hat)
        as (rend & Hloop & _)
  end.
  { destruct Hat' as (Hview & _). rewrite Hview, length_app.
    assert (List.length (w_tlvs w) <= List.length (tlvs_bytes (w_tlvs w)))%nat;
      [|lia].
    clear. induction (w_tlvs w) as [|[tag value] tlvs IH]; [cbn; lia|].
    change (tlvs_bytes ((tag, value) :: tlvs))
      with (tlv_bytes tag value ++ tlvs_bytes tlvs).
    rewrite length_app. unfold tlv_bytes at 1. rewrite length_app.
    cbn [List.length bytes_of map]. lia. }
  rewrite (mbind_Ok
             (fun r => tlv_loop (S (List.length (view r))) []
                         (short_content (w_short_message w)) r)
             _ _ _ _ Hloop).
  cbn [app].
  unfold mbind, lift, ret.
  rewrite u8_ToUint8, Z.mod_small
    by (pose proof (byteLength_nonneg (w_short_message w)); lia).
  destruct (content_after (short_content (w_short_message w)) (w_tlvs w))
    as [content|] eqn:Hcontent.
  - destruct (decodeMessage_Ok content (u8 (w_data_coding w))) as (s & Hs).
    rewrite Hs. cbn [bind]. unfold deliver_sm_decoded.
    rewrite Hcontent. unfold rendered. rewrite Hs.
    destruct (w_tlvs w); [reflexivity|]. cbn [map]. rewrite map_map.
    reflexivity.
  - cbn [bind]. unfold deliver_sm_decoded. rewrite Hcontent.
    destruct (w_tlvs w); [reflexivity|]. cbn [map]. rewrite map_map.
    reflexivity.
Qed.

(** X12.  A deliver_sm PDU made of any 16-byte header with command id
    2 and a well-formed body - three zero-terminated strings without
    inner zero bytes among the one-byte fields, a length byte with that
    many short-message bytes, and a run of TLVs to the end - decodes
    without error to the body holding each field: the strings decoded
    as windows-1252, the bytes as numbers, the esm_class rendered with
    its hex value, the short message and the TLV values as hex dumps
    (each absent when empty), and [decoded_message] rendered, under the
    data coding, from the last message_payload TLV if there is one,
    else from the short message, else "(No message content)". *)
Theorem parseSmppPdu_decodes_deliver_sm :
  forall (header16 : list byte) (w : DeliverSmWire),
    List.length header16 = 16%nat ->
    getUint32 header16 4 false = Ok 2 ->
    wire_fits w ->
    exists h,
      header_fields_of header16 h
      /\ parseSmppPdu (header16 ++ deliver_sm_wire w)
         = Ok {| header := h; body := DeliverSm (deliver_sm_decoded w) |}.
Proof.
  intros header16 w Hlen Hid Hfits.
  assert (byteLength header16 = 16) as HL by (unfold byteLength; lia).
  destruct (getUint32_inside header16 0 false) as (n0 & H0 & _); [lia|lia|].
  destruct (getUint32_inside header16 8 false) as (n8 & H8 & _); [lia|lia|].
  destruct (getUint32_inside header16 12 false) as (n12 & H12 & _);
    [lia|lia|].
  exists {| command_length := n0; command_id := 2;
            command_name := str "deliver_sm";
            command_status := n8; sequence_no := n12 |}.
  split; [repeat split; assumption|].
  unfold parseSmppPdu, BufferReader_new.
  change (TextDecoder_new (str "ascii")) with (Ok Windows_1252).
  cbn [bind].
  rewrite (readUint32_Ok _ n0)
    by (cbn [view offset set_offset]; rewrite getUint32_app_l by lia; exact H0).
  cbn [bind offset set_offset view].
  rewrite (readUint32_Ok _ 2)
    by (cbn [view offset set_offset]; rewrite getUint32_app_l by lia; exact Hid).
  cbn [bind offset set_offset view].
  rewrite (readUint32_Ok _ n8)
    by (cbn [view offset set_offset]; rewrite getUint32_app_l by lia; exact H8).
  cbn [bind offset set_offset view].
  rewrite (readUint32_Ok _ n12)
    by (cbn [view offset set_offset]; rewrite getUint32_app_l by lia; exact H12).
  cbn [bind offset set_offset view].
  change (or_else (lookup COMMAND_ID_MAP 2) (str "Unknown Command"))
    with (str "deliver_sm").
  change (str_eqb (str "deliver_sm") (str "deliver_sm")) with true.
  cbv iota.
  match goal with
  | |- context [parseDeliverSmBody n0 ?r] =>
      destruct (parseDeliverSmBody_at n0 r header16 w Hfits) as (r' & ->)
  end.
  - split; [split|]; cbn [view offset textDecoder]; try reflexivity.
    rewrite HL. reflexivity.
  - reflexivity.
Qed.

Lemma parseSmppPdu_decodes_deliver_sm_witness :
  exists h b,
    parseSmppPdu (pdu_of 2 [] ++ deliver_sm_wire sample_wire)
    = Ok {| header := h; body := DeliverSm b |}
    /\ command_name h = str "deliver_sm"
    /\ service_type b = str "CMT"
    /\ source_address b = str "123"
    /\ dest_address b = str "45"
    /\ esm_class b = str "Delivery Receipt, Default Mode (0x04)"
    /\ short_message b = Some (str "48 69")
    /\ decoded_message b = str "(Latin 1 (ISO-8859-1)) Hello".
Proof.
  destruct (parseSmppPdu_decodes_deliver_sm (pdu_of 2 []) sample_wire)
    as (h & Hh & Hparse).
  - reflexivity.
  - reflexivity.
  - repeat split; repeat constructor; cbn; try lia; discriminate.
  - exists h, (deliver_sm_decoded sample_wire).
    split; [exact Hparse|].
    split; [|repeat split; vm_compute; reflexivity].
    destruct Hh as (_ & Hid & _ & _ & ->).
    change (getUint32 (pdu_of 2 []) 4 false) with (@Ok Z 2) in Hid.
    injection Hid as <-. reflexivity.
Defined.

(** ** Hex dumps *)

Lemma bufferToHex_length (b : byte) (bs : list byte) :
  Z.of_nat (List.length (bufferToHex (b :: bs)))
  = 3 * byteLength (b :: bs) - 1.
Proof.
  unfold bufferToHex. revert b.
  induction bs as [|c bs IH]; intros b;
    destruct (hex_of_byte b) as (h & l & Hb & _).
  - cbn [map join]. rewrite Hb. reflexivity.
  - specialize (IH c). cbn [map] in IH |- *.
    rewrite join_cons2, Hb, !length_app.
    rewrite !byteLength_cons in *. cbn [List.length str map
      list_ascii_of_string] in *. lia.
Qed.

(** X13.  The hex dump of a non-empty byte string has two digits per
    byte and one space between bytes, and reading it back the way
    [parseDeliverSmBody] does (split at spaces, [parseInt] in base 16)
    gives the bytes again.  The dump of no bytes is the empty string,
    which reads back as one zero byte. *)
Theorem hex_dump_reads_back :
  forall value : list byte,
    (value <> [] ->
     bytes_of_hex (bufferToHex value) = value
     /\ Z.of_nat (List.length (bufferToHex value)) = 3 * byteLength value - 1)
    /\ bufferToHex [] = []
    /\ bytes_of_hex [] = [x00].
Proof.
  intros value. split; [|split; reflexivity].
  intros Hne. split; [apply bytes_of_hex_bufferToHex, Hne|].
  destruct value as [|b bs]; [congruence|]. apply bufferToHex_length.
Qed.

Lemma hex_dump_reads_back_witness :
  bytes_of_hex (bufferToHex (bytes_of [0x0a; 0xff])) = bytes_of [0x0a; 0xff]
  /\ Z.of_nat (List.length (bufferToHex (bytes_of [0x0a; 0xff])))
     = 3 * byteLength (bytes_of [0x0a; 0xff]) - 1.
Proof.
  apply (hex_dump_reads_back (bytes_of [0x0a; 0xff])). discriminate.
Defined.

(** ** Text rendering of ASCII messages *)

Lemma utf8_points_ascii (bytes : list byte) :
  ascii_bytes bytes -> utf8_points bytes utf8_init = map u8 bytes.
Proof.
  induction 1 as [|b bytes Hb _ IH]; [reflexivity|].
  cbn [utf8_points map]. change (u_left utf8_init =? 0) with true. cbv iota.
  unfold utf8_lead. pose proof (u8_range b).
  destruct (Z.leb_spec (u8 b) 127); [|lia].
  cbn [app]. rewrite IH. reflexivity.
Qed.

Lemma utf16be_points_ascii (bytes : list byte) :
  ascii_bytes bytes ->
  utf16be_points (flat_map (fun b => [x00; b]) bytes) None = map u8 bytes.
Proof.
  induction 1 as [|b bytes Hb _ IH]; [reflexivity|].
  cbn [flat_map app utf16be_points map].
  change (Z.shiftl (u8 x00) 8) with 0. rewrite Z.add_0_l.
  unfold utf16_unit, is_lead_surrogate, is_trail_surrogate.
  pose proof (u8_range b).
  destruct (Z.leb_spec 55296 (u8 b)); [lia|].
  destruct (Z.leb_spec 56320 (u8 b)); [lia|].
  cbn [andb app]. rewrite IH. reflexivity.
Qed.

Lemma code_units_small (points : list Z) :
  Forall (fun p => 0 <= p < 128) points ->
  flat_map code_units (strip_bom points) = points.
Proof.
  intros H.
  assert (strip_bom points = points) as ->.
  { destruct H as [|p points Hp _]; [reflexivity|]. cbn [strip_bom].
    destruct (Z.eqb_spec p 65279); [lia | reflexivity]. }
  induction H as [|p points Hp _ IH]; [reflexivity|].
  cbn [flat_map]. unfold code_units at 1.
  destruct (Z.ltb_spec p 65536); [|lia]. cbn [app]. rewrite IH. reflexivity.
Qed.

Lemma ascii_points (bytes : list byte) :
  ascii_bytes bytes -> Forall (fun p => 0 <= p < 128) (map u8 bytes).
Proof.
  induction 1 as [|b bytes Hb _ IH]; [constructor|].
  cbn [map]. constructor; [pose proof (u8_range b); lia | exact IH].
Qed.

(** X14.  A message of ASCII bytes renders as its own text after the
    scheme name under data coding 0x04 (UTF-8) and 0x03 (Latin 1), and
    so does its two-byte big-endian form under 0x08 (UCS-2). *)
Theorem decodeMessage_renders_ascii_text :
  forall bytes : list byte,
    ascii_bytes bytes ->
    decodeMessage bytes 4 = Ok (str "(UTF-8) " ++ map u8 bytes)
    /\ decodeMessage bytes 3
       = Ok (str "(Latin 1 (ISO-8859-1)) " ++ map u8 bytes)
    /\ decodeMessage (flat_map (fun b => [x00; b]) bytes) 8
       = Ok (str "(UCS-2 (ISO/IEC-10646)) " ++ map u8 bytes).
Proof.
  intros bytes Hascii. unfold decodeMessage.
  cbn [Z.eqb Pos.eqb].
  change (TextDecoder_new (str "utf-8")) with (Ok UTF_8).
  change (TextDecoder_new (str "iso-8859-1")) with (Ok Windows_1252).
  change (TextDecoder_new (str "utf-16be")) with (Ok UTF_16BE).
  cbn [bind try_catch TextDecoder_decode].
  rewrite utf8_points_ascii, utf16be_points_ascii by exact Hascii.
  rewrite code_units_small by (apply ascii_points, Hascii).
  assert (map (fun b => windows_1252_point (u8 b)) bytes = map u8 bytes)
    as ->.
  { apply map_ext_in. intros b Hin. unfold windows_1252_point.
    assert (u8 b < 128) by (eapply Forall_forall in Hascii; eauto).
    destruct (Z.leb_spec 128 (u8 b)); [lia | reflexivity]. }
  repeat split; reflexivity.
Qed.

Lemma decodeMessage_renders_ascii_text_witness :
  decodeMessage (bytes_of [72; 105]) 4 = Ok (str "(UTF-8) Hi")
  /\ decodeMessage (bytes_of [72; 105]) 3 = Ok (str "(Latin 1 (ISO-8859-1)) Hi")
  /\ decodeMessage (bytes_of [0; 72; 0; 105]) 8
     = Ok (str "(UCS-2 (ISO/IEC-10646)) Hi").
Proof.
  apply (decodeMessage_renders_ascii_text (bytes_of [72; 105])).
  repeat constructor.
Defined.

(** ** Selecting a packet *)

Lemma find_by_index (packets : list PacketSummary.t) :
  forall (first : Z) (i : nat) (p : PacketSummary.t),
    map PacketSummary.index packets = count_from first (List.length packets) ->
    nth_error packets i = Some p ->
    find (fun q => PacketSummary.index q =? first + Z.of_nat i) packets
    = Some p.
Proof.
  induction packets as [|q packets IH]; intros first i p Hmap Hnth.
  - destruct i; discriminate.
  - cbn [map List.length count_from] in Hmap. injection Hmap as Hq Hrest.
    cbn [find]. destruct i as [|i].
    + injection Hnth as <-.
      destruct (Z.eqb_spec (PacketSummary.index q) (first + Z.of_nat 0));
        [reflexivity | lia].
    + cbn [nth_error] in Hnth.
      destruct (Z.eqb_spec (PacketSummary.index q) (first + Z.of_nat (S i)));
        [lia|].
      replace (first + Z.of_nat (S i)) with (first + 1 + Z.of_nat i) by lia.
      apply IH; assumption.
Qed.

Lemma find_no_index (packets : list PacketSummary.t) :
  forall (first index : Z),
    map PacketSummary.index packets = count_from first (List.length packets) ->
    index < first \/ first + Z.of_nat (List.length packets) <= index ->
    find (fun q => PacketSummary.index q =? index) packets = None.
Proof.
  induction packets as [|q packets IH]; intros first index Hmap Hout;
    [reflexivity|].
  cbn [map List.length count_from] in Hmap. injection Hmap as Hq Hrest.
  cbn [find List.length] in *.
  destruct (Z.eqb_spec (PacketSummary.index q) index); [lia|].
  apply (IH (first + 1)); [assumption | lia].
Qed.

(** X15.  Selecting among the packets [extractAllTcpPayloads] returned:
    the index [i + 1] selects the packet at position [i] of the list,
    and the selection holds the PDUs scanned from that packet's payload
    and no error; an index outside 1..n selects nothing and sets no
    error either. *)
Theorem selecting_a_packet_decodes_its_payload :
  forall (pcapBuffer : ArrayBuffer) (packets : list PacketSummary.t),
    extractAllTcpPayloads pcapBuffer = Ok packets ->
    (forall (i : nat) (p : PacketSummary.t),
        nth_error packets i = Some p ->
        exists pdus,
          parseMultipleSmppPdus (PacketSummary.payload p) = Ok pdus
          /\ handleSelectPacket packets (Z.of_nat i + 1)
             = Ok {| selectedPacketIndex := Some (Z.of_nat i + 1);
                     error := None;
                     detailedPacketData := Some pdus |})
    /\ (forall index,
          index < 1 \/ Z.of_nat (List.length packets) < index ->
          handleSelectPacket packets index
          = Ok {| selectedPacketIndex := Some index;
                  error := None;
                  detailedPacketData := None |}).
Proof.
  intros pcapBuffer packets Hextract.
  apply extractAllTcpPayloads_Ok_inv in Hextract.
  destruct Hextract as (le & Hloop).
  pose proof (record_loop_indices _ _ _ 24 0 [] packets eq_refl eq_refl Hloop)
    as Hidx.
  split.
  - intros i p Hnth.
    pose proof (byteLength_nonneg (PacketSummary.payload p)) as Hn.
    destruct (scan_loop_terminates (PacketSummary.payload p)
                (S (List.length (PacketSummary.payload p))) 0 [])
      as (pdus & Hscan); [lia | unfold byteLength; lia |].
    exists pdus. split; [exact Hscan|].
    unfold handleSelectPacket.
    rewrite (Z.add_comm (Z.of_nat i) 1).
    rewrite (find_by_index packets 1 i p Hidx Hnth).
    unfold parseMultipleSmppPdus. rewrite Hscan. reflexivity.
  - intros index Hout. unfold handleSelectPacket.
    rewrite (find_no_index packets 1 index Hidx) by lia. reflexivity.
Qed.

Lemma selecting_a_packet_decodes_its_payload_witness :
  exists packets p pdus,
    extractAllTcpPayloads mixed_capture = Ok packets
    /\ nth_error packets 1 = Some p
    /\ parseMultipleSmppPdus (PacketSummary.payload p) = Ok pdus
    /\ handleSelectPacket packets 2
       = Ok {| selectedPacketIndex := Some 2;
               error := None;
               detailedPacketData := Some pdus |}
    /\ handleSelectPacket packets 3
       = Ok {| selectedPacketIndex := Some 3;
               error := None;
               detailedPacketData := None |}.
Proof.
  assert (exists p1 p2, extractAllTcpPayloads mixed_capture = Ok [p1; p2])
    as (p1 & p2 & H) by (do 2 eexists; vm_compute; reflexivity).
  destruct (selecting_a_packet_decodes_its_payload mixed_capture [p1; p2] H)
    as (Hsel & Hnone).
  destruct (Hsel 1%nat p2 eq_refl) as (pdus & Hscan & Hselect).
  exists [p1; p2], p2, pdus.
  split; [exact H|]. split; [reflexivity|]. split; [exact Hscan|].
  split; [exact Hselect|].
  apply Hnone. right. cbn. lia.
Defined.

(** ** Loops end *)

(** X16.  The loops of the decoder end on every input: the string scan
    of [readCString], the TLV loop of [parseDeliverSmBody] and the
    record loop of [extractAllTcpPayloads] each return or throw within
    one pass per byte of the buffer plus one. *)
Theorem decoder_loops_end :
  (forall r : BufferReader, terminates (readCString r))
  /\ (forall pduBuffer : ArrayBuffer, terminates (parseSmppPdu pduBuffer))
  /\ (forall pcapBuffer : ArrayBuffer,
        terminates (extractAllTcpPayloads pcapBuffer)).
Proof.
  split; [exact readCString_terminates|].
  split; [exact parseSmppPdu_terminates|].
  exact extractAllTcpPayloads_terminates.
Qed.

(** ** A capture of one frame *)

Lemma byteAt_prefix (pre rest : list byte) (i : Z) (b : byte) :
  0 <= i -> nth_error pre (Z.to_nat i) = Some b ->
  byteAt (pre ++ rest) i = u8 b /\ i < byteLength pre.
Proof.
  intros Hi Hnth.
  assert (Z.to_nat i < List.length pre)%nat as Hlt
    by (apply nth_error_Some; congruence).
  split; [|unfold byteLength; lia].
  unfold byteAt. rewrite app_nth1 by exact Hlt.
  rewrite (nth_error_nth _ _ _ Hnth). reflexivity.
Qed.

Lemma prefix_u8 (pre rest : list byte) (i : Z) (b : byte) :
  (0 <=? i) = true -> nth_error pre (Z.to_nat i) = Some b ->
  getUint8 (pre ++ rest) i = Ok (u8 b).
Proof.
  intros Hi Hnth. apply Z.leb_le in Hi.
  destruct (byteAt_prefix pre rest i b Hi Hnth) as (Hb & Hlt).
  pose proof (byteLength_nonneg rest).
  unfold getUint8.
  replace (in_view (pre ++ rest) i 1) with true
    by (symmetry; apply in_view_true; rewrite byteLength_app; lia).
  rewrite Hb. reflexivity.
Qed.

Lemma prefix_u16 (pre rest : list byte) (i : Z) (b0 b1 : byte) :
  (0 <=? i) = true ->
  nth_error pre (Z.to_nat i) = Some b0 ->
  nth_error pre (Z.to_nat (i + 1)) = Some b1 ->
  getUint16 (pre ++ rest) i false = Ok (256 * u8 b0 + u8 b1).
Proof.
  intros Hi H0 H1. apply Z.leb_le in Hi.
  destruct (byteAt_prefix pre rest i b0 Hi H0) as (Hb0 & _).
  destruct (byteAt_prefix pre rest (i + 1) b1 ltac:(lia) H1) as (Hb1 & Hlt).
  pose proof (byteLength_nonneg rest).
  unfold getUint16.
  replace (in_view (pre ++ rest) i 2) with true
    by (symmetry; apply in_view_true; rewrite byteLength_app; lia).
  rewrite Hb0, Hb1. reflexivity.
Qed.

Lemma prefix_u32 (pre rest : list byte) (i : Z) (le : bool)
    (b0 b1 b2 b3 : byte) :
  (0 <=? i) = true ->
  nth_error pre (Z.to_nat i) = Some b0 ->
  nth_error pre (Z.to_nat (i + 1)) = Some b1 ->
  nth_error pre (Z.to_nat (i + 2)) = Some b2 ->
  nth_error pre (Z.to_nat (i + 3)) = Some b3 ->
  getUint32 (pre ++ rest) i le
  = Ok (if le
        then u8 b0 + 256 * u8 b1 + 65536 * u8 b2 + 16777216 * u8 b3
        else 16777216 * u8 b0 + 65536 * u8 b1 + 256 * u8 b2 + u8 b3).
Proof.
  intros Hi H0 H1 H2 H3. apply Z.leb_le in Hi.
  destruct (byteAt_prefix pre rest i b0 Hi H0) as (Hb0 & _).
  destruct (byteAt_prefix pre rest (i + 1) b1 ltac:(lia) H1) as (Hb1 & _).
  destruct (byteAt_prefix pre rest (i + 2) b2 ltac:(lia) H2) as (Hb2 & _).
  destruct (byteAt_prefix pre rest (i + 3) b3 ltac:(lia) H3) as (Hb3 & Hlt).
  pose proof (byteLength_nonneg rest).
  unfold getUint32.
  replace (in_view (pre ++ rest) i 4) with true
    by (symmetry; apply in_view_true; rewrite byteLength_app; lia).
  rewrite Hb0, Hb1, Hb2, Hb3. reflexivity.
Qed.

(** X17.  A capture, in either byte order, of one Ethernet II / IPv4
    / TCP frame without options.  When the TCP payload has more than 16
    bytes, [extractAllTcpPayloads] returns exactly one packet: index 1,
    the two addresses in dotted decimal and the two ports as read from
    the headers, [length] the size of the payload, the payload itself,
    and the info line made from the payload's first two words.  When
    the payload has at most 16 bytes it returns no packet. *)
Theorem single_frame_capture_is_forwarded :
  forall (littleEndian : bool) (len3 len2 len1 len0 : byte)
         (s0 s1 s2 s3 d0 d1 d2 d3 : byte) (sp1 sp0 dp1 dp0 : byte)
         (tcp_payload : list byte),
    let capture :=
      single_frame_prefix littleEndian len3 len2 len1 len0
        s0 s1 s2 s3 d0 d1 d2 d3 sp1 sp0 dp1 dp0 ++ tcp_payload in
    16777216 * u8 len3 + 65536 * u8 len2 + 256 * u8 len1 + u8 len0
      = 54 + byteLength tcp_payload ->
    (16 < byteLength tcp_payload ->
     exists cmdLen cmdId,
       getUint32 tcp_payload 0 false = Ok cmdLen
       /\ getUint32 tcp_payload 4 false = Ok cmdId
       /\ extractAllTcpPayloads capture
          = Ok [ {| PacketSummary.index := 1;
                    PacketSummary.sourceIp :=
                      dotted (u8 s0) (u8 s1) (u8 s2) (u8 s3);
                    PacketSummary.destIp :=
                      dotted (u8 d0) (u8 d1) (u8 d2) (u8 d3);
                    PacketSummary.sourcePort := 256 * u8 sp1 + u8 sp0;
                    PacketSummary.destPort := 256 * u8 dp1 + u8 dp0;
                    PacketSummary.length := byteLength tcp_payload;
                    PacketSummary.info :=
                      packet_info tcp_payload (Some cmdLen) (Some cmdId);
                    PacketSummary.payload := tcp_payload |} ])
    /\ (byteLength tcp_payload <= 16 ->
        extractAllTcpPayloads capture = Ok []).
Proof.
  intros le len3 len2 len1 len0 s0 s1 s2 s3 d0 d1 d2 d3 sp1 sp0 dp1 dp0
    payload capture Hlen.
  pose proof (byteLength_nonneg payload) as Hp.
  set (pre := single_frame_prefix le len3 len2 len1 len0
                s0 s1 s2 s3 d0 d1 d2 d3 sp1 sp0 dp1 dp0) in *.
  assert (byteLength capture = 94 + byteLength payload) as HL.
  { unfold capture. rewrite byteLength_app. reflexivity. }
  assert (getUint32 capture 0 false
          = Ok (if le then 0xd4c3b2a1 else 0xa1b2c3d4)) as Hmagic.
  { unfold capture. destruct le;
      erewrite prefix_u32 by reflexivity; reflexivity. }
  assert (getUint32 capture (24 + 8) le = Ok (54 + byteLength payload))
    as Hincl.
  { unfold capture. rewrite <- Hlen. destruct le;
      erewrite prefix_u32 by reflexivity; f_equal; lia. }
  assert (getUint16 capture (24 + 16 + 12) false = Ok 2048) as Hether.
  { unfold capture. erewrite prefix_u16 by reflexivity. reflexivity. }
  assert (getUint8 capture (24 + 16 + 14) = Ok 69) as Hihl.
  { unfold capture. erewrite prefix_u8 by reflexivity. reflexivity. }
  assert (getUint8 capture (24 + 16 + 14 + 9) = Ok 6) as Hproto.
  { unfold capture. erewrite prefix_u8 by reflexivity. reflexivity. }
  assert (forall k b,
             nth_error pre (Z.to_nat (24 + 16 + 14 + k)) = Some b ->
             (0 <=? 24 + 16 + 14 + k) = true ->
             getUint8 capture (24 + 16 + 14 + k) = Ok (u8 b)) as Haddr.
  { intros k b Hnth Hk. unfold capture. apply prefix_u8; assumption. }
  assert (getUint16 capture (24 + 16 + 14 + 20) false
          = Ok (256 * u8 sp1 + u8 sp0)) as Hsport.
  { unfold capture. erewrite prefix_u16 by reflexivity. reflexivity. }
  assert (getUint16 capture (24 + 16 + 14 + 20 + 2) false
          = Ok (256 * u8 dp1 + u8 dp0)) as Hdport.
  { unfold capture. erewrite prefix_u16 by reflexivity. reflexivity. }
  assert (getUint8 capture (24 + 16 + 14 + 20 + 12) = Ok 80) as Hdoff.
  { unfold capture. erewrite prefix_u8 by reflexivity. reflexivity. }
  assert (forall packets,
             record_loop (List.length capture) capture le
               (24 + 16 + (54 + byteLength payload)) 1 packets = Ok packets
             /\ record_loop (List.length capture) capture le
                  (24 + 16 + (54 + byteLength payload)) 0 packets
                = Ok packets) as Hend.
  { intros packets.
    assert (exists fuel, List.length capture = S fuel) as (fuel & ->).
    { exists (List.length capture - 1)%nat. unfold byteLength in HL. lia. }
    cbn [record_loop]. rewrite HL.
    destruct (Z.ltb_spec (24 + 16 + (54 + byteLength payload))
                (94 + byteLength payload)); [lia|].
    split; reflexivity. }
  assert (extractAllTcpPayloads capture
          = (ctl <- record_body capture le 24 0 [] ;;
             match ctl with
             | Break => Ok []
             | Continue offset' packetIndex' packets' =>
                 record_loop (List.length capture) capture le offset'
                   packetIndex' packets'
             end)) as Hunfold.
  { unfold extractAllTcpPayloads. rewrite HL.
    destruct (Z.ltb_spec (94 + byteLength payload) 24); [lia|].
    rewrite Hmagic. cbn [bind record_loop].
    destruct le; cbn [bind Z.eqb Pos.eqb]; rewrite HL;
      (destruct (Z.ltb_spec 24 (94 + byteLength payload)); [|lia]);
      reflexivity. }
  rewrite Hunfold. clear Hunfold.
  unfold record_body. cbv zeta. rewrite HL.
  destruct (Z.ltb_spec (94 + byteLength payload) (24 + 16)); [lia|].
  rewrite Hincl. cbn [bind].
  destruct (Z.gtb_spec (24 + 16 + (54 + byteLength payload))
              (94 + byteLength payload)); [lia|].
  destruct (Z.geb_spec (24 + 16 + 14) (24 + 16 + (54 + byteLength payload)));
    [lia|].
  rewrite Hether. cbn [bind Z.eqb Pos.eqb negb].
  rewrite Hihl. cbn [bind].
  change (Z.land 69 15 * 4) with 20.
  rewrite Hproto. cbn [bind Z.eqb Pos.eqb negb].
  rewrite (Haddr 12 s0), (Haddr 13 s1), (Haddr 14 s2), (Haddr 15 s3),
    (Haddr 16 d0), (Haddr 17 d1), (Haddr 18 d2), (Haddr 19 d3)
    by reflexivity.
  cbn [bind]. rewrite Hsport. cbn [bind]. rewrite Hdport. cbn [bind].
  rewrite Hdoff. cbn [bind].
  change (Z.shiftr (Z.land 80 240) 4 * 4) with 20.
  replace (54 + byteLength payload - (24 + 16 + 14 + 20 + 20 - (24 + 16)))
    with (byteLength payload) by lia.
  split.
  - intros Hbig.
    destruct (getUint32_inside payload 0 false) as (cmdLen & Hc0 & _);
      [lia | lia |].
    destruct (getUint32_inside payload 4 false) as (cmdId & Hc4 & _);
      [lia | lia |].
    exists cmdLen, cmdId. split; [exact Hc0|]. split; [exact Hc4|].
    destruct (Z.gtb_spec (byteLength payload) 16); [|lia].
    assert (slice capture (24 + 16 + 14 + 20 + 20)
              (24 + 16 + 14 + 20 + 20 + byteLength payload) = payload) as ->.
    { pose proof (slice_window pre payload []) as Hs.
      rewrite app_nil_r in Hs. exact Hs. }
    unfold BufferReader_new.
    change (TextDecoder_new (str "ascii")) with (Ok Windows_1252).
    cbn [bind]. unfold peekUint32. cbn [view].
    destruct (Z.gtb_spec (0 + 4) (byteLength payload)); [lia|].
    destruct (Z.gtb_spec (4 + 4) (byteLength payload)); [lia|].
    rewrite Hc0, Hc4. cbn [bind app].
    apply (proj1 (Hend _)).
  - intros Hsmall.
    destruct (Z.gtb_spec (byteLength payload) 16); [lia|].
    cbn [bind]. apply (proj2 (Hend [])).
Qed.

Lemma single_frame_capture_is_forwarded_witness :
  let capture :=
    single_frame_prefix true x00 x00 x00 x47
      x0a x00 x00 x01  x0a x00 x00 x02  x0a xd7  x27 x0f
      ++ enquire_link_pdu ++ [x00] in
  exists cmdLen cmdId,
    getUint32 (enquire_link_pdu ++ [x00]) 0 false = Ok cmdLen
    /\ getUint32 (enquire_link_pdu ++ [x00]) 4 false = Ok cmdId
    /\ extractAllTcpPayloads capture
       = Ok [ {| PacketSummary.index := 1;
                 PacketSummary.sourceIp :=
                   dotted (u8 x0a) (u8 x00) (u8 x00) (u8 x01);
                 PacketSummary.destIp :=
                   dotted (u8 x0a) (u8 x00) (u8 x00) (u8 x02);
                 PacketSummary.sourcePort := 256 * u8 x0a + u8 xd7;
                 PacketSummary.destPort := 256 * u8 x27 + u8 x0f;
                 PacketSummary.length := byteLength (enquire_link_pdu ++ [x00]);
                 PacketSummary.info :=
                   packet_info (enquire_link_pdu ++ [x00])
                     (Some cmdLen) (Some cmdId);
                 PacketSummary.payload := enquire_link_pdu ++ [x00] |} ].
Proof.
  intros capture.
  apply (single_frame_capture_is_forwarded true x00 x00 x00 x47
           x0a x00 x00 x01  x0a x00 x00 x02  x0a xd7  x27 x0f
           (enquire_link_pdu ++ [x00])).
  - reflexivity.
  - reflexivity.
Defined.

(** ** Any number of PDUs, and a short tail *)

Lemma scan_loop_pdus (pdus : list ArrayBuffer) (parsed : list ParsedSmppData) :
  Forall2 valid_pdu pdus parsed ->
  forall (before tail : list byte) (acc : list ParsedSmppData) (fuel : nat),
    byteLength tail < 16 ->
    (List.length pdus < fuel)%nat ->
    scan_loop fuel (before ++ List.concat pdus ++ tail) (byteLength before) acc
    = Ok (acc ++ parsed).
Proof.
  induction 1 as [|pdu result pdus parsed Hv _ IH];
    intros before tail acc fuel Htail Hfuel;
    (destruct fuel as [|fuel]; [cbn in Hfuel; lia|]).
  - cbn [List.concat app]. rewrite app_nil_r. apply scan_loop_exit.
    rewrite byteLength_app. lia.
  - pose proof (byteLength_nonneg before) as Hb.
    cbn [List.concat]. rewrite <- app_assoc.
    destruct (valid_pdu_matches before pdu (List.concat pdus ++ tail) result Hv)
      as (Hm & Hl).
    rewrite (scan_loop_accept _ _ _ (byteLength pdu) acc result);
      [| lia | exact Hm | exact Hl |].
    2:{ rewrite slice_window. apply Hv. }
    rewrite <- byteLength_app, app_assoc.
    rewrite IH; [|exact Htail | cbn in Hfuel; lia].
    rewrite <- app_assoc. reflexivity.
Qed.

(** X18.  A payload that is any number of valid PDUs back to back,
    followed by fewer than 16 other bytes, scans to exactly the decoded
    PDUs, in order: the tail is dropped without a trace. *)
Theorem scanner_decodes_a_run_of_pdus :
  forall (pdus : list ArrayBuffer) (parsed : list ParsedSmppData)
         (tail : list byte),
    Forall2 valid_pdu pdus parsed ->
    byteLength tail < 16 ->
    parseMultipleSmppPdus (List.concat pdus ++ tail) = Ok parsed.
Proof.
  intros pdus parsed tail Hall Htail. unfold parseMultipleSmppPdus.
  apply (scan_loop_pdus pdus parsed Hall [] tail []); [exact Htail|].
  rewrite length_app.
  assert (List.length pdus <= List.length (List.concat pdus))%nat; [|lia].
  induction Hall as [|pdu result pdus parsed Hv _ IH]; [cbn; lia|].
  cbn [List.concat List.length]. rewrite length_app.
  pose proof (valid_pdu_length pdu result Hv) as H16.
  unfold byteLength in H16. lia.
Qed.

Lemma scanner_decodes_a_run_of_pdus_witness :
  exists p1 p2,
    parseMultipleSmppPdus
      (List.concat [enquire_link_pdu; deliver_sm_with_payload [0x42; 0x43];
               enquire_link_pdu] ++ bytes_of [1; 2; 3])
    = Ok [p1; p2; p1].
Proof.
  assert (exists p1, valid_pdu enquire_link_pdu p1) as (p1 & Hv1).
  { eexists. split; [reflexivity|]. split.
    - eexists. split; reflexivity.
    - vm_compute. reflexivity. }
  assert (exists p2, valid_pdu (deliver_sm_with_payload [0x42; 0x43]) p2)
    as (p2 & Hv2).
  { eexists. split; [reflexivity|]. split.
    - eexists. split; reflexivity.
    - vm_compute. reflexivity. }
  exists p1, p2.
  apply scanner_decodes_a_run_of_pdus.
  - constructor; [exact Hv1|]. constructor; [exact Hv2|].
    constructor; [exact Hv1|]. constructor.
  - reflexivity.
Defined.

(** ** The decoder's reads stay inside the buffer *)

Lemma safe_mbind {A B} (m : method A) (k : A -> method B) :
  safe_method m -> (forall a, safe_method (k a)) -> safe_method (mbind m k).
Proof.
  intros Hm Hk r Hr. destruct (Hm r Hr) as (Hthrow & Hnext).
  unfold mbind. destruct (m r) as [[a r1]|e|] eqn:Hmr.
  - apply Hk. apply (Hnext a r1). reflexivity.
  - split; [|discriminate].
    intros e' He. injection He as <-. apply Hthrow. reflexivity.
  - split; [intros e' He|]; discriminate.
Qed.

Lemma safe_ret {A} (a : A) : safe_method (ret a).
Proof.
  intros r Hr. unfold ret. split; [apply throws_only_Ok|].
  intros a' r' Heq. injection Heq as _ <-. exact Hr.
Qed.

Lemma safe_readUint8 : safe_method readUint8.
Proof.
  intros r Hr. unfold readUint8.
  destruct (getUint8 (view r) (offset r)) as [v|e|] eqn:Hv; cbn [bind].
  - split; [apply throws_only_Ok|].
    intros a r' Heq. injection Heq as _ <-.
    apply getUint8_Ok_inv in Hv. unfold in_bounds in *.
    cbn [view offset set_offset]. lia.
  - split; [|discriminate]. intros e' He. injection He as <-.
    apply (getUint8_throws _ _ _ Hv).
  - split; [intros e' He|]; discriminate.
Qed.

Lemma safe_readUint32 : safe_method readUint32.
Proof.
  intros r Hr. unfold readUint32.
  destruct (getUint32 (view r) (offset r) false) as [v|e|] eqn:Hv;
    cbn [bind].
  - split; [apply throws_only_Ok|].
    intros a r' Heq. injection Heq as _ <-.
    apply getUint32_Ok_inv in Hv. unfold in_bounds in *.
    cbn [view offset set_offset]. lia.
  - split; [|discriminate]. intros e' He. injection He as <-.
    apply (getUint32_throws _ _ _ _ Hv).
  - split; [intros e' He|]; discriminate.
Qed.

Lemma cstring_end_inside (fuel : nat) (v : ArrayBuffer) :
  forall off,
    0 <= off <= byteLength v ->
    throws_only dataview_range_error (cstring_end fuel v off)
    /\ forall stop, cstring_end fuel v off = Ok stop ->
                    off <= stop <= byteLength v.
Proof.
  induction fuel as [|fuel IH]; intros off Hoff.
  - split; [intros e He|intros stop He]; discriminate.
  - cbn [cstring_end].
    destruct (Z.ltb_spec off (byteLength v)) as [Hin|Hout].
    + unfold getUint8.
      replace (in_view v off 1) with true
        by (symmetry; apply in_view_true; lia).
      cbn [bind]. destruct (negb (byteAt v off =? 0)).
      * destruct (IH (off + 1)) as (Ht & Hs); [lia|].
        split; [exact Ht|]. intros stop Hstop. apply Hs in Hstop. lia.
      * split; [apply throws_only_Ok|].
        intros stop Hstop. injection Hstop as <-. lia.
    + split; [apply throws_only_Ok|].
      intros stop Hstop. injection Hstop as <-. lia.
Qed.

Lemma window_inside (buf : ArrayBuffer) (off len : Z) :
  0 <= off -> 0 <= len -> off + len <= byteLength buf ->
  exists bytes, Uint8Array_on buf off len = Ok bytes.
Proof.
  intros H0 H1 H2. unfold Uint8Array_on.
  destruct (Z.leb_spec 0 off); [|lia].
  destruct (Z.leb_spec 0 len); [|lia].
  destruct (Z.leb_spec (off + len) (byteLength buf)); [|lia].
  eexists. reflexivity.
Qed.

Lemma safe_readCString : safe_method readCString.
Proof.
  intros r Hr. unfold readCString.
  destruct (cstring_end_inside (S (List.length (view r))) (view r)
              (offset r) Hr) as (Hthrow & Hstop).
  destruct (cstring_end (S (List.length (view r))) (view r) (offset r))
    as [stop|e|]; cbn [bind].
  - specialize (Hstop stop eq_refl).
    destruct (window_inside (view r) (offset r) (stop - offset r))
      as (bytes & ->); [unfold in_bounds in Hr; lia | lia | lia |].
    cbn [bind]. split; [apply throws_only_Ok|].
    intros a r' Heq. injection Heq as _ <-.
    unfold in_bounds in *. cbn [view offset set_offset].
    destruct (Z.ltb_spec stop (byteLength (view r))); lia.
  - split; [|discriminate]. intros e' He. injection He as <-.
    apply Hthrow. reflexivity.
  - split; [intros e' He|]; discriminate.
Qed.

Lemma readBytes_inside (len : Z) (r : BufferReader) :
  in_bounds r -> 0 <= len <= bytesRemaining r ->
  exists bytes,
    readBytes len r = Ok (bytes, set_offset r (offset r + len))
    /\ in_bounds (set_offset r (offset r + len)).
Proof.
  intros Hr Hlen. unfold in_bounds, bytesRemaining in *. unfold readBytes.
  destruct (window_inside (view r) (offset r) len) as (bytes & ->);
    [lia | lia | lia |].
  exists bytes. split; [reflexivity|]. cbn [view offset set_offset]. lia.
Qed.

Lemma safe_read_short_message (sm_length : Z) :
  safe_method (read_short_message sm_length).
Proof.
  intros r Hr. unfold read_short_message.
  destruct (Z.gtb_spec sm_length 0) as [Hpos|Hnone]; cbn [andb].
  - destruct (Z.leb_spec sm_length (bytesRemaining r)) as [Hfit|Hbig].
    + destruct (readBytes_inside sm_length r Hr) as (bytes & -> & Hin);
        [lia|].
      cbn [bind]. split; [apply throws_only_Ok|].
      intros a r' Heq. injection Heq as _ <-. exact Hin.
    + split; [apply throws_only_Ok|].
      intros a r' Heq. injection Heq as _ <-. exact Hr.
  - split; [apply throws_only_Ok|].
    intros a r' Heq. injection Heq as _ <-. exact Hr.
Qed.

Lemma safe_readTlv : safe_method readTlv.
Proof.
  intros r Hr. unfold readTlv.
  destruct (Z.ltb_spec (bytesRemaining r) 4) as [Hfew|Hfour].
  { split; [apply throws_only_Ok|].
    intros a r' Heq. injection Heq as _ <-. exact Hr. }
  unfold in_bounds, bytesRemaining in *.
  destruct (getUint16_inside (view r) (offset r) false)
    as (tag & -> & _); [lia | lia |].
  destruct (getUint16_inside (view r) (offset r + 2) false)
    as (len & -> & Hlen); [lia | lia |].
  cbn [bind].
  destruct (Z.gtb_spec len (byteLength (view r) - offset r - 4)).
  { split; [apply throws_only_Ok|].
    intros a r' Heq. injection Heq as _ <-. exact Hr. }
  destruct (readBytes_inside len (set_offset r (offset r + 4)))
    as (bytes & -> & Hin).
  { unfold in_bounds. cbn [view offset set_offset]. lia. }
  { unfold bytesRemaining. cbn [view offset set_offset]. lia. }
  cbn [bind]. split; [apply throws_only_Ok|].
  intros a r' Heq. injection Heq as _ <-. exact Hin.
Qed.

Lemma safe_tlv_loop (fuel : nat) :
  forall tlvs message_content,
    safe_method (tlv_loop fuel tlvs message_content).
Proof.
  induction fuel as [|fuel IH]; intros tlvs mc r Hr.
  - split; [intros e He|intros a r' He]; discriminate.
  - cbn [tlv_loop].
    destruct (bytesRemaining r >? 0).
    + destruct (safe_readTlv r Hr) as (Hthrow & Hnext).
      destruct (readTlv r) as [[[t|] r1]|e|]; cbn [bind].
      * apply IH. apply (Hnext _ _ eq_refl).
      * split; [apply throws_only_Ok|].
        intros a r' Heq. injection Heq as _ <-. apply (Hnext _ _ eq_refl).
      * split; [|discriminate]. intros e' He. injection He as <-.
        apply Hthrow. reflexivity.
      * split; [intros e' He|]; discriminate.
    + split; [apply throws_only_Ok|].
      intros a r' Heq. injection Heq as _ <-. exact Hr.
Qed.

Lemma safe_parseDeliverSmBody (smppLength : Z) :
  safe_method (parseDeliverSmBody smppLength).
Proof.
  unfold parseDeliverSmBody.
  repeat (apply safe_mbind;
          [first [ exact safe_readCString | exact safe_readUint8 ]
          | intros ? ]).
  apply safe_mbind; [apply safe_read_short_message|]. intros short.
  apply safe_mbind.
  { intros r Hr. apply safe_tlv_loop, Hr. }
  intros [tlvs message_content]. apply safe_mbind; [|intros; apply safe_ret].
  intros r Hr. unfold lift.
  destruct message_content as [content|].
  - match goal with
    | |- context [decodeMessage content ?d] =>
        destruct (decodeMessage_Ok content d) as (s & ->)
    end.
    cbn [bind]. split; [apply throws_only_Ok|].
    intros ? ? Heq. injection Heq as _ <-. exact Hr.
  - cbn [bind]. split; [apply throws_only_Ok|].
    intros ? ? Heq. injection Heq as _ <-. exact Hr.
Qed.

(** X19.  [parseSmppPdu] either returns a parsed PDU or throws the
    DataView RangeError of a field read past the end of the buffer,
    on every buffer.  It throws nothing else: the windows it opens on
    the buffer - for strings, the short message, TLV values and the raw
    body - always fit. *)
Theorem parseSmppPdu_throws_only_range_errors :
  forall pduBuffer : ArrayBuffer,
    (exists parsed, parseSmppPdu pduBuffer = Ok parsed)
    \/ parseSmppPdu pduBuffer = Throw dataview_range_error.
Proof.
  intros p.
  assert (throws_only dataview_range_error (parseSmppPdu p)) as Hthrow.
  { unfold parseSmppPdu, BufferReader_new.
    change (TextDecoder_new (str "ascii")) with (Ok Windows_1252).
    cbn [bind].
    assert (in_bounds {| view := p; textDecoder := Windows_1252; offset := 0 |})
      as Hr0.
    { unfold in_bounds. cbn [view offset].
      pose proof (byteLength_nonneg p). lia. }
    revert Hr0.
    generalize {| view := p; textDecoder := Windows_1252; offset := 0 |}.
    intros r0 Hr0.
    apply throws_only_bind; [apply safe_readUint32, Hr0|].
    intros [n0 r1] H1. apply (proj2 (safe_readUint32 r0 Hr0)) in H1.
    apply throws_only_bind; [apply safe_readUint32, H1|].
    intros [n4 r2] H2. apply (proj2 (safe_readUint32 r1 H1)) in H2.
    apply throws_only_bind; [apply safe_readUint32, H2|].
    intros [n8 r3] H3. apply (proj2 (safe_readUint32 r2 H2)) in H3.
    apply throws_only_bind; [apply safe_readUint32, H3|].
    intros [n12 r4] H4. apply (proj2 (safe_readUint32 r3 H3)) in H4.
    apply throws_only_bind; [|intros; apply throws_only_Ok].
    match goal with |- context [if ?c then _ else _] => destruct c end.
    - apply throws_only_bind; [apply safe_parseDeliverSmBody, H4|].
      intros [b r5] _. apply throws_only_Ok.
    - apply throws_only_bind; [|intros; apply throws_only_Ok].
      destruct (Z.gtb_spec (bytesRemaining r4) 0); [|apply throws_only_Ok].
      destruct (readBytes_inside (bytesRemaining r4) r4 H4) as (bytes & -> & _);
        [lia|].
      cbn [bind]. apply throws_only_Ok. }
  pose proof (parseSmppPdu_terminates p) as Hterm.
  destruct (parseSmppPdu p) as [parsed|e|].
  - left. eauto.
  - right. f_equal. apply Hthrow. reflexivity.
  - exfalso. apply Hterm. reflexivity.
Qed.

(** ** A short message that does not fit *)

Lemma reading_in_bounds r before after :
  reading r before after -> in_bounds r /\ bytesRemaining r = byteLength after.
Proof.
  intros ((Hview & Hoff) & _). unfold in_bounds, bytesRemaining.
  rewrite Hview, Hoff, byteLength_app.
  pose proof (byteLength_nonneg before). pose proof (byteLength_nonneg after).
  lia.
Qed.

Lemma readTlv_returns (r : BufferReader) :
  in_bounds r ->
  exists t r', readTlv r = Ok (t, r') /\ in_bounds r'.
Proof.
  intros Hr. unfold readTlv.
  destruct (Z.ltb_spec (bytesRemaining r) 4) as [Hfew|Hfour];
    [eauto|].
  unfold in_bounds, bytesRemaining in *.
  destruct (getUint16_inside (view r) (offset r) false)
    as (tag & -> & _); [lia | lia |].
  destruct (getUint16_inside (view r) (offset r + 2) false)
    as (len & -> & Hlen); [lia | lia |].
  cbn [bind].
  destruct (Z.gtb_spec len (byteLength (view r) - offset r - 4));
    [eauto|].
  destruct (readBytes_inside len (set_offset r (offset r + 4)))
    as (bytes & -> & Hin).
  { unfold in_bounds. cbn [view offset set_offset]. lia. }
  { unfold bytesRemaining. cbn [view offset set_offset]. lia. }
  cbn [bind]. eauto.
Qed.

(** Started inside the buffer, the TLV loop returns: no read of it can
    fail. *)
Lemma tlv_loop_returns (fuel : nat) :
  forall tlvs message_content r,
    in_bounds r -> (1 <= fuel)%nat -> bytesRemaining r < Z.of_nat fuel ->
    exists result, tlv_loop fuel tlvs message_content r = Ok result.
Proof.
  induction fuel as [|fuel IH]; intros tlvs mc r Hr Hpos Hroom; [lia|].
  cbn [tlv_loop].
  destruct (bytesRemaining r >? 0); [|eauto].
  destruct (readTlv_returns r Hr) as (t & r' & Hread & Hr').
  rewrite Hread. cbn [bind]. destruct t as [t|]; [|eauto].
  apply readTlv_Some_inv in Hread.
  destruct Hread as (Hoff & Hview & Hoff' & Hlen).
  apply IH; [exact Hr' | lia |].
  unfold bytesRemaining in *. rewrite Hview, Hoff'. lia.
Qed.

Lemma read_short_message_returns (sm_length : Z) (r : BufferReader) :
  in_bounds r ->
  exists short r',
    read_short_message sm_length r = Ok (short, r')
    /\ in_bounds r'
    /\ (bytesRemaining r < sm_length -> short = None).
Proof.
  intros Hr. unfold read_short_message.
  destruct (Z.gtb_spec sm_length 0) as [Hpos|Hnone]; cbn [andb].
  - destruct (Z.leb_spec sm_length (bytesRemaining r)) as [Hfit|Hbig].
    + destruct (readBytes_inside sm_length r Hr) as (bytes & -> & Hin);
        [lia|].
      cbn [bind]. do 2 eexists. split; [reflexivity|].
      split; [exact Hin | lia].
    + do 2 eexists. split; [reflexivity|]. split; [exact Hr | reflexivity].
  - do 2 eexists. split; [reflexivity|]. split; [exact Hr | reflexivity].
Qed.

(** The body decoder on a buffer that holds the fields up to the
    sm_length byte: it returns, whatever follows that byte, and the
    body holds those fields. *)
Lemma parseDeliverSmBody_fixed (smppLength : Z) (r : BufferReader)
    (before rest : list byte) (w : DeliverSmWire) (declared : byte) :
  no_nul (w_service_type w) -> no_nul (w_source_address w) ->
  no_nul (w_dest_address w) ->
  reading r before (deliver_sm_fixed w (declared :: rest)) ->
  match parseDeliverSmBody smppLength r with
  | Ok (b, _) =>
      fixed_fields_decoded w declared b
      /\ (byteLength rest < u8 declared -> short_message b = None)
  | _ => False
  end.
Proof.
  intros Hst Hsrc Hdst Hat.
  unfold deliver_sm_fixed in Hat. unfold parseDeliverSmBody.
  read_cstring Hst. read_u8. read_u8.
  read_cstring Hsrc. read_u8. read_u8.
  read_cstring Hdst. do 7 read_u8.
  match goal with
  | Hat : reading ?r _ rest |- _ =>
      destruct (reading_in_bounds _ _ _ Hat) as (Hin & Hrem);
      destruct (read_short_message_returns (u8 declared) r Hin)
        as (short & r' & Hshort & Hin' & Hnone)
  end.
  rewrite Hrem in Hnone.
  rewrite (mbind_Ok _ _ _ _ _ Hshort).
  destruct (tlv_loop_returns (S (List.length (view r'))) [] short r' Hin')
    as ([[tlvs mc] rend] & Hloop);
    [lia | unfold in_bounds, bytesRemaining, byteLength in *; lia |].
  rewrite (mbind_Ok
             (fun r => tlv_loop (S (List.length (view r))) [] short r)
             _ _ _ _ Hloop).
  unfold mbind, lift, ret.
  destruct mc as [content|].
  - match goal with
    | |- context [decodeMessage content ?d] =>
        destruct (decodeMessage_Ok content d) as (s & ->)
    end.
    cbn [bind]. split.
    + unfold fixed_fields_decoded.
      cbn [service_type source_addr_ton source_addr_npi source_address
             dest_addr_ton dest_addr_npi dest_address esm_class protocol_id
             priority_flag replace_if_present_flag data_coding
             sm_default_msg_id sm_length].
      repeat split; reflexivity.
    + intros Hbeyond. cbn [short_message]. rewrite (Hnone Hbeyond).
      reflexivity.
  - cbn [bind]. split.
    + unfold fixed_fields_decoded.
      cbn [service_type source_addr_ton source_addr_npi source_address
             dest_addr_ton dest_addr_npi dest_address esm_class protocol_id
             priority_flag replace_if_present_flag data_coding
             sm_default_msg_id sm_length].
      repeat split; reflexivity.
    + intros Hbeyond. cbn [short_message]. rewrite (Hnone Hbeyond).
      reflexivity.
Qed.

(** The same for a whole PDU: any 16-byte header with command id 2,
    then the fields up to the sm_length byte, then anything. *)
Lemma parseSmppPdu_fixed (header16 rest : list byte) (w : DeliverSmWire)
    (declared : byte) :
  List.length header16 = 16%nat ->
  getUint32 header16 4 false = Ok 2 ->
  no_nul (w_service_type w) -> no_nul (w_source_address w) ->
  no_nul (w_dest_address w) ->
  exists h b,
    header_fields_of header16 h
    /\ parseSmppPdu (header16 ++ deliver_sm_fixed w (declared :: rest))
       = Ok {| header := h; body := DeliverSm b |}
    /\ fixed_fields_decoded w declared b
    /\ (byteLength rest < u8 declared -> short_message b = None).
Proof.
  intros Hlen Hid Hst Hsrc Hdst.
  assert (byteLength header16 = 16) as HL by (unfold byteLength; lia).
  destruct (getUint32_inside header16 0 false) as (n0 & H0 & _); [lia|lia|].
  destruct (getUint32_inside header16 8 false) as (n8 & H8 & _); [lia|lia|].
  destruct (getUint32_inside header16 12 false) as (n12 & H12 & _);
    [lia|lia|].
  exists {| command_length := n0; command_id := 2;
            command_name := str "deliver_sm";
            command_status := n8; sequence_no := n12 |}.
  unfold parseSmppPdu, BufferReader_new.
  change (TextDecoder_new (str "ascii")) with (Ok Windows_1252).
  cbn [bind].
  rewrite (readUint32_Ok _ n0)
    by (cbn [view offset set_offset]; rewrite getUint32_app_l by lia; exact H0).
  cbn [bind offset set_offset view].
  rewrite (readUint32_Ok _ 2)
    by (cbn [view offset set_offset]; rewrite getUint32_app_l by lia; exact Hid).
  cbn [bind offset set_offset view].
  rewrite (readUint32_Ok _ n8)
    by (cbn [view offset set_offset]; rewrite getUint32_app_l by lia; exact H8).
  cbn [bind offset set_offset view].
  rewrite (readUint32_Ok _ n12)
    by (cbn [view offset set_offset]; rewrite getUint32_app_l by lia; exact H12).
  cbn [bind offset set_offset view].
  change (or_else (lookup COMMAND_ID_MAP 2) (str "Unknown Command"))
    with (str "deliver_sm").
  change (str_eqb (str "deliver_sm") (str "deliver_sm")) with true.
  cbv iota.
  match goal with
  | |- context [parseDeliverSmBody n0 ?r] =>
      pose proof (parseDeliverSmBody_fixed n0 r header16 rest w
                    declared Hst Hsrc Hdst) as Hbody;
      assert (reading r header16 (deliver_sm_fixed w (declared :: rest)))
        as Hat
        by (split; [split|]; cbn [view offset textDecoder];
            try reflexivity; rewrite HL; reflexivity);
      specialize (Hbody Hat);
      destruct (parseDeliverSmBody n0 r) as [[b r']| |];
      [|contradiction|contradiction]
  end.
  exists b. cbn [bind]. destruct Hbody as (Hfields & Hshort).
  split; [repeat split; assumption|].
  split; [reflexivity|]. split; assumption.
Qed.

(** X20.  A deliver_sm PDU - any 16-byte header with command id 2,
    then the fields up to the sm_length byte - whose sm_length byte
    declares more bytes than the buffer still holds decodes without
    error.  The header carries the four fields of the 16 bytes and the
    name of the command; the body has no [short_message], keeps the
    declared [sm_length], and holds every field before it decoded as
    usual: service type, both address triples, esm_class, protocol id,
    priority flag, replace-if-present flag, data coding and default
    message id.  (The bytes left are then read as TLVs.) *)
Theorem short_message_beyond_the_buffer_is_omitted :
  forall (header16 rest : list byte) (w : DeliverSmWire) (declared : byte),
    List.length header16 = 16%nat ->
    getUint32 header16 4 false = Ok 2 ->
    no_nul (w_service_type w) -> no_nul (w_source_address w) ->
    no_nul (w_dest_address w) ->
    byteLength rest < u8 declared ->
    exists h b,
      header_fields_of header16 h
      /\ parseSmppPdu (header16 ++ deliver_sm_fixed w (declared :: rest))
         = Ok {| header := h; body := DeliverSm b |}
      /\ fixed_fields_decoded w declared b
      /\ short_message b = None.
Proof.
  intros header16 rest w declared Hlen Hid Hst Hsrc Hdst Hbeyond.
  destruct (parseSmppPdu_fixed header16 rest w declared Hlen Hid Hst Hsrc Hdst)
    as (h & b & Hh & Hparse & Hfields & Hshort).
  exists h, b. auto.
Qed.

Lemma short_message_beyond_the_buffer_is_omitted_witness :
  exists h b,
    header_fields_of (pdu_of 2 []) h
    /\ parseSmppPdu (pdu_of 2 [] ++ deliver_sm_fixed sample_wire [x09; x41; x42])
       = Ok {| header := h; body := DeliverSm b |}
    /\ fixed_fields_decoded sample_wire x09 b
    /\ short_message b = None.
Proof.
  apply (short_message_beyond_the_buffer_is_omitted (pdu_of 2 [])
           [x41; x42] sample_wire x09).
  - reflexivity.
  - reflexivity.
  - repeat constructor; discriminate.
  - repeat constructor; discriminate.
  - repeat constructor; discriminate.
  - reflexivity.
Defined.

(** ** The esm_class of a deliver_sm *)

(** C8.  Whatever the esm_class byte of a deliver_sm PDU - any 16-byte
    header with command id 2, then the body fields up to the sm_length
    byte, then anything - the decoder returns a body whose [esm_class]
    is made from that byte: the name the message-type table gives its
    4-bit subfield of bits 2-5, then the name the messaging-mode table
    gives its 2-bit subfield of bits 0-1, "Unknown Type" and "Unknown
    Mode" standing for a subfield value the table does not list, then
    the byte in hexadecimal.  First conjunct: the rendering of
    [ESM_CLASS_MAP] itself, on every byte. *)
Theorem deliver_sm_esm_class_subfields :
  (forall b : byte,
      let mode := u8 b mod 4 in
      let type := (u8 b / 4) mod 16 in
      ESM_CLASS_MAP (u8 b)
      = name_in MESSAGE_TYPE_TABLE (4 * type) (str "Unknown Type") ++ str ", "
          ++ name_in MESSAGING_MODE_TABLE mode (str "Unknown Mode"))
  /\ (forall (header16 rest : list byte) (w : DeliverSmWire) (declared : byte),
        List.length header16 = 16%nat ->
        getUint32 header16 4 false = Ok 2 ->
        no_nul (w_service_type w) -> no_nul (w_source_address w) ->
        no_nul (w_dest_address w) ->
        let esmClass := u8 (w_esm_class w) in
        let mode := esmClass mod 4 in
        let type := (esmClass / 4) mod 16 in
        exists h b,
          header_fields_of header16 h
          /\ parseSmppPdu (header16 ++ deliver_sm_fixed w (declared :: rest))
             = Ok {| header := h; body := DeliverSm b |}
          /\ esm_class b
             = name_in MESSAGE_TYPE_TABLE (4 * type) (str "Unknown Type")
                 ++ str ", "
                 ++ name_in MESSAGING_MODE_TABLE mode (str "Unknown Mode")
                 ++ str " (0x" ++ padStart 2 48 (toString 16 esmClass)
                 ++ str ")").
Proof.
  split; [exact ESM_CLASS_MAP_tables|].
  intros header16 rest w declared Hlen Hid Hst Hsrc Hdst esmClass mode type.
  destruct (parseSmppPdu_fixed header16 rest w declared Hlen Hid Hst Hsrc Hdst)
    as (h & b & Hh & Hparse & Hfields & _).
  exists h, b. split; [exact Hh|]. split; [exact Hparse|].
  destruct Hfields as (_ & _ & _ & _ & _ & _ & _ & Hesm & _).
  rewrite Hesm, (ESM_CLASS_MAP_tables (w_esm_class w)).
  cbv zeta. subst esmClass mode type. rewrite <- !app_assoc. reflexivity.
Qed.

Lemma deliver_sm_esm_class_subfields_witness :
  exists h b,
    header_fields_of (pdu_of 2 []) h
    /\ parseSmppPdu
         (pdu_of 2 [] ++ deliver_sm_fixed sample_wire (bytes_of [2; 72; 105]))
       = Ok {| header := h; body := DeliverSm b |}
    /\ esm_class b = str "Delivery Receipt, Default Mode (0x04)".
Proof.
  destruct (proj2 deliver_sm_esm_class_subfields (pdu_of 2 [])
              (bytes_of [72; 105]) sample_wire x02)
    as (h & b & Hh & Hparse & Hesm).
  - reflexivity.
  - reflexivity.
  - repeat constructor; discriminate.
  - repeat constructor; discriminate.
  - repeat constructor; discriminate.
  - exists h, b. split; [exact Hh|]. split; [exact Hparse|].
    rewrite Hesm. reflexivity.
Defined.

Lemma decoder_loops_end_witness :
  terminates (parseSmppPdu deliver_sm_malformed_tlv)
  /\ terminates (extractAllTcpPayloads mixed_capture).
Proof.
  split.
  - apply (proj1 (proj2 decoder_loops_end)).
  - apply (proj2 (proj2 decoder_loops_end)).
Defined.
